(** * The two-agent plan revision loop of [2_Revise-Plan-Stable.py]

    A shallow embedding of the revision protocol ([revise_step_with_llms]),
    of its two gateway wrappers ([get_claude_response], [get_gemini_response])
    and of the batch driver ([further_revise_plan]), with the properties the
    specification states about them.

    Modelling conventions.
    - A Python [str] is the [string] of the bytes of its UTF-8 encoding;
      [upper] is [str.upper] with the case mappings of Unicode 14.0 (the
      ones of Python 3.11), for ASCII and for every other character.
    - The plan is one object.  Its [Detailed_Outline] (a list of step dicts
      that the protocol mutates in place) lives in the world; its
      [revision_requests] dict is never written and is passed as a [gmap].
    - The two history lists of a [RevisionContext] are heap objects: the
      context record holds their addresses, and every [[]] in the source is
      an allocation.
    - The two providers are functions of the number of calls they have
      already served and of the request; they answer with a text or raise.
      A provider call is the call of the SDK as the script makes it
      ([client.messages.create], [chat.send_message]): what the SDK does
      inside the call, such as the Anthropic client repeating a request that
      failed, belongs to the provider, and an exception is one the SDK let
      through.
    - Code runs in a state-and-exception monad [M].  [print] and the [verbose]
      flag are left out; the records sent to [logger] and the requests sent
      to the providers are kept in the world's [log]. *)

From Stdlib Require Import ZArith String Ascii Lia.
From stdpp Require Import base gmap list strings pretty.

(** ** Strings *)

(** The newline character of the f-strings. *)
Definition nl : string := String (ascii_of_nat 10) EmptyString.

(** [c.upper()] for one byte: an ASCII letter is put in upper case; the
    bytes of the other characters are dealt with in [upper]. *)
Definition upper_char (c : ascii) : ascii :=
  let n := nat_of_ascii c in
  if (97 <=? n)%nat && (n <=? 122)%nat then ascii_of_nat (n - 32) else c.

(** The UTF-8 encoding of a code point. *)
Definition utf8 (c : N) : string :=
  let b (n : N) := String (ascii_of_N n) in
  (if c <? 0x80 then b c ""
   else if c <? 0x800 then
     b (0xc0 + c / 0x40) (b (0x80 + c mod 0x40) "")
   else if c <? 0x10000 then
     b (0xe0 + c / 0x1000) (b (0x80 + c / 0x40 mod 0x40) (b (0x80 + c mod 0x40) ""))
   else
     b (0xf0 + c / 0x40000)
       (b (0x80 + c / 0x1000 mod 0x40)
          (b (0x80 + c / 0x40 mod 0x40) (b (0x80 + c mod 0x40) ""))))%N.

(** The characters outside ASCII that [str.upper] changes, with the code
    points it puts in their place. *)
Definition special_casing : list (N * list N) := [
  (0xb5, [0x39c]); (0xdf, [0x53; 0x53]); (0xe0, [0xc0]); (0xe1, [0xc1]);
  (0xe2, [0xc2]); (0xe3, [0xc3]); (0xe4, [0xc4]); (0xe5, [0xc5]);
  (0xe6, [0xc6]); (0xe7, [0xc7]); (0xe8, [0xc8]); (0xe9, [0xc9]);
  (0xea, [0xca]); (0xeb, [0xcb]); (0xec, [0xcc]); (0xed, [0xcd]);
  (0xee, [0xce]); (0xef, [0xcf]); (0xf0, [0xd0]); (0xf1, [0xd1]);
  (0xf2, [0xd2]); (0xf3, [0xd3]); (0xf4, [0xd4]); (0xf5, [0xd5]);
  (0xf6, [0xd6]); (0xf8, [0xd8]); (0xf9, [0xd9]); (0xfa, [0xda]);
  (0xfb, [0xdb]); (0xfc, [0xdc]); (0xfd, [0xdd]); (0xfe, [0xde]);
  (0xff, [0x178]); (0x101, [0x100]); (0x103, [0x102]); (0x105, [0x104]);
  (0x107, [0x106]); (0x109, [0x108]); (0x10b, [0x10a]); (0x10d, [0x10c]);
  (0x10f, [0x10e]); (0x111, [0x110]); (0x113, [0x112]); (0x115, [0x114]);
  (0x117, [0x116]); (0x119, [0x118]); (0x11b, [0x11a]); (0x11d, [0x11c]);
  (0x11f, [0x11e]); (0x121, [0x120]); (0x123, [0x122]); (0x125, [0x124]);
  (0x127, [0x126]); (0x129, [0x128]); (0x12b, [0x12a]); (0x12d, [0x12c]);
  (0x12f, [0x12e]); (0x131, [0x49]); (0x133, [0x132]); (0x135, [0x134]);
  (0x137, [0x136]); (0x13a, [0x139]); (0x13c, [0x13b]); (0x13e, [0x13d]);
  (0x140, [0x13f]); (0x142, [0x141]); (0x144, [0x143]); (0x146, [0x145]);
  (0x148, [0x147]); (0x149, [0x2bc; 0x4e]); (0x14b, [0x14a]); (0x14d, [0x14c]);
  (0x14f, [0x14e]); (0x151, [0x150]); (0x153, [0x152]); (0x155, [0x154]);
  (0x157, [0x156]); (0x159, [0x158]); (0x15b, [0x15a]); (0x15d, [0x15c]);
  (0x15f, [0x15e]); (0x161, [0x160]); (0x163, [0x162]); (0x165, [0x164]);
  (0x167, [0x166]); (0x169, [0x168]); (0x16b, [0x16a]); (0x16d, [0x16c]);
  (0x16f, [0x16e]); (0x171, [0x170]); (0x173, [0x172]); (0x175, [0x174]);
  (0x177, [0x176]); (0x17a, [0x179]); (0x17c, [0x17b]); (0x17e, [0x17d]);
  (0x17f, [0x53]); (0x180, [0x243]); (0x183, [0x182]); (0x185, [0x184]);
  (0x188, [0x187]); (0x18c, [0x18b]); (0x192, [0x191]); (0x195, [0x1f6]);
  (0x199, [0x198]); (0x19a, [0x23d]); (0x19e, [0x220]); (0x1a1, [0x1a0]);
  (0x1a3, [0x1a2]); (0x1a5, [0x1a4]); (0x1a8, [0x1a7]); (0x1ad, [0x1ac]);
  (0x1b0, [0x1af]); (0x1b4, [0x1b3]); (0x1b6, [0x1b5]); (0x1b9, [0x1b8]);
  (0x1bd, [0x1bc]); (0x1bf, [0x1f7]); (0x1c5, [0x1c4]); (0x1c6, [0x1c4]);
  (0x1c8, [0x1c7]); (0x1c9, [0x1c7]); (0x1cb, [0x1ca]); (0x1cc, [0x1ca]);
  (0x1ce, [0x1cd]); (0x1d0, [0x1cf]); (0x1d2, [0x1d1]); (0x1d4, [0x1d3]);
  (0x1d6, [0x1d5]); (0x1d8, [0x1d7]); (0x1da, [0x1d9]); (0x1dc, [0x1db]);
  (0x1dd, [0x18e]); (0x1df, [0x1de]); (0x1e1, [0x1e0]); (0x1e3, [0x1e2]);
  (0x1e5, [0x1e4]); (0x1e7, [0x1e6]); (0x1e9, [0x1e8]); (0x1eb, [0x1ea]);
  (0x1ed, [0x1ec]); (0x1ef, [0x1ee]); (0x1f0, [0x4a; 0x30c]); (0x1f2, [0x1f1]);
  (0x1f3, [0x1f1]); (0x1f5, [0x1f4]); (0x1f9, [0x1f8]); (0x1fb, [0x1fa]);
  (0x1fd, [0x1fc]); (0x1ff, [0x1fe]); (0x201, [0x200]); (0x203, [0x202]);
  (0x205, [0x204]); (0x207, [0x206]); (0x209, [0x208]); (0x20b, [0x20a]);
  (0x20d, [0x20c]); (0x20f, [0x20e]); (0x211, [0x210]); (0x213, [0x212]);
  (0x215, [0x214]); (0x217, [0x216]); (0x219, [0x218]); (0x21b, [0x21a]);
  (0x21d, [0x21c]); (0x21f, [0x21e]); (0x223, [0x222]); (0x225, [0x224]);
  (0x227, [0x226]); (0x229, [0x228]); (0x22b, [0x22a]); (0x22d, [0x22c]);
  (0x22f, [0x22e]); (0x231, [0x230]); (0x233, [0x232]); (0x23c, [0x23b]);
  (0x23f, [0x2c7e]); (0x240, [0x2c7f]); (0x242, [0x241]); (0x247, [0x246]);
  (0x249, [0x248]); (0x24b, [0x24a]); (0x24d, [0x24c]); (0x24f, [0x24e]);
  (0x250, [0x2c6f]); (0x251, [0x2c6d]); (0x252, [0x2c70]); (0x253, [0x181]);
  (0x254, [0x186]); (0x256, [0x189]); (0x257, [0x18a]); (0x259, [0x18f]);
  (0x25b, [0x190]); (0x25c, [0xa7ab]); (0x260, [0x193]); (0x261, [0xa7ac]);
  (0x263, [0x194]); (0x265, [0xa78d]); (0x266, [0xa7aa]); (0x268, [0x197]);
  (0x269, [0x196]); (0x26a, [0xa7ae]); (0x26b, [0x2c62]); (0x26c, [0xa7ad]);
  (0x26f, [0x19c]); (0x271, [0x2c6e]); (0x272, [0x19d]); (0x275, [0x19f]);
  (0x27d, [0x2c64]); (0x280, [0x1a6]); (0x282, [0xa7c5]); (0x283, [0x1a9]);
  (0x287, [0xa7b1]); (0x288, [0x1ae]); (0x289, [0x244]); (0x28a, [0x1b1]);
  (0x28b, [0x1b2]); (0x28c, [0x245]); (0x292, [0x1b7]); (0x29d, [0xa7b2]);
  (0x29e, [0xa7b0]); (0x345, [0x399]); (0x371, [0x370]); (0x373, [0x372]);
  (0x377, [0x376]); (0x37b, [0x3fd]); (0x37c, [0x3fe]); (0x37d, [0x3ff]);
  (0x390, [0x399; 0x308; 0x301]); (0x3ac, [0x386]); (0x3ad, [0x388]); (0x3ae, [0x389]);
  (0x3af, [0x38a]); (0x3b0, [0x3a5; 0x308; 0x301]); (0x3b1, [0x391]); (0x3b2, [0x392]);
  (0x3b3, [0x393]); (0x3b4, [0x394]); (0x3b5, [0x395]); (0x3b6, [0x396]);
  (0x3b7, [0x397]); (0x3b8, [0x398]); (0x3b9, [0x399]); (0x3ba, [0x39a]);
  (0x3bb, [0x39b]); (0x3bc, [0x39c]); (0x3bd, [0x39d]); (0x3be, [0x39e]);
  (0x3bf, [0x39f]); (0x3c0, [0x3a0]); (0x3c1, [0x3a1]); (0x3c2, [0x3a3]);
  (0x3c3, [0x3a3]); (0x3c4, [0x3a4]); (0x3c5, [0x3a5]); (0x3c6, [0x3a6]);
  (0x3c7, [0x3a7]); (0x3c8, [0x3a8]); (0x3c9, [0x3a9]); (0x3ca, [0x3aa]);
  (0x3cb, [0x3ab]); (0x3cc, [0x38c]); (0x3cd, [0x38e]); (0x3ce, [0x38f]);
  (0x3d0, [0x392]); (0x3d1, [0x398]); (0x3d5, [0x3a6]); (0x3d6, [0x3a0]);
  (0x3d7, [0x3cf]); (0x3d9, [0x3d8]); (0x3db, [0x3da]); (0x3dd, [0x3dc]);
  (0x3df, [0x3de]); (0x3e1, [0x3e0]); (0x3e3, [0x3e2]); (0x3e5, [0x3e4]);
  (0x3e7, [0x3e6]); (0x3e9, [0x3e8]); (0x3eb, [0x3ea]); (0x3ed, [0x3ec]);
  (0x3ef, [0x3ee]); (0x3f0, [0x39a]); (0x3f1, [0x3a1]); (0x3f2, [0x3f9]);
  (0x3f3, [0x37f]); (0x3f5, [0x395]); (0x3f8, [0x3f7]); (0x3fb, [0x3fa]);
  (0x430, [0x410]); (0x431, [0x411]); (0x432, [0x412]); (0x433, [0x413]);
  (0x434, [0x414]); (0x435, [0x415]); (0x436, [0x416]); (0x437, [0x417]);
  (0x438, [0x418]); (0x439, [0x419]); (0x43a, [0x41a]); (0x43b, [0x41b]);
  (0x43c, [0x41c]); (0x43d, [0x41d]); (0x43e, [0x41e]); (0x43f, [0x41f]);
  (0x440, [0x420]); (0x441, [0x421]); (0x442, [0x422]); (0x443, [0x423]);
  (0x444, [0x424]); (0x445, [0x425]); (0x446, [0x426]); (0x447, [0x427]);
  (0x448, [0x428]); (0x449, [0x429]); (0x44a, [0x42a]); (0x44b, [0x42b]);
  (0x44c, [0x42c]); (0x44d, [0x42d]); (0x44e, [0x42e]); (0x44f, [0x42f]);
  (0x450, [0x400]); (0x451, [0x401]); (0x452, [0x402]); (0x453, [0x403]);
  (0x454, [0x404]); (0x455, [0x405]); (0x456, [0x406]); (0x457, [0x407]);
  (0x458, [0x408]); (0x459, [0x409]); (0x45a, [0x40a]); (0x45b, [0x40b]);
  (0x45c, [0x40c]); (0x45d, [0x40d]); (0x45e, [0x40e]); (0x45f, [0x40f]);
  (0x461, [0x460]); (0x463, [0x462]); (0x465, [0x464]); (0x467, [0x466]);
  (0x469, [0x468]); (0x46b, [0x46a]); (0x46d, [0x46c]); (0x46f, [0x46e]);
  (0x471, [0x470]); (0x473, [0x472]); (0x475, [0x474]); (0x477, [0x476]);
  (0x479, [0x478]); (0x47b, [0x47a]); (0x47d, [0x47c]); (0x47f, [0x47e]);
  (0x481, [0x480]); (0x48b, [0x48a]); (0x48d, [0x48c]); (0x48f, [0x48e]);
  (0x491, [0x490]); (0x493, [0x492]); (0x495, [0x494]); (0x497, [0x496]);
  (0x499, [0x498]); (0x49b, [0x49a]); (0x49d, [0x49c]); (0x49f, [0x49e]);
  (0x4a1, [0x4a0]); (0x4a3, [0x4a2]); (0x4a5, [0x4a4]); (0x4a7, [0x4a6]);
  (0x4a9, [0x4a8]); (0x4ab, [0x4aa]); (0x4ad, [0x4ac]); (0x4af, [0x4ae]);
  (0x4b1, [0x4b0]); (0x4b3, [0x4b2]); (0x4b5, [0x4b4]); (0x4b7, [0x4b6]);
  (0x4b9, [0x4b8]); (0x4bb, [0x4ba]); (0x4bd, [0x4bc]); (0x4bf, [0x4be]);
  (0x4c2, [0x4c1]); (0x4c4, [0x4c3]); (0x4c6, [0x4c5]); (0x4c8, [0x4c7]);
  (0x4ca, [0x4c9]); (0x4cc, [0x4cb]); (0x4ce, [0x4cd]); (0x4cf, [0x4c0]);
  (0x4d1, [0x4d0]); (0x4d3, [0x4d2]); (0x4d5, [0x4d4]); (0x4d7, [0x4d6]);
  (0x4d9, [0x4d8]); (0x4db, [0x4da]); (0x4dd, [0x4dc]); (0x4df, [0x4de]);
  (0x4e1, [0x4e0]); (0x4e3, [0x4e2]); (0x4e5, [0x4e4]); (0x4e7, [0x4e6]);
  (0x4e9, [0x4e8]); (0x4eb, [0x4ea]); (0x4ed, [0x4ec]); (0x4ef, [0x4ee]);
  (0x4f1, [0x4f0]); (0x4f3, [0x4f2]); (0x4f5, [0x4f4]); (0x4f7, [0x4f6]);
  (0x4f9, [0x4f8]); (0x4fb, [0x4fa]); (0x4fd, [0x4fc]); (0x4ff, [0x4fe]);
  (0x501, [0x500]); (0x503, [0x502]); (0x505, [0x504]); (0x507, [0x506]);
  (0x509, [0x508]); (0x50b, [0x50a]); (0x50d, [0x50c]); (0x50f, [0x50e]);
  (0x511, [0x510]); (0x513, [0x512]); (0x515, [0x514]); (0x517, [0x516]);
  (0x519, [0x518]); (0x51b, [0x51a]); (0x51d, [0x51c]); (0x51f, [0x51e]);
  (0x521, [0x520]); (0x523, [0x522]); (0x525, [0x524]); (0x527, [0x526]);
  (0x529, [0x528]); (0x52b, [0x52a]); (0x52d, [0x52c]); (0x52f, [0x52e]);
  (0x561, [0x531]); (0x562, [0x532]); (0x563, [0x533]); (0x564, [0x534]);
  (0x565, [0x535]); (0x566, [0x536]); (0x567, [0x537]); (0x568, [0x538]);
  (0x569, [0x539]); (0x56a, [0x53a]); (0x56b, [0x53b]); (0x56c, [0x53c]);
  (0x56d, [0x53d]); (0x56e, [0x53e]); (0x56f, [0x53f]); (0x570, [0x540]);
  (0x571, [0x541]); (0x572, [0x542]); (0x573, [0x543]); (0x574, [0x544]);
  (0x575, [0x545]); (0x576, [0x546]); (0x577, [0x547]); (0x578, [0x548]);
  (0x579, [0x549]); (0x57a, [0x54a]); (0x57b, [0x54b]); (0x57c, [0x54c]);
  (0x57d, [0x54d]); (0x57e, [0x54e]); (0x57f, [0x54f]); (0x580, [0x550]);
  (0x581, [0x551]); (0x582, [0x552]); (0x583, [0x553]); (0x584, [0x554]);
  (0x585, [0x555]); (0x586, [0x556]); (0x587, [0x535; 0x552]); (0x10d0, [0x1c90]);
  (0x10d1, [0x1c91]); (0x10d2, [0x1c92]); (0x10d3, [0x1c93]); (0x10d4, [0x1c94]);
  (0x10d5, [0x1c95]); (0x10d6, [0x1c96]); (0x10d7, [0x1c97]); (0x10d8, [0x1c98]);
  (0x10d9, [0x1c99]); (0x10da, [0x1c9a]); (0x10db, [0x1c9b]); (0x10dc, [0x1c9c]);
  (0x10dd, [0x1c9d]); (0x10de, [0x1c9e]); (0x10df, [0x1c9f]); (0x10e0, [0x1ca0]);
  (0x10e1, [0x1ca1]); (0x10e2, [0x1ca2]); (0x10e3, [0x1ca3]); (0x10e4, [0x1ca4]);
  (0x10e5, [0x1ca5]); (0x10e6, [0x1ca6]); (0x10e7, [0x1ca7]); (0x10e8, [0x1ca8]);
  (0x10e9, [0x1ca9]); (0x10ea, [0x1caa]); (0x10eb, [0x1cab]); (0x10ec, [0x1cac]);
  (0x10ed, [0x1cad]); (0x10ee, [0x1cae]); (0x10ef, [0x1caf]); (0x10f0, [0x1cb0]);
  (0x10f1, [0x1cb1]); (0x10f2, [0x1cb2]); (0x10f3, [0x1cb3]); (0x10f4, [0x1cb4]);
  (0x10f5, [0x1cb5]); (0x10f6, [0x1cb6]); (0x10f7, [0x1cb7]); (0x10f8, [0x1cb8]);
  (0x10f9, [0x1cb9]); (0x10fa, [0x1cba]); (0x10fd, [0x1cbd]); (0x10fe, [0x1cbe]);
  (0x10ff, [0x1cbf]); (0x13f8, [0x13f0]); (0x13f9, [0x13f1]); (0x13fa, [0x13f2]);
  (0x13fb, [0x13f3]); (0x13fc, [0x13f4]); (0x13fd, [0x13f5]); (0x1c80, [0x412]);
  (0x1c81, [0x414]); (0x1c82, [0x41e]); (0x1c83, [0x421]); (0x1c84, [0x422]);
  (0x1c85, [0x422]); (0x1c86, [0x42a]); (0x1c87, [0x462]); (0x1c88, [0xa64a]);
  (0x1d79, [0xa77d]); (0x1d7d, [0x2c63]); (0x1d8e, [0xa7c6]); (0x1e01, [0x1e00]);
  (0x1e03, [0x1e02]); (0x1e05, [0x1e04]); (0x1e07, [0x1e06]); (0x1e09, [0x1e08]);
  (0x1e0b, [0x1e0a]); (0x1e0d, [0x1e0c]); (0x1e0f, [0x1e0e]); (0x1e11, [0x1e10]);
  (0x1e13, [0x1e12]); (0x1e15, [0x1e14]); (0x1e17, [0x1e16]); (0x1e19, [0x1e18]);
  (0x1e1b, [0x1e1a]); (0x1e1d, [0x1e1c]); (0x1e1f, [0x1e1e]); (0x1e21, [0x1e20]);
  (0x1e23, [0x1e22]); (0x1e25, [0x1e24]); (0x1e27, [0x1e26]); (0x1e29, [0x1e28]);
  (0x1e2b, [0x1e2a]); (0x1e2d, [0x1e2c]); (0x1e2f, [0x1e2e]); (0x1e31, [0x1e30]);
  (0x1e33, [0x1e32]); (0x1e35, [0x1e34]); (0x1e37, [0x1e36]); (0x1e39, [0x1e38]);
  (0x1e3b, [0x1e3a]); (0x1e3d, [0x1e3c]); (0x1e3f, [0x1e3e]); (0x1e41, [0x1e40]);
  (0x1e43, [0x1e42]); (0x1e45, [0x1e44]); (0x1e47, [0x1e46]); (0x1e49, [0x1e48]);
  (0x1e4b, [0x1e4a]); (0x1e4d, [0x1e4c]); (0x1e4f, [0x1e4e]); (0x1e51, [0x1e50]);
  (0x1e53, [0x1e52]); (0x1e55, [0x1e54]); (0x1e57, [0x1e56]); (0x1e59, [0x1e58]);
  (0x1e5b, [0x1e5a]); (0x1e5d, [0x1e5c]); (0x1e5f, [0x1e5e]); (0x1e61, [0x1e60]);
  (0x1e63, [0x1e62]); (0x1e65, [0x1e64]); (0x1e67, [0x1e66]); (0x1e69, [0x1e68]);
  (0x1e6b, [0x1e6a]); (0x1e6d, [0x1e6c]); (0x1e6f, [0x1e6e]); (0x1e71, [0x1e70]);
  (0x1e73, [0x1e72]); (0x1e75, [0x1e74]); (0x1e77, [0x1e76]); (0x1e79, [0x1e78]);
  (0x1e7b, [0x1e7a]); (0x1e7d, [0x1e7c]); (0x1e7f, [0x1e7e]); (0x1e81, [0x1e80]);
  (0x1e83, [0x1e82]); (0x1e85, [0x1e84]); (0x1e87, [0x1e86]); (0x1e89, [0x1e88]);
  (0x1e8b, [0x1e8a]); (0x1e8d, [0x1e8c]); (0x1e8f, [0x1e8e]); (0x1e91, [0x1e90]);
  (0x1e93, [0x1e92]); (0x1e95, [0x1e94]); (0x1e96, [0x48; 0x331]); (0x1e97, [0x54; 0x308]);
  (0x1e98, [0x57; 0x30a]); (0x1e99, [0x59; 0x30a]); (0x1e9a, [0x41; 0x2be]); (0x1e9b, [0x1e60]);
  (0x1ea1, [0x1ea0]); (0x1ea3, [0x1ea2]); (0x1ea5, [0x1ea4]); (0x1ea7, [0x1ea6]);
  (0x1ea9, [0x1ea8]); (0x1eab, [0x1eaa]); (0x1ead, [0x1eac]); (0x1eaf, [0x1eae]);
  (0x1eb1, [0x1eb0]); (0x1eb3, [0x1eb2]); (0x1eb5, [0x1eb4]); (0x1eb7, [0x1eb6]);
  (0x1eb9, [0x1eb8]); (0x1ebb, [0x1eba]); (0x1ebd, [0x1ebc]); (0x1ebf, [0x1ebe]);
  (0x1ec1, [0x1ec0]); (0x1ec3, [0x1ec2]); (0x1ec5, [0x1ec4]); (0x1ec7, [0x1ec6]);
  (0x1ec9, [0x1ec8]); (0x1ecb, [0x1eca]); (0x1ecd, [0x1ecc]); (0x1ecf, [0x1ece]);
  (0x1ed1, [0x1ed0]); (0x1ed3, [0x1ed2]); (0x1ed5, [0x1ed4]); (0x1ed7, [0x1ed6]);
  (0x1ed9, [0x1ed8]); (0x1edb, [0x1eda]); (0x1edd, [0x1edc]); (0x1edf, [0x1ede]);
  (0x1ee1, [0x1ee0]); (0x1ee3, [0x1ee2]); (0x1ee5, [0x1ee4]); (0x1ee7, [0x1ee6]);
  (0x1ee9, [0x1ee8]); (0x1eeb, [0x1eea]); (0x1eed, [0x1eec]); (0x1eef, [0x1eee]);
  (0x1ef1, [0x1ef0]); (0x1ef3, [0x1ef2]); (0x1ef5, [0x1ef4]); (0x1ef7, [0x1ef6]);
  (0x1ef9, [0x1ef8]); (0x1efb, [0x1efa]); (0x1efd, [0x1efc]); (0x1eff, [0x1efe]);
  (0x1f00, [0x1f08]); (0x1f01, [0x1f09]); (0x1f02, [0x1f0a]); (0x1f03, [0x1f0b]);
  (0x1f04, [0x1f0c]); (0x1f05, [0x1f0d]); (0x1f06, [0x1f0e]); (0x1f07, [0x1f0f]);
  (0x1f10, [0x1f18]); (0x1f11, [0x1f19]); (0x1f12, [0x1f1a]); (0x1f13, [0x1f1b]);
  (0x1f14, [0x1f1c]); (0x1f15, [0x1f1d]); (0x1f20, [0x1f28]); (0x1f21, [0x1f29]);
  (0x1f22, [0x1f2a]); (0x1f23, [0x1f2b]); (0x1f24, [0x1f2c]); (0x1f25, [0x1f2d]);
  (0x1f26, [0x1f2e]); (0x1f27, [0x1f2f]); (0x1f30, [0x1f38]); (0x1f31, [0x1f39]);
  (0x1f32, [0x1f3a]); (0x1f33, [0x1f3b]); (0x1f34, [0x1f3c]); (0x1f35, [0x1f3d]);
  (0x1f36, [0x1f3e]); (0x1f37, [0x1f3f]); (0x1f40, [0x1f48]); (0x1f41, [0x1f49]);
  (0x1f42, [0x1f4a]); (0x1f43, [0x1f4b]); (0x1f44, [0x1f4c]); (0x1f45, [0x1f4d]);
  (0x1f50, [0x3a5; 0x313]); (0x1f51, [0x1f59]); (0x1f52, [0x3a5; 0x313; 0x300]); (0x1f53, [0x1f5b]);
  (0x1f54, [0x3a5; 0x313; 0x301]); (0x1f55, [0x1f5d]); (0x1f56, [0x3a5; 0x313; 0x342]); (0x1f57, [0x1f5f]);
  (0x1f60, [0x1f68]); (0x1f61, [0x1f69]); (0x1f62, [0x1f6a]); (0x1f63, [0x1f6b]);
  (0x1f64, [0x1f6c]); (0x1f65, [0x1f6d]); (0x1f66, [0x1f6e]); (0x1f67, [0x1f6f]);
  (0x1f70, [0x1fba]); (0x1f71, [0x1fbb]); (0x1f72, [0x1fc8]); (0x1f73, [0x1fc9]);
  (0x1f74, [0x1fca]); (0x1f75, [0x1fcb]); (0x1f76, [0x1fda]); (0x1f77, [0x1fdb]);
  (0x1f78, [0x1ff8]); (0x1f79, [0x1ff9]); (0x1f7a, [0x1fea]); (0x1f7b, [0x1feb]);
  (0x1f7c, [0x1ffa]); (0x1f7d, [0x1ffb]); (0x1f80, [0x1f08; 0x399]); (0x1f81, [0x1f09; 0x399]);
  (0x1f82, [0x1f0a; 0x399]); (0x1f83, [0x1f0b; 0x399]); (0x1f84, [0x1f0c; 0x399]); (0x1f85, [0x1f0d; 0x399]);
  (0x1f86, [0x1f0e; 0x399]); (0x1f87, [0x1f0f; 0x399]); (0x1f88, [0x1f08; 0x399]); (0x1f89, [0x1f09; 0x399]);
  (0x1f8a, [0x1f0a; 0x399]); (0x1f8b, [0x1f0b; 0x399]); (0x1f8c, [0x1f0c; 0x399]); (0x1f8d, [0x1f0d; 0x399]);
  (0x1f8e, [0x1f0e; 0x399]); (0x1f8f, [0x1f0f; 0x399]); (0x1f90, [0x1f28; 0x399]); (0x1f91, [0x1f29; 0x399]);
  (0x1f92, [0x1f2a; 0x399]); (0x1f93, [0x1f2b; 0x399]); (0x1f94, [0x1f2c; 0x399]); (0x1f95, [0x1f2d; 0x399]);
  (0x1f96, [0x1f2e; 0x399]); (0x1f97, [0x1f2f; 0x399]); (0x1f98, [0x1f28; 0x399]); (0x1f99, [0x1f29; 0x399]);
  (0x1f9a, [0x1f2a; 0x399]); (0x1f9b, [0x1f2b; 0x399]); (0x1f9c, [0x1f2c; 0x399]); (0x1f9d, [0x1f2d; 0x399]);
  (0x1f9e, [0x1f2e; 0x399]); (0x1f9f, [0x1f2f; 0x399]); (0x1fa0, [0x1f68; 0x399]); (0x1fa1, [0x1f69; 0x399]);
  (0x1fa2, [0x1f6a; 0x399]); (0x1fa3, [0x1f6b; 0x399]); (0x1fa4, [0x1f6c; 0x399]); (0x1fa5, [0x1f6d; 0x399]);
  (0x1fa6, [0x1f6e; 0x399]); (0x1fa7, [0x1f6f; 0x399]); (0x1fa8, [0x1f68; 0x399]); (0x1fa9, [0x1f69; 0x399]);
  (0x1faa, [0x1f6a; 0x399]); (0x1fab, [0x1f6b; 0x399]); (0x1fac, [0x1f6c; 0x399]); (0x1fad, [0x1f6d; 0x399]);
  (0x1fae, [0x1f6e; 0x399]); (0x1faf, [0x1f6f; 0x399]); (0x1fb0, [0x1fb8]); (0x1fb1, [0x1fb9]);
  (0x1fb2, [0x1fba; 0x399]); (0x1fb3, [0x391; 0x399]); (0x1fb4, [0x386; 0x399]); (0x1fb6, [0x391; 0x342]);
  (0x1fb7, [0x391; 0x342; 0x399]); (0x1fbc, [0x391; 0x399]); (0x1fbe, [0x399]); (0x1fc2, [0x1fca; 0x399]);
  (0x1fc3, [0x397; 0x399]); (0x1fc4, [0x389; 0x399]); (0x1fc6, [0x397; 0x342]); (0x1fc7, [0x397; 0x342; 0x399]);
  (0x1fcc, [0x397; 0x399]); (0x1fd0, [0x1fd8]); (0x1fd1, [0x1fd9]); (0x1fd2, [0x399; 0x308; 0x300]);
  (0x1fd3, [0x399; 0x308; 0x301]); (0x1fd6, [0x399; 0x342]); (0x1fd7, [0x399; 0x308; 0x342]); (0x1fe0, [0x1fe8]);
  (0x1fe1, [0x1fe9]); (0x1fe2, [0x3a5; 0x308; 0x300]); (0x1fe3, [0x3a5; 0x308; 0x301]); (0x1fe4, [0x3a1; 0x313]);
  (0x1fe5, [0x1fec]); (0x1fe6, [0x3a5; 0x342]); (0x1fe7, [0x3a5; 0x308; 0x342]); (0x1ff2, [0x1ffa; 0x399]);
  (0x1ff3, [0x3a9; 0x399]); (0x1ff4, [0x38f; 0x399]); (0x1ff6, [0x3a9; 0x342]); (0x1ff7, [0x3a9; 0x342; 0x399]);
  (0x1ffc, [0x3a9; 0x399]); (0x214e, [0x2132]); (0x2170, [0x2160]); (0x2171, [0x2161]);
  (0x2172, [0x2162]); (0x2173, [0x2163]); (0x2174, [0x2164]); (0x2175, [0x2165]);
  (0x2176, [0x2166]); (0x2177, [0x2167]); (0x2178, [0x2168]); (0x2179, [0x2169]);
  (0x217a, [0x216a]); (0x217b, [0x216b]); (0x217c, [0x216c]); (0x217d, [0x216d]);
  (0x217e, [0x216e]); (0x217f, [0x216f]); (0x2184, [0x2183]); (0x24d0, [0x24b6]);
  (0x24d1, [0x24b7]); (0x24d2, [0x24b8]); (0x24d3, [0x24b9]); (0x24d4, [0x24ba]);
  (0x24d5, [0x24bb]); (0x24d6, [0x24bc]); (0x24d7, [0x24bd]); (0x24d8, [0x24be]);
  (0x24d9, [0x24bf]); (0x24da, [0x24c0]); (0x24db, [0x24c1]); (0x24dc, [0x24c2]);
  (0x24dd, [0x24c3]); (0x24de, [0x24c4]); (0x24df, [0x24c5]); (0x24e0, [0x24c6]);
  (0x24e1, [0x24c7]); (0x24e2, [0x24c8]); (0x24e3, [0x24c9]); (0x24e4, [0x24ca]);
  (0x24e5, [0x24cb]); (0x24e6, [0x24cc]); (0x24e7, [0x24cd]); (0x24e8, [0x24ce]);
  (0x24e9, [0x24cf]); (0x2c30, [0x2c00]); (0x2c31, [0x2c01]); (0x2c32, [0x2c02]);
  (0x2c33, [0x2c03]); (0x2c34, [0x2c04]); (0x2c35, [0x2c05]); (0x2c36, [0x2c06]);
  (0x2c37, [0x2c07]); (0x2c38, [0x2c08]); (0x2c39, [0x2c09]); (0x2c3a, [0x2c0a]);
  (0x2c3b, [0x2c0b]); (0x2c3c, [0x2c0c]); (0x2c3d, [0x2c0d]); (0x2c3e, [0x2c0e]);
  (0x2c3f, [0x2c0f]); (0x2c40, [0x2c10]); (0x2c41, [0x2c11]); (0x2c42, [0x2c12]);
  (0x2c43, [0x2c13]); (0x2c44, [0x2c14]); (0x2c45, [0x2c15]); (0x2c46, [0x2c16]);
  (0x2c47, [0x2c17]); (0x2c48, [0x2c18]); (0x2c49, [0x2c19]); (0x2c4a, [0x2c1a]);
  (0x2c4b, [0x2c1b]); (0x2c4c, [0x2c1c]); (0x2c4d, [0x2c1d]); (0x2c4e, [0x2c1e]);
  (0x2c4f, [0x2c1f]); (0x2c50, [0x2c20]); (0x2c51, [0x2c21]); (0x2c52, [0x2c22]);
  (0x2c53, [0x2c23]); (0x2c54, [0x2c24]); (0x2c55, [0x2c25]); (0x2c56, [0x2c26]);
  (0x2c57, [0x2c27]); (0x2c58, [0x2c28]); (0x2c59, [0x2c29]); (0x2c5a, [0x2c2a]);
  (0x2c5b, [0x2c2b]); (0x2c5c, [0x2c2c]); (0x2c5d, [0x2c2d]); (0x2c5e, [0x2c2e]);
  (0x2c5f, [0x2c2f]); (0x2c61, [0x2c60]); (0x2c65, [0x23a]); (0x2c66, [0x23e]);
  (0x2c68, [0x2c67]); (0x2c6a, [0x2c69]); (0x2c6c, [0x2c6b]); (0x2c73, [0x2c72]);
  (0x2c76, [0x2c75]); (0x2c81, [0x2c80]); (0x2c83, [0x2c82]); (0x2c85, [0x2c84]);
  (0x2c87, [0x2c86]); (0x2c89, [0x2c88]); (0x2c8b, [0x2c8a]); (0x2c8d, [0x2c8c]);
  (0x2c8f, [0x2c8e]); (0x2c91, [0x2c90]); (0x2c93, [0x2c92]); (0x2c95, [0x2c94]);
  (0x2c97, [0x2c96]); (0x2c99, [0x2c98]); (0x2c9b, [0x2c9a]); (0x2c9d, [0x2c9c]);
  (0x2c9f, [0x2c9e]); (0x2ca1, [0x2ca0]); (0x2ca3, [0x2ca2]); (0x2ca5, [0x2ca4]);
  (0x2ca7, [0x2ca6]); (0x2ca9, [0x2ca8]); (0x2cab, [0x2caa]); (0x2cad, [0x2cac]);
  (0x2caf, [0x2cae]); (0x2cb1, [0x2cb0]); (0x2cb3, [0x2cb2]); (0x2cb5, [0x2cb4]);
  (0x2cb7, [0x2cb6]); (0x2cb9, [0x2cb8]); (0x2cbb, [0x2cba]); (0x2cbd, [0x2cbc]);
  (0x2cbf, [0x2cbe]); (0x2cc1, [0x2cc0]); (0x2cc3, [0x2cc2]); (0x2cc5, [0x2cc4]);
  (0x2cc7, [0x2cc6]); (0x2cc9, [0x2cc8]); (0x2ccb, [0x2cca]); (0x2ccd, [0x2ccc]);
  (0x2ccf, [0x2cce]); (0x2cd1, [0x2cd0]); (0x2cd3, [0x2cd2]); (0x2cd5, [0x2cd4]);
  (0x2cd7, [0x2cd6]); (0x2cd9, [0x2cd8]); (0x2cdb, [0x2cda]); (0x2cdd, [0x2cdc]);
  (0x2cdf, [0x2cde]); (0x2ce1, [0x2ce0]); (0x2ce3, [0x2ce2]); (0x2cec, [0x2ceb]);
  (0x2cee, [0x2ced]); (0x2cf3, [0x2cf2]); (0x2d00, [0x10a0]); (0x2d01, [0x10a1]);
  (0x2d02, [0x10a2]); (0x2d03, [0x10a3]); (0x2d04, [0x10a4]); (0x2d05, [0x10a5]);
  (0x2d06, [0x10a6]); (0x2d07, [0x10a7]); (0x2d08, [0x10a8]); (0x2d09, [0x10a9]);
  (0x2d0a, [0x10aa]); (0x2d0b, [0x10ab]); (0x2d0c, [0x10ac]); (0x2d0d, [0x10ad]);
  (0x2d0e, [0x10ae]); (0x2d0f, [0x10af]); (0x2d10, [0x10b0]); (0x2d11, [0x10b1]);
  (0x2d12, [0x10b2]); (0x2d13, [0x10b3]); (0x2d14, [0x10b4]); (0x2d15, [0x10b5]);
  (0x2d16, [0x10b6]); (0x2d17, [0x10b7]); (0x2d18, [0x10b8]); (0x2d19, [0x10b9]);
  (0x2d1a, [0x10ba]); (0x2d1b, [0x10bb]); (0x2d1c, [0x10bc]); (0x2d1d, [0x10bd]);
  (0x2d1e, [0x10be]); (0x2d1f, [0x10bf]); (0x2d20, [0x10c0]); (0x2d21, [0x10c1]);
  (0x2d22, [0x10c2]); (0x2d23, [0x10c3]); (0x2d24, [0x10c4]); (0x2d25, [0x10c5]);
  (0x2d27, [0x10c7]); (0x2d2d, [0x10cd]); (0xa641, [0xa640]); (0xa643, [0xa642]);
  (0xa645, [0xa644]); (0xa647, [0xa646]); (0xa649, [0xa648]); (0xa64b, [0xa64a]);
  (0xa64d, [0xa64c]); (0xa64f, [0xa64e]); (0xa651, [0xa650]); (0xa653, [0xa652]);
  (0xa655, [0xa654]); (0xa657, [0xa656]); (0xa659, [0xa658]); (0xa65b, [0xa65a]);
  (0xa65d, [0xa65c]); (0xa65f, [0xa65e]); (0xa661, [0xa660]); (0xa663, [0xa662]);
  (0xa665, [0xa664]); (0xa667, [0xa666]); (0xa669, [0xa668]); (0xa66b, [0xa66a]);
  (0xa66d, [0xa66c]); (0xa681, [0xa680]); (0xa683, [0xa682]); (0xa685, [0xa684]);
  (0xa687, [0xa686]); (0xa689, [0xa688]); (0xa68b, [0xa68a]); (0xa68d, [0xa68c]);
  (0xa68f, [0xa68e]); (0xa691, [0xa690]); (0xa693, [0xa692]); (0xa695, [0xa694]);
  (0xa697, [0xa696]); (0xa699, [0xa698]); (0xa69b, [0xa69a]); (0xa723, [0xa722]);
  (0xa725, [0xa724]); (0xa727, [0xa726]); (0xa729, [0xa728]); (0xa72b, [0xa72a]);
  (0xa72d, [0xa72c]); (0xa72f, [0xa72e]); (0xa733, [0xa732]); (0xa735, [0xa734]);
  (0xa737, [0xa736]); (0xa739, [0xa738]); (0xa73b, [0xa73a]); (0xa73d, [0xa73c]);
  (0xa73f, [0xa73e]); (0xa741, [0xa740]); (0xa743, [0xa742]); (0xa745, [0xa744]);
  (0xa747, [0xa746]); (0xa749, [0xa748]); (0xa74b, [0xa74a]); (0xa74d, [0xa74c]);
  (0xa74f, [0xa74e]); (0xa751, [0xa750]); (0xa753, [0xa752]); (0xa755, [0xa754]);
  (0xa757, [0xa756]); (0xa759, [0xa758]); (0xa75b, [0xa75a]); (0xa75d, [0xa75c]);
  (0xa75f, [0xa75e]); (0xa761, [0xa760]); (0xa763, [0xa762]); (0xa765, [0xa764]);
  (0xa767, [0xa766]); (0xa769, [0xa768]); (0xa76b, [0xa76a]); (0xa76d, [0xa76c]);
  (0xa76f, [0xa76e]); (0xa77a, [0xa779]); (0xa77c, [0xa77b]); (0xa77f, [0xa77e]);
  (0xa781, [0xa780]); (0xa783, [0xa782]); (0xa785, [0xa784]); (0xa787, [0xa786]);
  (0xa78c, [0xa78b]); (0xa791, [0xa790]); (0xa793, [0xa792]); (0xa794, [0xa7c4]);
  (0xa797, [0xa796]); (0xa799, [0xa798]); (0xa79b, [0xa79a]); (0xa79d, [0xa79c]);
  (0xa79f, [0xa79e]); (0xa7a1, [0xa7a0]); (0xa7a3, [0xa7a2]); (0xa7a5, [0xa7a4]);
  (0xa7a7, [0xa7a6]); (0xa7a9, [0xa7a8]); (0xa7b5, [0xa7b4]); (0xa7b7, [0xa7b6]);
  (0xa7b9, [0xa7b8]); (0xa7bb, [0xa7ba]); (0xa7bd, [0xa7bc]); (0xa7bf, [0xa7be]);
  (0xa7c1, [0xa7c0]); (0xa7c3, [0xa7c2]); (0xa7c8, [0xa7c7]); (0xa7ca, [0xa7c9]);
  (0xa7d1, [0xa7d0]); (0xa7d7, [0xa7d6]); (0xa7d9, [0xa7d8]); (0xa7f6, [0xa7f5]);
  (0xab53, [0xa7b3]); (0xab70, [0x13a0]); (0xab71, [0x13a1]); (0xab72, [0x13a2]);
  (0xab73, [0x13a3]); (0xab74, [0x13a4]); (0xab75, [0x13a5]); (0xab76, [0x13a6]);
  (0xab77, [0x13a7]); (0xab78, [0x13a8]); (0xab79, [0x13a9]); (0xab7a, [0x13aa]);
  (0xab7b, [0x13ab]); (0xab7c, [0x13ac]); (0xab7d, [0x13ad]); (0xab7e, [0x13ae]);
  (0xab7f, [0x13af]); (0xab80, [0x13b0]); (0xab81, [0x13b1]); (0xab82, [0x13b2]);
  (0xab83, [0x13b3]); (0xab84, [0x13b4]); (0xab85, [0x13b5]); (0xab86, [0x13b6]);
  (0xab87, [0x13b7]); (0xab88, [0x13b8]); (0xab89, [0x13b9]); (0xab8a, [0x13ba]);
  (0xab8b, [0x13bb]); (0xab8c, [0x13bc]); (0xab8d, [0x13bd]); (0xab8e, [0x13be]);
  (0xab8f, [0x13bf]); (0xab90, [0x13c0]); (0xab91, [0x13c1]); (0xab92, [0x13c2]);
  (0xab93, [0x13c3]); (0xab94, [0x13c4]); (0xab95, [0x13c5]); (0xab96, [0x13c6]);
  (0xab97, [0x13c7]); (0xab98, [0x13c8]); (0xab99, [0x13c9]); (0xab9a, [0x13ca]);
  (0xab9b, [0x13cb]); (0xab9c, [0x13cc]); (0xab9d, [0x13cd]); (0xab9e, [0x13ce]);
  (0xab9f, [0x13cf]); (0xaba0, [0x13d0]); (0xaba1, [0x13d1]); (0xaba2, [0x13d2]);
  (0xaba3, [0x13d3]); (0xaba4, [0x13d4]); (0xaba5, [0x13d5]); (0xaba6, [0x13d6]);
  (0xaba7, [0x13d7]); (0xaba8, [0x13d8]); (0xaba9, [0x13d9]); (0xabaa, [0x13da]);
  (0xabab, [0x13db]); (0xabac, [0x13dc]); (0xabad, [0x13dd]); (0xabae, [0x13de]);
  (0xabaf, [0x13df]); (0xabb0, [0x13e0]); (0xabb1, [0x13e1]); (0xabb2, [0x13e2]);
  (0xabb3, [0x13e3]); (0xabb4, [0x13e4]); (0xabb5, [0x13e5]); (0xabb6, [0x13e6]);
  (0xabb7, [0x13e7]); (0xabb8, [0x13e8]); (0xabb9, [0x13e9]); (0xabba, [0x13ea]);
  (0xabbb, [0x13eb]); (0xabbc, [0x13ec]); (0xabbd, [0x13ed]); (0xabbe, [0x13ee]);
  (0xabbf, [0x13ef]); (0xfb00, [0x46; 0x46]); (0xfb01, [0x46; 0x49]); (0xfb02, [0x46; 0x4c]);
  (0xfb03, [0x46; 0x46; 0x49]); (0xfb04, [0x46; 0x46; 0x4c]); (0xfb05, [0x53; 0x54]); (0xfb06, [0x53; 0x54]);
  (0xfb13, [0x544; 0x546]); (0xfb14, [0x544; 0x535]); (0xfb15, [0x544; 0x53b]); (0xfb16, [0x54e; 0x546]);
  (0xfb17, [0x544; 0x53d]); (0xff41, [0xff21]); (0xff42, [0xff22]); (0xff43, [0xff23]);
  (0xff44, [0xff24]); (0xff45, [0xff25]); (0xff46, [0xff26]); (0xff47, [0xff27]);
  (0xff48, [0xff28]); (0xff49, [0xff29]); (0xff4a, [0xff2a]); (0xff4b, [0xff2b]);
  (0xff4c, [0xff2c]); (0xff4d, [0xff2d]); (0xff4e, [0xff2e]); (0xff4f, [0xff2f]);
  (0xff50, [0xff30]); (0xff51, [0xff31]); (0xff52, [0xff32]); (0xff53, [0xff33]);
  (0xff54, [0xff34]); (0xff55, [0xff35]); (0xff56, [0xff36]); (0xff57, [0xff37]);
  (0xff58, [0xff38]); (0xff59, [0xff39]); (0xff5a, [0xff3a]); (0x10428, [0x10400]);
  (0x10429, [0x10401]); (0x1042a, [0x10402]); (0x1042b, [0x10403]); (0x1042c, [0x10404]);
  (0x1042d, [0x10405]); (0x1042e, [0x10406]); (0x1042f, [0x10407]); (0x10430, [0x10408]);
  (0x10431, [0x10409]); (0x10432, [0x1040a]); (0x10433, [0x1040b]); (0x10434, [0x1040c]);
  (0x10435, [0x1040d]); (0x10436, [0x1040e]); (0x10437, [0x1040f]); (0x10438, [0x10410]);
  (0x10439, [0x10411]); (0x1043a, [0x10412]); (0x1043b, [0x10413]); (0x1043c, [0x10414]);
  (0x1043d, [0x10415]); (0x1043e, [0x10416]); (0x1043f, [0x10417]); (0x10440, [0x10418]);
  (0x10441, [0x10419]); (0x10442, [0x1041a]); (0x10443, [0x1041b]); (0x10444, [0x1041c]);
  (0x10445, [0x1041d]); (0x10446, [0x1041e]); (0x10447, [0x1041f]); (0x10448, [0x10420]);
  (0x10449, [0x10421]); (0x1044a, [0x10422]); (0x1044b, [0x10423]); (0x1044c, [0x10424]);
  (0x1044d, [0x10425]); (0x1044e, [0x10426]); (0x1044f, [0x10427]); (0x104d8, [0x104b0]);
  (0x104d9, [0x104b1]); (0x104da, [0x104b2]); (0x104db, [0x104b3]); (0x104dc, [0x104b4]);
  (0x104dd, [0x104b5]); (0x104de, [0x104b6]); (0x104df, [0x104b7]); (0x104e0, [0x104b8]);
  (0x104e1, [0x104b9]); (0x104e2, [0x104ba]); (0x104e3, [0x104bb]); (0x104e4, [0x104bc]);
  (0x104e5, [0x104bd]); (0x104e6, [0x104be]); (0x104e7, [0x104bf]); (0x104e8, [0x104c0]);
  (0x104e9, [0x104c1]); (0x104ea, [0x104c2]); (0x104eb, [0x104c3]); (0x104ec, [0x104c4]);
  (0x104ed, [0x104c5]); (0x104ee, [0x104c6]); (0x104ef, [0x104c7]); (0x104f0, [0x104c8]);
  (0x104f1, [0x104c9]); (0x104f2, [0x104ca]); (0x104f3, [0x104cb]); (0x104f4, [0x104cc]);
  (0x104f5, [0x104cd]); (0x104f6, [0x104ce]); (0x104f7, [0x104cf]); (0x104f8, [0x104d0]);
  (0x104f9, [0x104d1]); (0x104fa, [0x104d2]); (0x104fb, [0x104d3]); (0x10597, [0x10570]);
  (0x10598, [0x10571]); (0x10599, [0x10572]); (0x1059a, [0x10573]); (0x1059b, [0x10574]);
  (0x1059c, [0x10575]); (0x1059d, [0x10576]); (0x1059e, [0x10577]); (0x1059f, [0x10578]);
  (0x105a0, [0x10579]); (0x105a1, [0x1057a]); (0x105a3, [0x1057c]); (0x105a4, [0x1057d]);
  (0x105a5, [0x1057e]); (0x105a6, [0x1057f]); (0x105a7, [0x10580]); (0x105a8, [0x10581]);
  (0x105a9, [0x10582]); (0x105aa, [0x10583]); (0x105ab, [0x10584]); (0x105ac, [0x10585]);
  (0x105ad, [0x10586]); (0x105ae, [0x10587]); (0x105af, [0x10588]); (0x105b0, [0x10589]);
  (0x105b1, [0x1058a]); (0x105b3, [0x1058c]); (0x105b4, [0x1058d]); (0x105b5, [0x1058e]);
  (0x105b6, [0x1058f]); (0x105b7, [0x10590]); (0x105b8, [0x10591]); (0x105b9, [0x10592]);
  (0x105bb, [0x10594]); (0x105bc, [0x10595]); (0x10cc0, [0x10c80]); (0x10cc1, [0x10c81]);
  (0x10cc2, [0x10c82]); (0x10cc3, [0x10c83]); (0x10cc4, [0x10c84]); (0x10cc5, [0x10c85]);
  (0x10cc6, [0x10c86]); (0x10cc7, [0x10c87]); (0x10cc8, [0x10c88]); (0x10cc9, [0x10c89]);
  (0x10cca, [0x10c8a]); (0x10ccb, [0x10c8b]); (0x10ccc, [0x10c8c]); (0x10ccd, [0x10c8d]);
  (0x10cce, [0x10c8e]); (0x10ccf, [0x10c8f]); (0x10cd0, [0x10c90]); (0x10cd1, [0x10c91]);
  (0x10cd2, [0x10c92]); (0x10cd3, [0x10c93]); (0x10cd4, [0x10c94]); (0x10cd5, [0x10c95]);
  (0x10cd6, [0x10c96]); (0x10cd7, [0x10c97]); (0x10cd8, [0x10c98]); (0x10cd9, [0x10c99]);
  (0x10cda, [0x10c9a]); (0x10cdb, [0x10c9b]); (0x10cdc, [0x10c9c]); (0x10cdd, [0x10c9d]);
  (0x10cde, [0x10c9e]); (0x10cdf, [0x10c9f]); (0x10ce0, [0x10ca0]); (0x10ce1, [0x10ca1]);
  (0x10ce2, [0x10ca2]); (0x10ce3, [0x10ca3]); (0x10ce4, [0x10ca4]); (0x10ce5, [0x10ca5]);
  (0x10ce6, [0x10ca6]); (0x10ce7, [0x10ca7]); (0x10ce8, [0x10ca8]); (0x10ce9, [0x10ca9]);
  (0x10cea, [0x10caa]); (0x10ceb, [0x10cab]); (0x10cec, [0x10cac]); (0x10ced, [0x10cad]);
  (0x10cee, [0x10cae]); (0x10cef, [0x10caf]); (0x10cf0, [0x10cb0]); (0x10cf1, [0x10cb1]);
  (0x10cf2, [0x10cb2]); (0x118c0, [0x118a0]); (0x118c1, [0x118a1]); (0x118c2, [0x118a2]);
  (0x118c3, [0x118a3]); (0x118c4, [0x118a4]); (0x118c5, [0x118a5]); (0x118c6, [0x118a6]);
  (0x118c7, [0x118a7]); (0x118c8, [0x118a8]); (0x118c9, [0x118a9]); (0x118ca, [0x118aa]);
  (0x118cb, [0x118ab]); (0x118cc, [0x118ac]); (0x118cd, [0x118ad]); (0x118ce, [0x118ae]);
  (0x118cf, [0x118af]); (0x118d0, [0x118b0]); (0x118d1, [0x118b1]); (0x118d2, [0x118b2]);
  (0x118d3, [0x118b3]); (0x118d4, [0x118b4]); (0x118d5, [0x118b5]); (0x118d6, [0x118b6]);
  (0x118d7, [0x118b7]); (0x118d8, [0x118b8]); (0x118d9, [0x118b9]); (0x118da, [0x118ba]);
  (0x118db, [0x118bb]); (0x118dc, [0x118bc]); (0x118dd, [0x118bd]); (0x118de, [0x118be]);
  (0x118df, [0x118bf]); (0x16e60, [0x16e40]); (0x16e61, [0x16e41]); (0x16e62, [0x16e42]);
  (0x16e63, [0x16e43]); (0x16e64, [0x16e44]); (0x16e65, [0x16e45]); (0x16e66, [0x16e46]);
  (0x16e67, [0x16e47]); (0x16e68, [0x16e48]); (0x16e69, [0x16e49]); (0x16e6a, [0x16e4a]);
  (0x16e6b, [0x16e4b]); (0x16e6c, [0x16e4c]); (0x16e6d, [0x16e4d]); (0x16e6e, [0x16e4e]);
  (0x16e6f, [0x16e4f]); (0x16e70, [0x16e50]); (0x16e71, [0x16e51]); (0x16e72, [0x16e52]);
  (0x16e73, [0x16e53]); (0x16e74, [0x16e54]); (0x16e75, [0x16e55]); (0x16e76, [0x16e56]);
  (0x16e77, [0x16e57]); (0x16e78, [0x16e58]); (0x16e79, [0x16e59]); (0x16e7a, [0x16e5a]);
  (0x16e7b, [0x16e5b]); (0x16e7c, [0x16e5c]); (0x16e7d, [0x16e5d]); (0x16e7e, [0x16e5e]);
  (0x16e7f, [0x16e5f]); (0x1e922, [0x1e900]); (0x1e923, [0x1e901]); (0x1e924, [0x1e902]);
  (0x1e925, [0x1e903]); (0x1e926, [0x1e904]); (0x1e927, [0x1e905]); (0x1e928, [0x1e906]);
  (0x1e929, [0x1e907]); (0x1e92a, [0x1e908]); (0x1e92b, [0x1e909]); (0x1e92c, [0x1e90a]);
  (0x1e92d, [0x1e90b]); (0x1e92e, [0x1e90c]); (0x1e92f, [0x1e90d]); (0x1e930, [0x1e90e]);
  (0x1e931, [0x1e90f]); (0x1e932, [0x1e910]); (0x1e933, [0x1e911]); (0x1e934, [0x1e912]);
  (0x1e935, [0x1e913]); (0x1e936, [0x1e914]); (0x1e937, [0x1e915]); (0x1e938, [0x1e916]);
  (0x1e939, [0x1e917]); (0x1e93a, [0x1e918]); (0x1e93b, [0x1e919]); (0x1e93c, [0x1e91a]);
  (0x1e93d, [0x1e91b]); (0x1e93e, [0x1e91c]); (0x1e93f, [0x1e91d]); (0x1e940, [0x1e91e]);
  (0x1e941, [0x1e91f]); (0x1e942, [0x1e920]); (0x1e943, [0x1e921])
]%N.

(** The table in UTF-8: the bytes of a character, the bytes of its
    mapping. *)
Definition special_table : list (string * string) :=
  Eval vm_compute in
    map (λ e, (utf8 e.1, fold_right (λ c s, utf8 c +:+ s) "" e.2)) special_casing.

(** [s] begins with [k]. *)
Fixpoint starts_with (k s : string) : bool :=
  match k with
  | EmptyString => true
  | String a k' =>
    match s with
    | EmptyString => false
    | String b s' => Ascii.eqb a b && starts_with k' s'
    end
  end.

(** The entry of the table for the character [s] begins with, if any.
    Every character of the table is outside ASCII, so its first byte is a
    lead byte of UTF-8 ([0xc0] or more); the table is looked up only then. *)
Definition special (s : string) : option (string * string) :=
  match s with
  | String c _ =>
    if 192 <=? nat_of_ascii c then find (λ e, starts_with e.1 s) special_table
    else None
  | EmptyString => None
  end.

(** [s.upper()]: every character is replaced by its mapping, whatever its
    neighbours are.  [skip] counts the bytes of the current character that
    are still to be passed over. *)
Fixpoint upper_from (skip : nat) (s : string) : string :=
  match s with
  | EmptyString => EmptyString
  | String c r =>
    match skip with
    | S k => upper_from k r
    | O =>
      match special s with
      | Some (key, mapping) => mapping +:+ upper_from (String.length key - 1) r
      | None => String (upper_char c) (upper_from 0 r)
      end
    end
  end.

Definition upper (s : string) : string := upper_from 0 s.

Arguments special : simpl never.
Arguments upper_from : simpl never.
Arguments upper : simpl never.

(** [needle in hay]. *)
Fixpoint contains (needle hay : string) : bool :=
  String.prefix needle hay ||
  match hay with
  | EmptyString => false
  | String _ r => contains needle r
  end.

(** [sep.join(parts)]. *)
Fixpoint join (sep : string) (parts : list string) : string :=
  match parts with
  | [] => ""
  | [p] => p
  | p :: rest => p +:+ sep +:+ join sep rest
  end.

(** Truth value of an [Optional[str]]: [None] and the empty string are
    false. *)
Definition truthy (o : option string) : bool :=
  match o with
  | Some (String _ _) => true
  | _ => false
  end.

(** ** Data model *)

(** A history entry [{"role": ..., "content": ...}]. *)
Record Message := mkMessage { msg_role : string; msg_content : string }.

(** An entry of the history handed to [start_chat]:
    [{"role": ..., "parts": [{"text": ...}]}]. *)
Record GeminiContent := mkGeminiContent { g_role : string; g_parts : list string }.

(** A step of [plan["Detailed_Outline"]]. *)
Record Step := mkStep { name : string; content : string }.

(** Address of a history list. *)
Abbreviation loc := nat (only parsing).

Record RevisionContext := mkRevisionContext {
  step_name : string;
  original_content : string;
  revision_request : string;
  claude_messages : loc;
  gemini_history : loc;
  current_iteration : Z
}.

(** What a provider call does: it answers, or it raises. *)
Inductive Reply :=
| Answer (text : string)
| Raises (exc : string).

(** [client.messages.create(...)] followed by [response.content[0].text]:
    the [n]-th call, on the given messages. *)
Definition AnthropicClient := nat → list Message → Reply.

(** [model.start_chat(history=...)], [chat.send_message(prompt)] and
    [response.text]: the [n]-th call, on the given history and prompt. *)
Definition GenerativeModel := nat → list GeminiContent → string → Reply.

(** The observable trace: records of [logger] and requests to the
    providers.  A request carries the [step_name] of the context it was made
    with. *)
Inductive Event :=
| LogIteration (iteration : Z) (step : string)
| LogAccepted (step : string)
| LogMaxIterations (step : string)
| LogClaudeError (exc : string)
| LogGeminiError (exc : string)
| LogReviseError (exc : string)
| LogDriverError (exc : string)
| ClaudeRequest (step : string) (messages : list Message)
| GeminiRequest (step : string) (history : list GeminiContent) (prompt : string).

(** The step an event was produced for, if it names one. *)
Definition event_step (e : Event) : option string :=
  match e with
  | LogIteration _ s | LogAccepted s | LogMaxIterations s
  | ClaudeRequest s _ | GeminiRequest s _ _ => Some s
  | LogClaudeError _ | LogGeminiError _ | LogReviseError _
  | LogDriverError _ => None
  end.

Record World := mkWorld {
  outline : list Step;
  heap : list (list Message);
  claude_calls : nat;
  gemini_calls : nat;
  log : list Event
}.

Definition set_outline (o : list Step) (w : World) : World :=
  mkWorld o (heap w) (claude_calls w) (gemini_calls w) (log w).

Definition set_heap (h : list (list Message)) (w : World) : World :=
  mkWorld (outline w) h (claude_calls w) (gemini_calls w) (log w).

Definition add_log (e : Event) (w : World) : World :=
  mkWorld (outline w) (heap w) (claude_calls w) (gemini_calls w) (log w ++ [e]).

Definition tick_claude (w : World) : World :=
  mkWorld (outline w) (heap w) (S (claude_calls w)) (gemini_calls w) (log w).

Definition tick_gemini (w : World) : World :=
  mkWorld (outline w) (heap w) (claude_calls w) (S (gemini_calls w)) (log w).

(** ** The monad *)

(** A computation ends with a value, with a Python exception, or because the
    fuel of a loop ran out. *)
Inductive Res (A : Type) :=
| Val (a : A)
| Exc (e : string)
| OutOfFuel.
Arguments Val {A} a.
Arguments Exc {A} e.
Arguments OutOfFuel {A}.

Definition M (A : Type) : Type := World → Res A * World.

Definition ret {A} (a : A) : M A := λ w, (Val a, w).

Definition bind {A B} (m : M A) (k : A → M B) : M B :=
  λ w, match m w with
       | (Val a, w') => k a w'
       | (Exc e, w') => (Exc e, w')
       | (OutOfFuel, w') => (OutOfFuel, w')
       end.

Definition raise {A} (e : string) : M A := λ w, (Exc e, w).

Definition out_of_fuel {A} : M A := λ w, (OutOfFuel, w).

(** [try: body  except Exception as e: handler(e)]. *)
Definition try_except {A} (body : M A) (handler : string → M A) : M A :=
  λ w, match body w with
       | (Exc e, w') => handler e w'
       | r => r
       end.

Notation "'do!' x <- m ; k" := (bind m (λ x, k))
  (at level 10, x name, m at level 100, k at level 200, only parsing).
Notation "m ;;; k" := (bind m (λ _, k))
  (at level 100, k at level 200, right associativity, only parsing).

Definition emit (e : Event) : M unit := λ w, (Val tt, add_log e w).

(** Reading the list at an address. *)
Definition heap_read (l : loc) : M (list Message) :=
  λ w, match heap w !! l with
       | Some h => (Val h, w)
       | None => (Exc "ReferenceError", w)
       end.

(** [lst.append(m)] on the list at an address. *)
Definition heap_append (l : loc) (m : Message) : M unit :=
  λ w, match heap w !! l with
       | Some h => (Val tt, set_heap (<[l := h ++ [m]]> (heap w)) w)
       | None => (Exc "ReferenceError", w)
       end.

(** [[]]: a new empty list. *)
Definition heap_alloc : M loc :=
  λ w, (Val (length (heap w)), set_heap (heap w ++ [[]]) w).

(** The step dict behind a reference into the outline. *)
Definition get_step (i : nat) : M Step :=
  λ w, match outline w !! i with
       | Some s => (Val s, w)
       | None => (Exc "ReferenceError", w)
       end.

(** [step["content"] = text]. *)
Definition set_content (i : nat) (text : string) : M unit :=
  λ w, match outline w !! i with
       | Some s => (Val tt, set_outline (<[i := mkStep (name s) text]> (outline w)) w)
       | None => (Exc "ReferenceError", w)
       end.

(** ** Prompts *)

(** One entry of [_format_revision_history]: the block for the message at
    index [i], if its role is one of the two the function prints. *)
Definition format_entry (i : nat) (msg : Message) : list string :=
  if String.eqb (msg_role msg) "model" then
    ["Revision " +:+ pretty (i / 2 + 1) +:+ ":" +:+ nl +:+ "```" +:+ nl
       +:+ msg_content msg +:+ nl +:+ "```"]
  else if String.eqb (msg_role msg) "assistant" then
    ["Instruction " +:+ pretty (i / 2 + 1) +:+ ":" +:+ nl +:+ "```" +:+ nl
       +:+ msg_content msg +:+ nl +:+ "```"]
  else [].

Definition _format_revision_history (history : list Message) : string :=
  match history with
  | [] => "No previous revisions"
  | _ => join (nl +:+ nl) (concat (imap format_entry history))
  end.

(** The indentation the triple-quoted f-strings carry on every line. *)
Definition indent : string := "        ".

(** A triple-quoted f-string of the source, from its lines. *)
Definition fstring (lines : list string) : string :=
  nl +:+ join nl (map (String.append indent) lines) +:+ nl +:+ indent.

Definition claude_prompt_of (context : RevisionContext) (history : list Message) : string :=
  fstring
    [ "Review the following step '" +:+ step_name context
        +:+ "' considering previous revisions:";
      "Original content:";
      "```";
      original_content context;
      "```";
      "";
      "Revision request:";
      "```";
      revision_request context;
      "```";
      "";
      "Previous revisions (if any):";
      _format_revision_history history;
      "";
      "Provide detailed instructions to Gemini for the next revision." ].

Definition review_prompt_of (context : RevisionContext) (revised_content : string)
    (history : list Message) : string :=
  fstring
    [ "Review Gemini's latest revision:";
      "```";
      revised_content;
      "```";
      "";
      "Original revision request:";
      "```";
      revision_request context;
      "```";
      "";
      "Previous revision history:";
      _format_revision_history history;
      "";
      "Does this revision meet all requirements? Respond with:";
      "* YES - if complete and ready for hand-off";
      "* NO - if changes needed, with specific feedback" ].

(** ** The protocol's results *)

(** The [return] statement a protocol run left through: one of the three
    [return None, context], the [return plan, context] after an accepting
    verdict, or the one after the loop. *)
Inductive Exit := Aborted | Accepted | Exhausted.

(** The reference to the plan object. *)
Inductive PlanRef := plan_ref.

(** The values the three locals [gemini_prompt], [revised_content] and
    [verdict] had at the end of a round ([None] also when the round never
    assigned the variable). *)
Record Round := mkRound {
  instructions : option string;
  revision : option string;
  review : option string
}.

(** What [revise_step_with_llms] returns, [(returned_plan, context)], with
    the exit it took and the transcript of its rounds. *)
Record Outcome := mkOutcome {
  exit : Exit;
  context : RevisionContext;
  transcript : list Round
}.

(** The first component of the returned pair. *)
Definition returned_plan (o : Outcome) : option PlanRef :=
  match exit o with
  | Aborted => None
  | Accepted | Exhausted => Some plan_ref
  end.

Definition add_round (r : Round) (o : Outcome) : Outcome :=
  mkOutcome (exit o) (context o) (r :: transcript o).

Definition next_iteration (c : RevisionContext) : RevisionContext :=
  mkRevisionContext (step_name c) (original_content c) (revision_request c)
    (claude_messages c) (gemini_history c) (current_iteration c + 1).

(** The test of line 283: ["YES" in verdict.upper()]. *)
Definition accepting (verdict : string) : bool := contains "YES" (upper verdict).

Section Program.

Variable MAX_ITERATIONS : Z.
Variable anthropic_client : AnthropicClient.
Variable gemini_model : GenerativeModel.

(** ** Model gateway *)

(** [client.messages.create(messages=...)] and the read of the reply's
    text. *)
Definition messages_create (step : string) (messages : list Message) : M string :=
  λ w, let w' := add_log (ClaudeRequest step messages) (tick_claude w) in
       match anthropic_client (claude_calls w) messages with
       | Answer text => (Val text, w')
       | Raises e => (Exc e, w')
       end.

(** [model.start_chat(history=...)], [chat.send_message(new_prompt)] and the
    read of [response.text]. *)
Definition send_message (step : string) (history : list GeminiContent)
    (new_prompt : string) : M string :=
  λ w, let w' := add_log (GeminiRequest step history new_prompt) (tick_gemini w) in
       match gemini_model (gemini_calls w) history new_prompt with
       | Answer text => (Val text, w')
       | Raises e => (Exc e, w')
       end.

Definition get_claude_response (context : RevisionContext) (new_prompt : string)
    : M (option string) :=
  try_except
    (heap_append (claude_messages context) (mkMessage "user" new_prompt) ;;;
     do! messages <- heap_read (claude_messages context);
     do! response_text <- messages_create (step_name context) messages;
     heap_append (claude_messages context) (mkMessage "assistant" response_text) ;;;
     ret (Some response_text))
    (λ e, emit (LogClaudeError e) ;;; ret None).

(** The conversion of the history to the shape [start_chat] expects. *)
Definition format_history (history : list Message) : list GeminiContent :=
  map (λ msg, mkGeminiContent
                (if String.eqb (msg_role msg) "user" then "user" else "model")
                [msg_content msg])
      history.

Definition get_gemini_response (context : RevisionContext) (new_prompt : string)
    : M (option string) :=
  try_except
    (do! history <- heap_read (gemini_history context);
     let formatted_history := format_history history in
     do! response_text <- send_message (step_name context) formatted_history new_prompt;
     heap_append (gemini_history context) (mkMessage "user" new_prompt) ;;;
     heap_append (gemini_history context) (mkMessage "model" response_text) ;;;
     ret (Some response_text))
    (λ e, emit (LogGeminiError e) ;;; ret None).

(** ** Revision protocol *)

(** The [while] loop of [revise_step_with_llms] on the step at index [i] of
    the outline.  [fuel] bounds the number of times the loop test is
    evaluated. *)
Fixpoint while_loop (fuel : nat) (i : nat) (context : RevisionContext) : M Outcome :=
  match fuel with
  | O => out_of_fuel
  | S fuel' =>
    if (current_iteration context <=? MAX_ITERATIONS)%Z then
      do! step <- get_step i;
      emit (LogIteration (current_iteration context) (name step)) ;;;
      (* 1. Claude generates instructions for Gemini *)
      do! history <- heap_read (gemini_history context);
      let claude_prompt := claude_prompt_of context history in
      do! gemini_prompt <- get_claude_response context claude_prompt;
      match gemini_prompt with
      | Some (String c0 s0) =>
        let gemini_prompt' := String c0 s0 in
        (* 2. Gemini performs the revision *)
        do! revised_content <- get_gemini_response context gemini_prompt';
        match revised_content with
        | Some (String c1 s1) =>
          let revised_content' := String c1 s1 in
          (* 3. Claude reviews the revision *)
          do! history <- heap_read (gemini_history context);
          let review_prompt := review_prompt_of context revised_content' history in
          do! verdict <- get_claude_response context review_prompt;
          match verdict with
          | Some (String c2 s2) =>
            let verdict' := String c2 s2 in
            let round := mkRound gemini_prompt revised_content verdict in
            if accepting verdict' then
              set_content i revised_content' ;;;
              do! step <- get_step i;
              emit (LogAccepted (name step)) ;;;
              ret (mkOutcome Accepted context [round])
            else
              do! o <- while_loop fuel' i (next_iteration context);
              ret (add_round round o)
          | _ => ret (mkOutcome Aborted context
                        [mkRound gemini_prompt revised_content verdict])
          end
        | _ => ret (mkOutcome Aborted context
                      [mkRound gemini_prompt revised_content None])
        end
      | _ => ret (mkOutcome Aborted context [mkRound gemini_prompt None None])
      end
    else
      do! step <- get_step i;
      emit (LogMaxIterations (name step)) ;;;
      ret (mkOutcome Exhausted context [])
  end.

Definition revise_step_with_llms (i : nat) (revision_request : string) : M Outcome :=
  do! step <- get_step i;
  do! claude_messages <- heap_alloc;
  do! gemini_history <- heap_alloc;
  let context :=
    mkRevisionContext (name step) (content step) revision_request
      claude_messages gemini_history 1 in
  while_loop (S (Z.to_nat MAX_ITERATIONS)) i context.

(** ** Plan driver *)

Section Driver.

Variable revision_requests : gmap string string.

(** The [for step in plan["Detailed_Outline"]] loop, over the indices still
    to visit, and the [return plan, revision_contexts] after it. *)
Fixpoint for_each_step (steps : list nat) (revision_contexts : gmap string RevisionContext)
    : M (option PlanRef * gmap string RevisionContext) :=
  match steps with
  | [] => ret (Some plan_ref, revision_contexts)
  | i :: rest =>
    do! step <- get_step i;
    let step_name := name step in
    match revision_requests !! step_name with
    | Some revision_request =>
      (* [None] stands for the [return] of the [except] clause *)
      do! result <- try_except
                      (do! o <- revise_step_with_llms i revision_request;
                       ret (Some o))
                      (λ e, emit (LogReviseError e) ;;; ret None);
      match result with
      | None => ret (None, revision_contexts)
      | Some o =>
        match returned_plan o with
        | None => ret (None, revision_contexts)
        | Some _ =>
          for_each_step rest (<[step_name := context o]> revision_contexts)
        end
      end
    | None => for_each_step rest revision_contexts
    end
  end.

Definition further_revise_plan : M (option PlanRef * gmap string RevisionContext) :=
  try_except
    (λ w, for_each_step (seq 0 (length (outline w))) ∅ w)
    (λ e, emit (LogDriverError e) ;;; ret (None, ∅)).

End Driver.

End Program.

(** ** Vocabulary of the properties *)

(** The reply of a round's review accepts the revision. *)
Definition round_accepts (r : Round) : bool :=
  match review r with
  | Some v => accepting v
  | None => false
  end.

(** All three calls of a round came back with a non-empty text. *)
Definition round_complete (r : Round) : bool :=
  truthy (instructions r) && truthy (revision r) && truthy (review r).

(** A round that ran to its decision and was not accepted. *)
Definition rejected (r : Round) : Prop :=
  round_complete r = true ∧ round_accepts r = false.

(** An event is about step [n] or about no step. *)
Definition tagged (n : string) (e : Event) : Prop :=
  event_step e = Some n ∨ event_step e = None.

(** Histories only grow at their end: every list of the old heap is still
    there, as a prefix of what it has become. *)
Definition heap_grows (w w' : World) : Prop :=
  length (heap w) ≤ length (heap w') ∧
  ∀ l h, heap w !! l = Some h → ∃ h', heap w' !! l = Some h' ∧ h `prefix_of` h'.

(** How a world may change while step [i], named [n], is revised. *)
Record evolves (i : nat) (n : string) (w w' : World) : Prop := mkEvolves {
  ev_outline : ∀ j, j ≠ i → outline w' !! j = outline w !! j;
  ev_names : name <$> outline w' = name <$> outline w;
  ev_heap : heap_grows w w';
  ev_log : ∃ evs, log w' = log w ++ evs ∧ Forall (tagged n) evs
}.

(** What a protocol run on step [i] (which was [s] in [w]) leaves behind,
    by the exit it took:
    - accepted: the rounds before the last were rejected, the last one is
      complete and accepted, and its revision is now the step's content;
    - exhausted: every round was rejected and the outline is as it was;
    - aborted: the rounds before the last were rejected, a call of the last
      round came back empty, and the outline is as it was. *)
Definition run_shape (i : nat) (s : Step) (w w' : World) (o : Outcome) : Prop :=
  match exit o with
  | Accepted =>
    ∃ pre last rev,
      transcript o = pre ++ [last] ∧ Forall rejected pre ∧
      round_complete last = true ∧ round_accepts last = true ∧
      revision last = Some rev ∧
      outline w' = <[i := mkStep (name s) rev]> (outline w)
  | Exhausted => Forall rejected (transcript o) ∧ outline w' = outline w
  | Aborted =>
    ∃ pre last,
      transcript o = pre ++ [last] ∧ Forall rejected pre ∧
      round_complete last = false ∧ round_accepts last = false ∧
      outline w' = outline w
  end.

(** The first part of a round: the log record, the instruction prompt and
    the call that sends it. *)
Definition instruct_phase (client : AnthropicClient) (i : nat) (context : RevisionContext)
    : M (option string) :=
  do! step <- get_step i;
  emit (LogIteration (current_iteration context) (name step)) ;;;
  do! history <- heap_read (gemini_history context);
  get_claude_response client context (claude_prompt_of context history).

(** The last part of a round up to the decision: the review prompt and the
    call that sends it. *)
Definition review_phase (client : AnthropicClient) (context : RevisionContext)
    (revised_content : string) : M (option string) :=
  do! history <- heap_read (gemini_history context);
  get_claude_response client context (review_prompt_of context revised_content history).

(** An event is about a step that has a revision request, or about no
    step. *)
Definition requested (rr : gmap string string) (e : Event) : Prop :=
  ∀ n, event_step e = Some n → is_Some (rr !! n).

(** How a world may change while the driver runs over a plan with the
    revision requests [rr]. *)
Record driven (rr : gmap string string) (w w' : World) : Prop := mkDriven {
  dr_names : name <$> outline w' = name <$> outline w;
  dr_frame : ∀ j s, outline w !! j = Some s → rr !! name s = None →
                    outline w' !! j = Some s;
  dr_heap : heap_grows w w';
  dr_log : ∃ evs, log w' = log w ++ evs ∧ Forall (requested rr) evs
}.

(** The contexts the driver has collected so far: only for requested
    steps, each with its two histories side by side in the heap, and no
    history belonging to the contexts of two different steps. *)
Definition contexts_ok (rr : gmap string string)
    (ctxs : gmap string RevisionContext) (first : nat) (w : World) : Prop :=
  (∀ n, rr !! n = None → ctxs !! n = None) ∧
  (∀ n c, ctxs !! n = Some c →
          first ≤ claude_messages c ∧
          gemini_history c = S (claude_messages c) ∧
          gemini_history c < length (heap w)) ∧
  (∀ n1 n2 c1 c2, n1 ≠ n2 → ctxs !! n1 = Some c1 → ctxs !! n2 = Some c2 →
          claude_messages c1 ≠ claude_messages c2 ∧
          claude_messages c1 ≠ gemini_history c2 ∧
          gemini_history c1 ≠ claude_messages c2 ∧
          gemini_history c1 ≠ gemini_history c2).

(** ** Scenarios *)

(** The example of the specification: a plan with the steps [Intro] and
    [Body], a revision request for [Body] only, and stub providers. *)
Module Scenario.

Definition body : Step := mkStep "Body" "Body, first draft".

Definition plan : World :=
  mkWorld [mkStep "Intro" "Introduction, first draft"; body] [] 0 0 [].

Definition requests : gmap string string := {["Body" := "add more detail"]}.

(** Claude in both of its roles: the instructor on the first call of a round
    (an even call number), the reviewer with a fixed reply on the second. *)
Definition instructor_then (verdict : Reply) : AnthropicClient :=
  λ n _, if Nat.even n then Answer "Expand the second paragraph." else verdict.

Definition always_no : AnthropicClient := instructor_then (Answer "NO needs work").

Definition yes_approved : AnthropicClient := instructor_then (Answer "YES, approved").

Definition empty_review : AnthropicClient := instructor_then (Answer "").

(** Two reviewers that approve without writing [YES] in capitals. *)
Definition yes_in_lower_case : AnthropicClient :=
  instructor_then (Answer "Looks good to me, yes.").

Definition yes_with_sharp_s : AnthropicClient := instructor_then (Answer "yeß, fertig").

(** A provider that is rate-limited on its first call only. *)
Definition rate_limited_once : AnthropicClient :=
  λ n _, match n with
         | O => Raises "RateLimitError"
         | S _ => Answer "Expand the second paragraph."
         end.

Definition reviser : GenerativeModel := λ _ _ _, Answer "Body, second draft".

Definition unavailable_once : GenerativeModel :=
  λ n _ _, match n with
           | O => Raises "ServiceUnavailable"
           | S _ => Answer "Body, second draft"
           end.

(** Gemini out of quota on the first [send_message] only. *)
Definition quota_exhausted_once : GenerativeModel :=
  λ n _ _, match n with
           | O => Raises "ResourceExhausted"
           | S _ => Answer "Body, second draft"
           end.

(** A second batch: both steps have a request; Claude instructs, accepts
    the first revision, and then cannot be reached any more. *)
Definition both_requests : gmap string string :=
  {["Intro" := "shorten"; "Body" := "add more detail"]}.

Definition accept_then_fail : AnthropicClient :=
  λ n _, match n with
         | 0 => Answer "Expand the second paragraph."
         | 1 => Answer "YES, approved"
         | _ => Raises "APIConnectionError"
         end.

(** The context of [Body] and the world at the start of its loop. *)
Definition body_context : RevisionContext :=
  mkRevisionContext "Body" "Body, first draft" "add more detail" 0 1 1.

Definition started : World := set_heap [[]; []] plan.

End Scenario.

(** ** Conversations *)

(** The messages of a conversation made of whole exchanges: each request of
    the asker is followed by the reply of the answerer. *)
Definition dialogue (asker answerer : string) (exchanges : list (string * string))
    : list Message :=
  flat_map (λ x, [mkMessage asker x.1; mkMessage answerer x.2]) exchanges.

(** The exchange with Gemini a round has made, if Gemini answered in it: the
    instructions it was sent and its revision. *)
Definition gemini_exchange (r : Round) : list (string * string) :=
  match instructions r, revision r with
  | Some p, Some x => [(p, x)]
  | _, _ => []
  end.

(** The records [logger.error] writes. *)
Definition is_error (e : Event) : bool :=
  match e with
  | LogClaudeError _ | LogGeminiError _ | LogReviseError _ | LogDriverError _ => true
  | _ => false
  end.

(** The rounds of a transcript that ended with a rejection: all of them when
    the loop was left through the exhausted exit, all but the last one
    otherwise. *)
Definition rejections (o : Outcome) : nat :=
  match exit o with
  | Exhausted => length (transcript o)
  | Accepted | Aborted => length (transcript o) - 1
  end.

(** What a run of the loop from [ctx] in [w], where the two histories were
    [hc] and [hg], has done when it returns [o] in [w']. *)
Definition accounted (ctx : RevisionContext) (w : World) (hc hg : list Message)
    (o : Outcome) (w' : World) : Prop :=
  ∃ hc' evs,
    heap w' !! gemini_history ctx =
      Some (hg ++ dialogue "user" "model" (flat_map gemini_exchange (transcript o))) ∧
    heap w' !! claude_messages ctx = Some hc' ∧
    log w' = log w ++ evs ∧
    claude_calls w' ≤ claude_calls w + 2 * length (transcript o) ∧
    gemini_calls w' ≤ gemini_calls w + length (transcript o) ∧
    current_iteration (context o) =
      (current_iteration ctx + Z.of_nat (rejections o))%Z ∧
    step_name (context o) = step_name ctx ∧
    original_content (context o) = original_content ctx ∧
    revision_request (context o) = revision_request ctx ∧
    (exit o ≠ Exhausted → 1 ≤ length (transcript o)) ∧
    (exit o ≠ Aborted →
       claude_calls w' = claude_calls w + 2 * length (transcript o) ∧
       gemini_calls w' = gemini_calls w + length (transcript o) ∧
       (∃ xs, hc' = hc ++ dialogue "user" "assistant" xs ∧
              length xs = 2 * length (transcript o)) ∧
       Forall (λ e, is_error e = false) evs).

(** [total_steps] of [further_revise_plan]: the number of steps of the outline
    whose name has a revision request. *)
Definition total_steps (rr : gmap string string) (steps : list Step) : nat :=
  length (filter (λ step, is_Some (rr !! name step)) steps).

(** The block [_format_revision_history] prints for the [n]-th revision. *)
Definition revision_block (n : nat) (text : string) : string :=
  "Revision " +:+ pretty n +:+ ":" +:+ nl +:+ "```" +:+ nl +:+ text +:+ nl +:+ "```".


(** ** Saving the plan *)

(** [convert_to_markdown], on the title, the summary and the outline of the
    plan. *)
Definition convert_to_markdown (title overall_summary : string)
    (detailed_outline : list Step) : string :=
  let md_content := "# " +:+ title +:+ nl +:+ nl in
  let md_content :=
    md_content +:+ "## Overall Summary" +:+ nl +:+ nl +:+ overall_summary +:+ nl +:+ nl in
  let md_content := md_content +:+ "## Detailed Outline" +:+ nl +:+ nl in
  fold_left
    (λ md_content step,
       md_content +:+ "### " +:+ name step +:+ nl +:+ nl +:+ content step +:+ nl +:+ nl)
    detailed_outline md_content.

(** The section of a step in the Markdown document, and the sections of a
    list of steps one after the other. *)
Definition step_section (step : Step) : string :=
  "### " +:+ name step +:+ nl +:+ nl +:+ content step +:+ nl +:+ nl.

Fixpoint outline_sections (steps : list Step) : string :=
  match steps with
  | [] => ""
  | step :: rest => step_section step +:+ outline_sections rest
  end.

(** The files of the working directory, by name, the two log files apart:
    [script.log] of the logger is the [log] of the world, and the file of
    [tee_output] holds what is printed, which is left out. *)
Abbreviation Files := (gmap string string) (only parsing).

(** [with open(filename, "w") as f:] and one write of [text] to [f].
    [writable] tells whether the file can be opened for writing; opening
    it empties it.  [encodable] tells whether [text] can be written in the
    encoding the file was opened with (the one of the locale): if it cannot,
    the write raises before any byte is written and the file stays empty. *)
Definition write_file (writable : string → bool) (encodable : string → bool)
    (filename text : string) (fs : Files) : Res unit * Files :=
  if writable filename then
    if encodable text then (Val tt, <[filename := text]> fs)
    else (Exc "UnicodeEncodeError", <[filename := ""]> fs)
  else (Exc "OSError", fs).

(** [save_revised_plan].  [json_dump] is [json.dump(plan, f, indent=4)] as a
    function of the plan's outline; it escapes every character outside
    ASCII ([ensure_ascii] is left on), so its text can be encoded whatever
    the encoding of the locale.  The Markdown text is written as it is. *)
Definition save_revised_plan (writable : string → bool) (encodable : string → bool)
    (json_dump : list Step → string) (title overall_summary : string)
    (detailed_outline : list Step) (file_prefix : string) (fs : Files)
    : Res unit * Files :=
  let json_filename := "RevisedPlan.json" in
  let json_filename_with_date := file_prefix +:+ ".json" in
  match write_file writable (λ _, true) json_filename (json_dump detailed_outline) fs with
  | (Val _, fs1) =>
    match write_file writable (λ _, true) json_filename_with_date
            (json_dump detailed_outline) fs1 with
    | (Val _, fs2) =>
      let md_filename := file_prefix +:+ "-RevisedPlan.md" in
      let md_content := convert_to_markdown title overall_summary detailed_outline in
      write_file writable encodable md_filename md_content fs2
    | other => other
    end
  | other => other
  end.

(** How the main block ends once the plan is loaded: the plan was saved, the
    revision failed, or an exception was caught and logged. *)
Inductive MainResult := Saved | RevisionFailed | Caught (e : string).

(** The main block from the call of [further_revise_plan] on. *)
Definition main (MAX_ITERATIONS : Z) (anthropic_client : AnthropicClient)
    (gemini_model : GenerativeModel) (revision_requests : gmap string string)
    (writable : string → bool) (encodable : string → bool)
    (json_dump : list Step → string)
    (title overall_summary file_prefix : string) (w : World) (fs : Files)
    : Res MainResult * World * Files :=
  match further_revise_plan MAX_ITERATIONS anthropic_client gemini_model
          revision_requests w with
  | (Val (Some _, _), w') =>
    match save_revised_plan writable encodable json_dump title overall_summary
            (outline w') file_prefix fs with
    | (Val _, fs') => (Val Saved, w', fs')
    | (Exc e, fs') => (Val (Caught e), w', fs')
    | (OutOfFuel, fs') => (OutOfFuel, w', fs')
    end
  | (Val (None, _), w') => (Val RevisionFailed, w', fs)
  | (Exc e, w') => (Val (Caught e), w', fs)
  | (OutOfFuel, w') => (OutOfFuel, w', fs)
  end.


(** ** Spellings of the verdict *)

(** One of [k] and [a] begins with the other. *)
Definition compat (k a : string) : bool := starts_with k a || starts_with a k.

(** No occurrence of [m] begins inside [a], whatever follows [a]. *)
Fixpoint no_start (m a : string) : bool :=
  match a with
  | EmptyString => true
  | String _ a' => negb (compat m a) && no_start m a'
  end.

(** [str.upper] leaves [a] as it is, whatever follows [a]. *)
Fixpoint kept_by_upper (a : string) : bool :=
  match a with
  | EmptyString => true
  | String b a' =>
    forallb (λ e, negb (compat e.1 a)) special_table
    && Ascii.eqb (upper_char b) b && kept_by_upper a'
  end.

(** A continuation byte of UTF-8. *)
Definition is_cont (b : ascii) : bool :=
  (128 <=? nat_of_ascii b) && (nat_of_ascii b <? 192).

Fixpoint all_cont (s : string) : bool :=
  match s with
  | EmptyString => true
  | String b r => is_cont b && all_cont r
  end.

(** The characters outside ASCII whose mapping begins with [S]. *)
Definition sharp_s : list string := ["ß"; "ſ"; "ﬅ"; "ﬆ"].

(** The ways to write the last letter of a [YES] that [str.upper] finds. *)
Definition s_spellings : list string := ["s"; "S"] ++ sharp_s.

(** What the properties need of an entry of the table: the character is
    a lead byte followed by continuation bytes; its mapping starts a
    character, starts no [YES] and no [ES], begins with [S] for the four
    characters of [sharp_s] only, and is left alone by [upper]. *)
Definition entry_ok (e : string * string) : bool :=
  match e.1 with
  | String l conts => (192 <=? nat_of_ascii l) && all_cont conts
  | EmptyString => false
  end
  && match e.2 with
     | String b _ => negb (is_cont b)
     | EmptyString => false
     end
  && no_start "YES" e.2
  && negb (compat "ES" e.2)
  && implb (starts_with "S" e.2) (existsb (String.eqb e.1) sharp_s)
  && forallb (λ k, implb (compat e.1 k) (starts_with "S" e.2)) sharp_s
  && kept_by_upper e.2.

(** The spellings of [YES] in a text, letter by letter. *)
Definition is_y (c : ascii) : bool := Ascii.eqb c "y" || Ascii.eqb c "Y".
Definition is_e (c : ascii) : bool := Ascii.eqb c "e" || Ascii.eqb c "E".

Definition s_here (t : string) : bool := existsb (λ k, starts_with k t) s_spellings.

Definition yes_here (s : string) : bool :=
  match s with
  | String y (String e t) => is_y y && is_e e && s_here t
  | _ => false
  end.

Fixpoint yes_in (s : string) : bool :=
  yes_here s ||
  match s with
  | EmptyString => false
  | String _ r => yes_in r
  end.


(** * Properties *)

(** ** Strings *)

Lemma prefix_spec (p s : string) :
  String.prefix p s = true ↔ ∃ r, s = p +:+ r.
Proof.
  revert s. induction p as [|a p IH]; intros [|b s]; simpl.
  - split; [intros _; by exists "" | done].
  - split; [intros _; by exists (String b s) | done].
  - split; [done | intros [r Hr]; discriminate Hr].
  - destruct (ascii_dec a b) as [->|Hne].
    + rewrite IH. split; intros [r Hr]; exists r.
      * by rewrite Hr.
      * by injection Hr.
    + split; [done | intros [r Hr]; injection Hr; congruence].
Qed.

Lemma contains_spec (needle hay : string) :
  contains needle hay = true ↔ ∃ pre post, hay = pre +:+ needle +:+ post.
Proof.
  induction hay as [|c hay IH]; cbn [contains].
  - rewrite orb_false_r, prefix_spec. split.
    + intros [r Hr]. by exists "", r.
    + intros (pre & post & H). destruct pre; [by exists post | discriminate H].
  - rewrite orb_true_iff, prefix_spec, IH. split.
    + intros [[r Hr] | (pre & post & H)].
      * by exists "", r.
      * exists (String c pre), post. simpl. by rewrite H.
    + intros (pre & post & H). destruct pre as [|c' pre]; simpl in H.
      * left. by exists post.
      * right. exists pre, post. by injection H.
Qed.

Lemma accepting_spec (verdict : string) :
  accepting verdict = true ↔ ∃ pre post, upper verdict = pre +:+ "YES" +:+ post.
Proof. apply contains_spec. Qed.

Lemma truthy_Some (o : option string) :
  truthy o = true → ∃ c s, o = Some (String c s).
Proof. destruct o as [[|c s]|]; simpl; [done | eauto | done]. Qed.

(** ** Prefixes *)

Lemma starts_with_spec (k s : string) :
  starts_with k s = true ↔ ∃ r, s = k +:+ r.
Proof.
  revert s. induction k as [|a k IH]; intros s.
  - split; [intros _; by exists s | done].
  - destruct s as [|b s]; simpl.
    + split; [done | intros [r Hr]; discriminate Hr].
    + rewrite andb_true_iff, IH, Ascii.eqb_eq. split.
      * intros [-> [r ->]]. by exists r.
      * intros [r Hr]. injection Hr as -> ->. split; [done | by exists r].
Qed.

Lemma starts_with_app (k r : string) : starts_with k (k +:+ r) = true.
Proof. apply starts_with_spec. by exists r. Qed.

Lemma prefix_starts_with (k s : string) : String.prefix k s = starts_with k s.
Proof. apply eq_true_iff_eq. by rewrite starts_with_spec, prefix_spec. Qed.

Lemma contains_cons (m : string) (c : ascii) (r : string) :
  contains m (String c r) = starts_with m (String c r) || contains m r.
Proof.
  change (contains m (String c r)) with (String.prefix m (String c r) || contains m r).
  by rewrite prefix_starts_with.
Qed.

Lemma not_compat_app (k : string) :
  ∀ a x, compat k a = false → starts_with k (a +:+ x) = false.
Proof.
  unfold compat. induction k as [|c k IH]; intros a x H; [done |].
  destruct a as [|b a]; [done |].
  change (String b a +:+ x) with (String b (a +:+ x)).
  simpl in *. rewrite (Ascii.eqb_sym b c) in H.
  destruct (Ascii.eqb c b); [| done]. simpl in *. by apply IH.
Qed.

Lemma both_prefix_compat (k : string) :
  ∀ m s, starts_with k s = true → starts_with m s = true → compat k m = true.
Proof.
  unfold compat. induction k as [|c k IH]; intros m s Hk Hm; [done |].
  destruct m as [|d m]; [by rewrite orb_true_r |].
  destruct s as [|b s]; [done |]. simpl in *.
  apply andb_true_iff in Hk as [Hc Hk], Hm as [Hd Hm].
  apply Ascii.eqb_eq in Hc as ->, Hd as ->. rewrite Ascii.eqb_refl. simpl.
  by apply (IH m s).
Qed.

Lemma contains_no_start (m a : string) :
  no_start m a = true → ∀ x, contains m (a +:+ x) = contains m x.
Proof.
  induction a as [|b a IH]; intros H x; [done |].
  simpl in H. apply andb_true_iff in H as [Hc Ha]. apply negb_true_iff in Hc.
  change (String b a +:+ x) with (String b (a +:+ x)).
  rewrite contains_cons.
  change (String b (a +:+ x)) with (String b a +:+ x).
  by rewrite (not_compat_app m _ x Hc), IH.
Qed.

(** ** The table of [str.upper] *)

(** Every entry of the table meets the checks of [entry_ok]. *)
Lemma table_ok : forallb entry_ok special_table = true.
Proof. vm_compute. reflexivity. Qed.

Lemma entry_facts (k mapping : string) :
  In (k, mapping) special_table → entry_ok (k, mapping) = true.
Proof.
  intros Hin. pose proof table_ok as H.
  rewrite forallb_forall in H. by apply H.
Qed.

Lemma entry_split (k mapping : string) :
  In (k, mapping) special_table →
  (∃ l conts, k = String l conts ∧ 192 ≤ nat_of_ascii l ∧ all_cont conts = true) ∧
  (∃ b m, mapping = String b m ∧ is_cont b = false) ∧
  no_start "YES" mapping = true ∧
  compat "ES" mapping = false ∧
  (starts_with "S" mapping = true → In k sharp_s) ∧
  (∀ s, In s sharp_s → compat k s = true → starts_with "S" mapping = true) ∧
  kept_by_upper mapping = true.
Proof.
  intros Hin. pose proof (entry_facts k mapping Hin) as H. unfold entry_ok in H.
  cbn [fst snd] in H.
  apply andb_true_iff in H as [H Hpass]. apply andb_true_iff in H as [H Hall].
  apply andb_true_iff in H as [H Himp]. apply andb_true_iff in H as [H Hes].
  apply andb_true_iff in H as [H Hclear]. apply andb_true_iff in H as [Ha Hb].
  split; [| split; [| split; [| split; [| split; [| split]]]]]; try done.
  - destruct k as [|l conts]; [done |]. apply andb_true_iff in Ha as [Hl Hc].
    exists l, conts. split; [done |]. split; [by apply Nat.leb_le | done].
  - destruct mapping as [|b m]; [done |]. exists b, m. split; [done |].
    by apply negb_true_iff.
  - by apply negb_true_iff.
  - intros HS. rewrite HS in Himp. cbn [implb] in Himp.
    apply existsb_exists in Himp as [x [Hx Heq]].
    apply String.eqb_eq in Heq. by subst.
  - intros s Hs Hc. rewrite forallb_forall in Hall. specialize (Hall s Hs).
    by rewrite Hc in Hall.
Qed.

Lemma special_some (s k mapping : string) :
  special s = Some (k, mapping) →
  In (k, mapping) special_table ∧ ∃ rest, s = k +:+ rest.
Proof.
  unfold special. destruct s as [|c r]; [done |].
  destruct (192 <=? nat_of_ascii c); [| done].
  intros H. apply find_some in H as [Hin Hk]. split; [done |].
  by apply starts_with_spec.
Qed.

Lemma special_none (s : string) :
  special s = None ↔ ∀ k mapping, In (k, mapping) special_table → starts_with k s = false.
Proof.
  unfold special. destruct s as [|c r].
  - split; [| done]. intros _ k mapping Hin.
    by destruct (entry_split k mapping Hin) as ((l & conts & -> & _) & _).
  - destruct (192 <=? nat_of_ascii c) eqn:Hc.
    + split.
      * intros H k mapping Hin. by apply (find_none _ _ H (k, mapping)).
      * intros H. induction special_table as [|[k mapping] t IH]; [done |].
        simpl. rewrite (H k mapping) by by left. apply IH.
        intros k' m' Hin. apply (H k' m'). by right.
    + split; [| done]. intros _ k mapping Hin.
      destruct (entry_split k mapping Hin) as ((l & conts & -> & Hl & _) & _).
      simpl. destruct (Ascii.eqb l c) eqn:Heq; [| done].
      apply Ascii.eqb_eq in Heq as ->. apply Nat.leb_gt in Hc. lia.
Qed.

(** ** Unfolding [upper] *)

Lemma upper_from_skip (pre rest : string) :
  upper_from (String.length pre) (pre +:+ rest) = upper_from 0 rest.
Proof.
  induction pre as [|b pre IH]; [done |].
  change (String b pre +:+ rest) with (String b (pre +:+ rest)). exact IH.
Qed.

Lemma upper_cons (c : ascii) (r : string) :
  upper (String c r) =
    match special (String c r) with
    | Some (key, mapping) => mapping +:+ upper_from (String.length key - 1) r
    | None => String (upper_char c) (upper r)
    end.
Proof. reflexivity. Qed.

Lemma upper_none (c : ascii) (r : string) :
  special (String c r) = None → upper (String c r) = String (upper_char c) (upper r).
Proof. intros H. by rewrite upper_cons, H. Qed.

Lemma upper_some (k mapping rest : string) :
  special (k +:+ rest) = Some (k, mapping) →
  In (k, mapping) special_table →
  upper (k +:+ rest) = mapping +:+ upper rest.
Proof.
  intros H Hin. pose proof (entry_facts k mapping Hin) as Hok.
  destruct k as [|c k]; [done |].
  change (String c k +:+ rest) with (String c (k +:+ rest)) in *.
  rewrite upper_cons, H. f_equal.
  replace (String.length (String c k) - 1) with (String.length k) by (simpl; lia).
  apply upper_from_skip.
Qed.

Lemma append_length (a b : string) :
  String.length (a +:+ b) = String.length a + String.length b.
Proof.
  induction a as [|c a IH]; [done |].
  change (String c a +:+ b) with (String c (a +:+ b)). simpl. by rewrite IH.
Qed.

(** Induction along the characters [upper] reads. *)
Lemma upper_ind (P : string → Prop) :
  P "" →
  (∀ c r, special (String c r) = None → P r → P (String c r)) →
  (∀ k mapping rest,
     In (k, mapping) special_table → special (k +:+ rest) = Some (k, mapping) →
     P rest → P (k +:+ rest)) →
  ∀ s, P s.
Proof.
  intros Hnil Hnone Hsome s.
  remember (String.length s) as n eqn:Hn. revert s Hn.
  induction n as [n IH] using lt_wf_ind. intros s Hn.
  destruct s as [|c r]; [done |].
  destruct (special (String c r)) as [[k mapping]|] eqn:Hsp.
  - destruct (special_some _ _ _ Hsp) as [Hin [rest Hrest]].
    rewrite Hrest in *. apply (Hsome k mapping rest Hin Hsp).
    apply (IH (String.length rest)); [| done].
    pose proof (entry_facts k mapping Hin) as Hok.
    rewrite Hn, append_length. destruct k; [done | simpl; lia].
  - apply Hnone; [done |]. apply (IH (String.length r)); [simpl in Hn; lia | done].
Qed.

(** ** Letters *)

Ltac each_ascii c := destruct c as [[] [] [] [] [] [] [] []].

Lemma upper_char_Y (c : ascii) : Ascii.eqb "Y" (upper_char c) = is_y c.
Proof. each_ascii c; reflexivity. Qed.

Lemma upper_char_E (c : ascii) : Ascii.eqb "E" (upper_char c) = is_e c.
Proof. each_ascii c; reflexivity. Qed.

Lemma upper_char_S (c : ascii) :
  Ascii.eqb "S" (upper_char c) = Ascii.eqb "s" c || Ascii.eqb "S" c.
Proof. each_ascii c; reflexivity. Qed.

Lemma upper_char_high (c : ascii) :
  128 ≤ nat_of_ascii (upper_char c) → upper_char c = c.
Proof. each_ascii c; first [reflexivity | intros H; vm_compute in H; lia]. Qed.

Lemma upper_char_idemp (c : ascii) : upper_char (upper_char c) = upper_char c.
Proof. each_ascii c; reflexivity. Qed.

Lemma high_not_letter (c : ascii) :
  128 ≤ nat_of_ascii c →
  is_y c = false ∧ is_e c = false ∧ Ascii.eqb "s" c = false ∧ Ascii.eqb "S" c = false.
Proof. each_ascii c; first [done | intros H; vm_compute in H; lia]. Qed.

Lemma is_cont_high (b : ascii) : is_cont b = true → 128 ≤ nat_of_ascii b.
Proof. unfold is_cont. intros H. apply andb_true_iff in H as [H _]. by apply Nat.leb_le. Qed.

Lemma lead_not_cont (b : ascii) : 192 ≤ nat_of_ascii b → is_cont b = false.
Proof.
  unfold is_cont. intros H. apply andb_false_iff. right. apply Nat.ltb_ge. lia.
Qed.

(** ** Where [upper] puts a [YES] *)

Lemma starts_with_one (b c : ascii) (r : string) :
  starts_with (String b "") (String c r) = Ascii.eqb b c.
Proof. simpl. by rewrite andb_true_r. Qed.

Lemma sharp_s_special (s : string) :
  In s sharp_s → ∃ mapping, In (s, mapping) special_table.
Proof.
  intros Hs.
  assert (forallb (λ s, existsb (λ e, String.eqb e.1 s) special_table) sharp_s = true)
    as H by (vm_compute; reflexivity).
  rewrite forallb_forall in H. apply H in Hs.
  apply existsb_exists in Hs as [[k m] [Hin Heq]].
  apply String.eqb_eq in Heq. cbn [fst] in Heq. subst. by exists m.
Qed.

(** The text after [YE]: [upper] begins with [S] exactly on one of the six
    spellings. *)
Lemma s_head (t : string) : starts_with "S" (upper t) = s_here t.
Proof.
  destruct t as [|c t]; [done |].
  destruct (special (String c t)) as [[k mapping]|] eqn:Hsp.
  - destruct (special_some _ _ _ Hsp) as [Hin [rest Hrest]]. rewrite Hrest in *.
    rewrite (upper_some k mapping rest Hsp Hin).
    destruct (entry_split k mapping Hin)
      as ((l & conts & -> & Hl & _) & (b & m & -> & _) & _ & _ & Hto & Hfrom & _).
    change (String b m +:+ upper rest) with (String b (m +:+ upper rest)).
    rewrite starts_with_one.
    change (String l conts +:+ rest) with (String l (conts +:+ rest)) in *.
    destruct (high_not_letter l ltac:(lia)) as (_ & _ & Hs1 & Hs2).
    destruct (Ascii.eqb "S" b) eqn:Hb.
    + symmetry. apply existsb_exists. exists (String l conts). split.
      * apply in_or_app. right. apply Hto. by rewrite starts_with_one.
      * apply (starts_with_app (String l conts) rest).
    + symmetry. apply not_true_iff_false. intros H.
      apply existsb_exists in H as [s [Hs Hst]].
      apply in_app_or in Hs as [Hs | Hs].
      * destruct Hs as [<- | [<- | []]]; rewrite starts_with_one in Hst; congruence.
      * assert (starts_with "S" (String b m) = true) as Hc.
        { apply (Hfrom s Hs).
          apply (both_prefix_compat _ _ (String l (conts +:+ rest))); [| done].
          apply (starts_with_app (String l conts) rest). }
        rewrite starts_with_one in Hc. congruence.
  - rewrite (upper_none c t Hsp), starts_with_one, upper_char_S.
    unfold s_here, s_spellings. rewrite existsb_app.
    assert (existsb (λ k, starts_with k (String c t)) sharp_s = false) as ->.
    { apply not_true_iff_false. intros H. apply existsb_exists in H as [s [Hs Hst]].
      destruct (sharp_s_special s Hs) as [mapping Hin].
      pose proof (proj1 (special_none _) Hsp s mapping Hin). congruence. }
    cbn [existsb]. rewrite !starts_with_one. by rewrite !orb_false_r.
Qed.

(** The text after [Y]. *)
Lemma es_head (r : string) :
  starts_with "ES" (upper r) =
    match r with
    | String e t => is_e e && s_here t
    | EmptyString => false
    end.
Proof.
  destruct r as [|c t]; [done |].
  destruct (special (String c t)) as [[k mapping]|] eqn:Hsp.
  - destruct (special_some _ _ _ Hsp) as [Hin [rest Hrest]]. rewrite Hrest in *.
    rewrite (upper_some k mapping rest Hsp Hin).
    destruct (entry_split k mapping Hin)
      as ((l & conts & -> & Hl & _) & _ & _ & Hes & _).
    rewrite (not_compat_app "ES" mapping _ Hes).
    change (String l conts +:+ rest) with (String l (conts +:+ rest)) in *.
    injection Hrest as -> _.
    destruct (high_not_letter l ltac:(lia)) as (_ & -> & _). done.
  - rewrite (upper_none c t Hsp).
    change (starts_with "ES" (String (upper_char c) (upper t)))
      with (Ascii.eqb "E" (upper_char c) && starts_with "S" (upper t)).
    by rewrite upper_char_E, s_head.
Qed.

Lemma yes_head (c : ascii) (r : string) :
  starts_with "YES" (String (upper_char c) (upper r)) = yes_here (String c r).
Proof.
  change (starts_with "YES" (String (upper_char c) (upper r)))
    with (Ascii.eqb "Y" (upper_char c) && starts_with "ES" (upper r)).
  rewrite upper_char_Y, es_head. unfold yes_here.
  destruct r as [|e t]; [by rewrite andb_false_r | by rewrite andb_assoc].
Qed.

Lemma yes_in_cons (c : ascii) (r : string) :
  yes_in (String c r) = yes_here (String c r) || yes_in r.
Proof. reflexivity. Qed.

Lemma yes_here_high (c : ascii) (r : string) :
  128 ≤ nat_of_ascii c → yes_here (String c r) = false.
Proof.
  intros H. destruct (high_not_letter c H) as (Hy & _). unfold yes_here.
  destruct r; [done |]. by rewrite Hy.
Qed.

Lemma yes_in_skip (k : string) :
  all_cont k = true → ∀ rest, yes_in (k +:+ rest) = yes_in rest.
Proof.
  induction k as [|b k IH]; intros Hk rest; [done |].
  simpl in Hk. apply andb_true_iff in Hk as [Hb Hk].
  change (String b k +:+ rest) with (String b (k +:+ rest)).
  rewrite yes_in_cons, yes_here_high by by apply is_cont_high.
  by apply IH.
Qed.

(** [upper] puts a [YES] into its result exactly when the text holds one of
    the spellings. *)
Lemma contains_yes_upper (s : string) : contains "YES" (upper s) = yes_in s.
Proof.
  induction s as [| c r Hsp IH | k mapping rest Hin Hsp IH] using upper_ind.
  - done.
  - rewrite (upper_none c r Hsp), contains_cons, yes_in_cons. by rewrite yes_head, IH.
  - rewrite (upper_some k mapping rest Hsp Hin).
    destruct (entry_split k mapping Hin)
      as ((l & conts & -> & Hl & Hconts) & _ & Hclear & _).
    rewrite (contains_no_start "YES" mapping Hclear), IH.
    change (String l conts +:+ rest) with (String l (conts +:+ rest)).
    rewrite yes_in_cons, yes_here_high by lia. symmetry. by apply yes_in_skip.
Qed.

(** ** [upper] twice *)

Lemma continuation_kept (conts : string) :
  all_cont conts = true →
  ∀ r, starts_with conts (upper r) = true → starts_with conts r = true.
Proof.
  induction conts as [|b conts IH]; intros Hc r H; [done |].
  simpl in Hc. apply andb_true_iff in Hc as [Hb Hc].
  destruct r as [|c r]; [done |].
  destruct (special (String c r)) as [[k mapping]|] eqn:Hsp.
  - destruct (special_some _ _ _ Hsp) as [Hin [rest Hrest]]. rewrite Hrest in *.
    rewrite (upper_some k mapping rest Hsp Hin) in H.
    destruct (entry_split k mapping Hin) as (_ & (b' & m & -> & Hb') & _).
    change (String b' m +:+ upper rest) with (String b' (m +:+ upper rest)) in H.
    simpl in H. apply andb_true_iff in H as [Heq _].
    apply Ascii.eqb_eq in Heq as <-. congruence.
  - rewrite (upper_none c r Hsp) in H. simpl in H.
    apply andb_true_iff in H as [Heq H]. apply Ascii.eqb_eq in Heq.
    assert (upper_char c = c) as Hcc.
    { apply upper_char_high. rewrite <- Heq. by apply is_cont_high. }
    simpl. rewrite Heq, Hcc, Ascii.eqb_refl. simpl. by apply IH.
Qed.

Lemma kept_by_upper_cons (b : ascii) (a : string) :
  kept_by_upper (String b a) =
    forallb (λ e, negb (compat e.1 (String b a))) special_table
    && Ascii.eqb (upper_char b) b && kept_by_upper a.
Proof. reflexivity. Qed.

Lemma upper_kept (a : string) :
  kept_by_upper a = true → ∀ x, upper (a +:+ x) = a +:+ upper x.
Proof.
  induction a as [|b a IH]; intros H x; [done |].
  rewrite kept_by_upper_cons in H. apply andb_true_iff in H as [H Ha]. apply andb_true_iff in H as [Hk Hb].
  apply Ascii.eqb_eq in Hb.
  change (String b a +:+ x) with (String b (a +:+ x)).
  rewrite upper_none.
  - rewrite Hb, (IH Ha). done.
  - apply special_none. intros k mapping Hin.
    rewrite forallb_forall in Hk. specialize (Hk (k, mapping) Hin).
    apply negb_true_iff in Hk.
    exact (not_compat_app k (String b a) x Hk).
Qed.

Lemma upper_idemp (s : string) : upper (upper s) = upper s.
Proof.
  induction s as [| c r Hsp IH | k mapping rest Hin Hsp IH] using upper_ind.
  - done.
  - rewrite (upper_none c r Hsp). rewrite upper_none.
    + by rewrite upper_char_idemp, IH.
    + apply special_none. intros k mapping Hin.
      destruct (entry_split k mapping Hin) as ((l & conts & -> & Hl & Hconts) & _).
      apply not_true_iff_false. intros H. simpl in H.
      apply andb_true_iff in H as [Heq H]. apply Ascii.eqb_eq in Heq.
      assert (upper_char c = c) as Hcc by (apply upper_char_high; rewrite <- Heq; lia).
      pose proof (continuation_kept conts Hconts r H) as Hr.
      pose proof (proj1 (special_none _) Hsp (String l conts) mapping Hin) as Hno.
      simpl in Hno. by rewrite Heq, Hcc, Ascii.eqb_refl, Hr in Hno.
  - rewrite (upper_some k mapping rest Hsp Hin).
    destruct (entry_split k mapping Hin) as (_ & _ & _ & _ & _ & _ & Hpass).
    by rewrite (upper_kept mapping Hpass), IH.
Qed.

Lemma append_assoc (a b c : string) : (a +:+ b) +:+ c = a +:+ (b +:+ c).
Proof.
  induction a as [|x a IH]; [done |].
  change (String x ((a +:+ b) +:+ c) = String x (a +:+ (b +:+ c))). by f_equal.
Qed.

Lemma is_y_spec (c : ascii) : is_y c = true ↔ String c "" ∈ ["y"; "Y"].
Proof.
  unfold is_y. rewrite orb_true_iff, !Ascii.eqb_eq, !elem_of_cons, elem_of_nil.
  split; [intros [-> | ->]; auto | intros [[= ->] | [[= ->] | []]]; auto].
Qed.

Lemma is_e_spec (c : ascii) : is_e c = true ↔ String c "" ∈ ["e"; "E"].
Proof.
  unfold is_e. rewrite orb_true_iff, !Ascii.eqb_eq, !elem_of_cons, elem_of_nil.
  split; [intros [-> | ->]; auto | intros [[= ->] | [[= ->] | []]]; auto].
Qed.

Lemma s_here_spec (t : string) :
  s_here t = true ↔ ∃ s post, t = s +:+ post ∧ s ∈ ["s"; "S"; "ß"; "ſ"; "ﬅ"; "ﬆ"].
Proof.
  unfold s_here. rewrite existsb_exists. split.
  - intros [s [Hs Hst]]. apply starts_with_spec in Hst as [post ->].
    exists s, post. split; [done |]. by apply list_elem_of_In.
  - intros (s & post & -> & Hs). exists s. split; [by apply list_elem_of_In |].
    apply starts_with_app.
Qed.

Lemma yes_here_spec (v : string) :
  yes_here v = true ↔
  ∃ y e s post, v = y +:+ e +:+ s +:+ post ∧
    y ∈ ["y"; "Y"] ∧ e ∈ ["e"; "E"] ∧ s ∈ ["s"; "S"; "ß"; "ſ"; "ﬅ"; "ﬆ"].
Proof.
  split.
  - destruct v as [|y [|e t]]; [done | done |]. unfold yes_here. intros H.
    apply andb_true_iff in H as [H Hs]. apply andb_true_iff in H as [Hy He].
    apply s_here_spec in Hs as (s & post & -> & Hs).
    exists (String y ""), (String e ""), s, post.
    split; [done |]. split; [by apply is_y_spec |]. split; [by apply is_e_spec | done].
  - intros (y & e & s & post & -> & Hy & He & Hs).
    assert (∃ c, y = String c "" ∧ is_y c = true) as (c & -> & Hc).
    { apply elem_of_cons in Hy as [-> | Hy]; [by eexists |].
      apply elem_of_cons in Hy as [-> | Hy]; [by eexists |]. by apply elem_of_nil in Hy. }
    assert (∃ d, e = String d "" ∧ is_e d = true) as (d & -> & Hd).
    { apply elem_of_cons in He as [-> | He]; [by eexists |].
      apply elem_of_cons in He as [-> | He]; [by eexists |]. by apply elem_of_nil in He. }
    change (yes_here (String c (String d (s +:+ post))) = true). unfold yes_here.
    rewrite Hc, Hd. apply s_here_spec. by exists s, post.
Qed.

(** A text holds a spelling of [YES]. *)
Lemma yes_in_spec (v : string) :
  yes_in v = true ↔
  ∃ pre y e s post, v = pre +:+ y +:+ e +:+ s +:+ post ∧
    y ∈ ["y"; "Y"] ∧ e ∈ ["e"; "E"] ∧ s ∈ ["s"; "S"; "ß"; "ſ"; "ﬅ"; "ﬆ"].
Proof.
  induction v as [|c v IH].
  - split; [done |]. intros (pre & y & e & s & post & Hv & Hy & _).
    destruct pre; [| discriminate Hv].
    apply elem_of_cons in Hy as [-> | Hy]; [discriminate Hv |].
    apply elem_of_cons in Hy as [-> | Hy]; [discriminate Hv |]. by apply elem_of_nil in Hy.
  - rewrite yes_in_cons, orb_true_iff, yes_here_spec, IH. split.
    + intros [(y & e & s & post & Hv & H) | (pre & y & e & s & post & Hv & H)].
      * by exists "", y, e, s, post.
      * exists (String c pre), y, e, s, post. split; [| done]. by rewrite Hv.
    + intros (pre & y & e & s & post & Hv & H). destruct pre as [|c' pre].
      * left. by exists y, e, s, post.
      * right. injection Hv as -> ->. by exists pre, y, e, s, post.
Qed.

(** [upper] on a few texts, as [str.upper] gives them. *)
Lemma upper_examples :
  upper "yeß, fertig" = "YESS, FERTIG" ∧
  upper "déjà vu, ǆ ſ ﬆ ẙ" = "DÉJÀ VU, Ǆ S ST Y̊" ∧
  upper "Not yet." = "NOT YET." ∧
  upper "" = "".
Proof. repeat split; vm_compute; reflexivity. Qed.

Lemma accepting_yes_in (v : string) : accepting v = yes_in v.
Proof. apply contains_yes_upper. Qed.

Lemma accepting_app (pre v post : string) :
  accepting v = true → accepting (pre +:+ v +:+ post) = true.
Proof.
  rewrite !accepting_yes_in, !yes_in_spec.
  intros (p & y & e & s & q & -> & H).
  exists (pre +:+ p), y, e, s, (q +:+ post). split; [| done].
  by rewrite !append_assoc.
Qed.

(** ** Worlds that evolve *)

Lemma heap_grows_refl (w : World) : heap_grows w w.
Proof. split; [done | intros l h Hl; by exists h]. Qed.

Lemma heap_grows_same (w w' : World) : heap w' = heap w → heap_grows w w'.
Proof.
  intros Hw. unfold heap_grows. rewrite Hw.
  split; [done | intros l h Hl; by exists h].
Qed.

Lemma heap_grows_trans (w1 w2 w3 : World) :
  heap_grows w1 w2 → heap_grows w2 w3 → heap_grows w1 w3.
Proof.
  intros [Hlen1 H1] [Hlen2 H2]. split; [lia |].
  intros l h Hl. destruct (H1 l h Hl) as (h' & Hl' & Hp).
  destruct (H2 l h' Hl') as (h'' & Hl'' & Hp'). exists h''. split; [done |].
  by transitivity h'.
Qed.

Lemma heap_grows_insert (w w' : World) (l : loc) (h h2 : list Message) :
  heap w !! l = Some h → h `prefix_of` h2 → heap w' = <[l := h2]> (heap w) →
  heap_grows w w'.
Proof.
  intros Hl Hp Hw. unfold heap_grows. rewrite Hw.
  split; [by rewrite length_insert |].
  intros l' x Hx. destruct (decide (l = l')) as [Heq|Hne].
  - subst l'. assert (x = h) as -> by congruence. exists h2. split; [| done].
    apply list_lookup_insert_eq. by eapply lookup_lt_Some.
  - exists x. by rewrite list_lookup_insert_ne.
Qed.

Lemma heap_grows_alloc (w w' : World) (hs : list (list Message)) :
  heap w' = heap w ++ hs → heap_grows w w'.
Proof.
  intros Hw. unfold heap_grows. rewrite Hw.
  split; [rewrite length_app; lia |].
  intros l h Hl. exists h. split; [| done]. by apply lookup_app_l_Some.
Qed.

Lemma evolves_refl (i : nat) (n : string) (w : World) : evolves i n w w.
Proof.
  split; [done | done | apply heap_grows_refl |].
  exists []. by rewrite app_nil_r.
Qed.

Lemma evolves_trans (i : nat) (n : string) (w1 w2 w3 : World) :
  evolves i n w1 w2 → evolves i n w2 w3 → evolves i n w1 w3.
Proof.
  intros [Ho1 Hn1 Hh1 (e1 & Hl1 & Ht1)] [Ho2 Hn2 Hh2 (e2 & Hl2 & Ht2)]. split.
  - intros j Hj. by rewrite Ho2, Ho1.
  - congruence.
  - by eapply heap_grows_trans.
  - exists (e1 ++ e2). split; [by rewrite Hl2, Hl1, app_assoc |].
    by apply Forall_app.
Qed.

(** A change that leaves the outline alone. *)
Lemma evolves_quiet (i : nat) (n : string) (w w' : World) (evs : list Event) :
  outline w' = outline w → heap_grows w w' → log w' = log w ++ evs →
  Forall (tagged n) evs → evolves i n w w'.
Proof.
  intros Ho Hh Hl Ht. split; [by rewrite Ho | by rewrite Ho | done |].
  by exists evs.
Qed.

Lemma evolves_emit (i : nat) (n : string) (e : Event) (w : World) :
  tagged n e → evolves i n w (add_log e w).
Proof.
  intros He. apply (evolves_quiet i n w (add_log e w) [e]);
    [done | by apply heap_grows_same | done | by constructor].
Qed.

Lemma evolves_set_content (i : nat) (n : string) (s : Step) (text : string) (w : World) :
  outline w !! i = Some s →
  evolves i n w (set_outline (<[i := mkStep (name s) text]> (outline w)) w).
Proof.
  intros Hs. split; simpl.
  - intros j Hj. by rewrite list_lookup_insert_ne.
  - rewrite list_fmap_insert. simpl. apply list_insert_id.
    by rewrite list_lookup_fmap, Hs.
  - by apply heap_grows_same.
  - exists []. by rewrite app_nil_r.
Qed.

(** Closes [Forall (tagged n) evs] on an explicit list of events. *)
Ltac solve_tagged :=
  repeat first [apply Forall_nil_2 | apply Forall_cons_2];
  first [by left | by right].

(** ** Model gateway *)

Section Gateway.

Variable anthropic_client : AnthropicClient.
Variable gemini_model : GenerativeModel.

(** What [get_claude_response] does on a context whose history exists. *)
Lemma get_claude_response_run (ctx : RevisionContext) (p : string) (w : World)
    (h : list Message) :
  heap w !! claude_messages ctx = Some h →
  get_claude_response anthropic_client ctx p w =
    let messages := h ++ [mkMessage "user" p] in
    match anthropic_client (claude_calls w) messages with
    | Answer t =>
      (Val (Some t),
       mkWorld (outline w)
         (<[claude_messages ctx := messages ++ [mkMessage "assistant" t]]> (heap w))
         (S (claude_calls w)) (gemini_calls w)
         (log w ++ [ClaudeRequest (step_name ctx) messages]))
    | Raises e =>
      (Val None,
       mkWorld (outline w) (<[claude_messages ctx := messages]> (heap w))
         (S (claude_calls w)) (gemini_calls w)
         (log w ++ [ClaudeRequest (step_name ctx) messages; LogClaudeError e]))
    end.
Proof.
  intros Hl. pose proof (lookup_lt_Some _ _ _ Hl) as Hlt.
  unfold get_claude_response, try_except, bind, heap_append, heap_read,
    messages_create, emit, ret. simpl. rewrite Hl. simpl.
  rewrite list_lookup_insert_eq by done.
  destruct (anthropic_client _ _) as [t|e]; simpl.
  - rewrite list_lookup_insert_eq by done. unfold set_heap, add_log; simpl.
    by rewrite list_insert_insert_eq.
  - unfold add_log; simpl. by rewrite <- app_assoc.
Qed.

(** What [get_gemini_response] does on a context whose history exists. *)
Lemma get_gemini_response_run (ctx : RevisionContext) (p : string) (w : World)
    (h : list Message) :
  heap w !! gemini_history ctx = Some h →
  get_gemini_response gemini_model ctx p w =
    match gemini_model (gemini_calls w) (format_history h) p with
    | Answer t =>
      (Val (Some t),
       mkWorld (outline w)
         (<[gemini_history ctx := h ++ [mkMessage "user" p; mkMessage "model" t]]> (heap w))
         (claude_calls w) (S (gemini_calls w))
         (log w ++ [GeminiRequest (step_name ctx) (format_history h) p]))
    | Raises e =>
      (Val None,
       mkWorld (outline w) (heap w) (claude_calls w) (S (gemini_calls w))
         (log w ++ [GeminiRequest (step_name ctx) (format_history h) p;
                    LogGeminiError e]))
    end.
Proof.
  intros Hl. pose proof (lookup_lt_Some _ _ _ Hl) as Hlt.
  unfold get_gemini_response, try_except, bind, heap_append, heap_read,
    send_message, emit, ret. simpl. rewrite Hl. simpl.
  destruct (gemini_model _ _ _) as [t|e]; simpl.
  - rewrite Hl. simpl. rewrite list_lookup_insert_eq by done.
    unfold set_heap, add_log; simpl.
    by rewrite list_insert_insert_eq, <- app_assoc.
  - unfold add_log; simpl. by rewrite <- app_assoc.
Qed.

(** On a context whose history does not exist the wrappers fail before any
    call is made. *)
Lemma get_claude_response_dangling (ctx : RevisionContext) (p : string) (w : World) :
  heap w !! claude_messages ctx = None →
  get_claude_response anthropic_client ctx p w =
    (Val None, add_log (LogClaudeError "ReferenceError") w).
Proof.
  intros Hl. unfold get_claude_response, try_except, bind, heap_append. simpl.
  by rewrite Hl.
Qed.

Lemma get_gemini_response_dangling (ctx : RevisionContext) (p : string) (w : World) :
  heap w !! gemini_history ctx = None →
  get_gemini_response gemini_model ctx p w =
    (Val None, add_log (LogGeminiError "ReferenceError") w).
Proof.
  intros Hl. unfold get_gemini_response, try_except, bind, heap_read. simpl.
  by rewrite Hl.
Qed.

(** The wrappers always return, and change nothing but their history and
    the log. *)
Lemma get_claude_response_total (ctx : RevisionContext) (p : string) (w : World) :
  ∃ r w', get_claude_response anthropic_client ctx p w = (Val r, w') ∧
          outline w' = outline w ∧ length (heap w') = length (heap w) ∧
          ∀ i, evolves i (step_name ctx) w w'.
Proof.
  destruct (heap w !! claude_messages ctx) as [h|] eqn:Hl.
  - rewrite (get_claude_response_run ctx p w h Hl). cbv zeta.
    destruct (anthropic_client _ _) as [t|e]; eexists _, _;
      (split; [reflexivity |]); simpl;
      (split; [done |]); (split; [by rewrite length_insert |]); intros i;
      eapply evolves_quiet; try reflexivity; try done.
    + eapply heap_grows_insert; [exact Hl | | reflexivity].
      rewrite <- app_assoc. by apply prefix_app_r.
    + solve_tagged.
    + eapply heap_grows_insert; [exact Hl | | reflexivity]. by apply prefix_app_r.
    + solve_tagged.
  - rewrite (get_claude_response_dangling ctx p w Hl). eexists _, _.
    split; [reflexivity |]. do 2 (split; [done |]). intros i.
    apply evolves_emit. by right.
Qed.

Lemma get_gemini_response_total (ctx : RevisionContext) (p : string) (w : World) :
  ∃ r w', get_gemini_response gemini_model ctx p w = (Val r, w') ∧
          outline w' = outline w ∧ length (heap w') = length (heap w) ∧
          ∀ i, evolves i (step_name ctx) w w'.
Proof.
  destruct (heap w !! gemini_history ctx) as [h|] eqn:Hl.
  - rewrite (get_gemini_response_run ctx p w h Hl).
    destruct (gemini_model _ _ _) as [t|e]; eexists _, _;
      (split; [reflexivity |]); simpl;
      (split; [done |]); (split; [by rewrite ?length_insert |]); intros i;
      eapply evolves_quiet; try reflexivity; try done.
    + eapply heap_grows_insert; [exact Hl | | reflexivity]. by apply prefix_app_r.
    + solve_tagged.
    + by apply heap_grows_same.
    + solve_tagged.
  - rewrite (get_gemini_response_dangling ctx p w Hl). eexists _, _.
    split; [reflexivity |]. do 2 (split; [done |]). intros i.
    apply evolves_emit. by right.
Qed.

End Gateway.

(** ** Running computations *)

Lemma bind_val {A B} (m : M A) (k : A → M B) (w w' : World) (a : A) :
  m w = (Val a, w') → bind m k w = k a w'.
Proof. intros H. unfold bind. by rewrite H. Qed.

Lemma bind_exc {A B} (m : M A) (k : A → M B) (w w' : World) (e : string) :
  m w = (Exc e, w') → bind m k w = (Exc e, w').
Proof. intros H. unfold bind. by rewrite H. Qed.

Lemma bind_out_of_fuel {A B} (m : M A) (k : A → M B) (w w' : World) :
  m w = (OutOfFuel, w') → bind m k w = (OutOfFuel, w').
Proof. intros H. unfold bind. by rewrite H. Qed.

Lemma bind_bind {A B C} (m : M A) (f : A → M B) (g : B → M C) (w : World) :
  bind (bind m f) g w = bind m (λ a, bind (f a) g) w.
Proof. unfold bind. by destruct (m w) as [[a|e|] w']. Qed.

Lemma bind_ext {A B} (m : M A) (f g : A → M B) (w : World) :
  (∀ a w', f a w' = g a w') → bind m f w = bind m g w.
Proof. intros H. unfold bind. by destruct (m w) as [[a|e|] w']. Qed.

Lemma bind_emit {B} (e : Event) (k : unit → M B) (w : World) :
  bind (emit e) k w = k tt (add_log e w).
Proof. done. Qed.

Lemma get_step_val (i : nat) (s : Step) (w : World) :
  outline w !! i = Some s → get_step i w = (Val s, w).
Proof. intros H. unfold get_step. by rewrite H. Qed.

Lemma heap_read_val (l : nat) (h : list Message) (w : World) :
  heap w !! l = Some h → heap_read l w = (Val h, w).
Proof. intros H. unfold heap_read. by rewrite H. Qed.

Lemma set_content_val (i : nat) (s : Step) (text : string) (w : World) :
  outline w !! i = Some s →
  set_content i text w =
    (Val tt, set_outline (<[i := mkStep (name s) text]> (outline w)) w).
Proof. intros H. unfold set_content. by rewrite H. Qed.

(** ** Revision protocol *)

Section Protocol.

Variable MAX_ITERATIONS : Z.
Variable anthropic_client : AnthropicClient.
Variable gemini_model : GenerativeModel.

Local Abbreviation loop := (while_loop MAX_ITERATIONS anthropic_client gemini_model).
Local Abbreviation instruct := (instruct_phase anthropic_client).
Local Abbreviation revise := (get_gemini_response gemini_model).
Local Abbreviation reviewing := (review_phase anthropic_client).

Lemma instruct_phase_total (i : nat) (ctx : RevisionContext) (w : World) (s : Step) :
  outline w !! i = Some s →
  gemini_history ctx < length (heap w) →
  ∃ r w', instruct i ctx w = (Val r, w') ∧
          outline w' = outline w ∧ length (heap w') = length (heap w) ∧
          (name s = step_name ctx → ∀ j, evolves j (step_name ctx) w w').
Proof.
  intros Hs Hl. apply lookup_lt_is_Some in Hl as [h Hh].
  unfold instruct_phase.
  rewrite (bind_val _ _ _ _ _ (get_step_val i s w Hs)), bind_emit.
  erewrite bind_val by (by apply heap_read_val).
  destruct (get_claude_response_total anthropic_client ctx
              (claude_prompt_of ctx h)
              (add_log (LogIteration (current_iteration ctx) (name s)) w))
    as (r & w' & Hrun & Ho & Hlen & Hev).
  exists r, w'. split; [done |]. do 2 (split; [done |]). intros Hn j.
  eapply evolves_trans; [| apply Hev]. apply evolves_emit. left. simpl. by f_equal.
Qed.

Lemma review_phase_total (ctx : RevisionContext) (rc : string) (w : World) :
  gemini_history ctx < length (heap w) →
  ∃ r w', reviewing ctx rc w = (Val r, w') ∧
          outline w' = outline w ∧ length (heap w') = length (heap w) ∧
          ∀ j, evolves j (step_name ctx) w w'.
Proof.
  intros Hl. apply lookup_lt_is_Some in Hl as [h Hh].
  unfold review_phase. erewrite bind_val by (by apply heap_read_val).
  apply get_claude_response_total.
Qed.

(** The loop, one round at a time: the instruction, the revision, the review
    and the decision. *)
Lemma while_loop_unfold (fuel i : nat) (ctx : RevisionContext) (w : World) :
  loop (S fuel) i ctx w =
    if (current_iteration ctx <=? MAX_ITERATIONS)%Z then
      bind (instruct i ctx) (λ gemini_prompt,
        match gemini_prompt with
        | Some (String c0 s0) =>
          bind (revise ctx (String c0 s0)) (λ revised_content,
            match revised_content with
            | Some (String c1 s1) =>
              bind (reviewing ctx (String c1 s1)) (λ verdict,
                match verdict with
                | Some (String c2 s2) =>
                  let round := mkRound gemini_prompt revised_content verdict in
                  if accepting (String c2 s2) then
                    set_content i (String c1 s1) ;;;
                    do! step <- get_step i;
                    emit (LogAccepted (name step)) ;;;
                    ret (mkOutcome Accepted ctx [round])
                  else
                    do! o <- loop fuel i (next_iteration ctx);
                    ret (add_round round o)
                | _ => ret (mkOutcome Aborted ctx
                              [mkRound gemini_prompt revised_content verdict])
                end)
            | _ => ret (mkOutcome Aborted ctx
                          [mkRound gemini_prompt revised_content None])
            end)
        | _ => ret (mkOutcome Aborted ctx [mkRound gemini_prompt None None])
        end) w
    else
      (do! step <- get_step i;
       emit (LogMaxIterations (name step)) ;;;
       ret (mkOutcome Exhausted ctx [])) w.
Proof.
  cbn [while_loop]. destruct (current_iteration ctx <=? MAX_ITERATIONS)%Z; [| done].
  unfold instruct_phase, review_phase. symmetry.
  rewrite bind_bind. apply bind_ext; intros step w0.
  rewrite bind_bind. apply bind_ext; intros [] w1.
  rewrite bind_bind. apply bind_ext; intros h w2.
  apply bind_ext; intros [[|c0 s0]|] w3; try done.
  apply bind_ext; intros [[|c1 s1]|] w4; try done.
  rewrite bind_bind. apply bind_ext; intros h' w5.
  by apply bind_ext; intros [[|c2 s2]|] w6.
Qed.

(** The rounds the loop can still run from a context. *)
Local Abbreviation rounds_left ctx :=
  (Z.to_nat (MAX_ITERATIONS + 1 - current_iteration ctx)).

Lemma run_shape_add_round (i : nat) (s : Step) (w w1 w' : World) (o : Outcome)
    (r : Round) :
  rejected r → outline w1 = outline w →
  run_shape i s w1 w' o → run_shape i s w w' (add_round r o).
Proof.
  intros Hr Ho. unfold run_shape. simpl. rewrite Ho.
  destruct (exit o).
  - intros (pre & last & Ht & Hpre & Hrest). exists (r :: pre), last.
    rewrite Ht. split; [done |]. split; [by constructor | done].
  - intros (pre & last & rev & Ht & Hpre & Hrest). exists (r :: pre), last, rev.
    rewrite Ht. split; [done |]. split; [by constructor | done].
  - intros [Hall Hout]. split; [by constructor | done].
Qed.

(** The loop returns: with enough fuel it neither raises nor runs out, and
    its outcome has the shape of its exit. *)
Lemma while_loop_spec (fuel : nat) :
  ∀ (i : nat) (ctx : RevisionContext) (w : World) (s : Step),
    outline w !! i = Some s →
    name s = step_name ctx →
    gemini_history ctx < length (heap w) →
    rounds_left ctx < fuel →
    ∃ o w', loop fuel i ctx w = (Val o, w') ∧
      evolves i (step_name ctx) w w' ∧
      length (heap w') = length (heap w) ∧
      claude_messages (context o) = claude_messages ctx ∧
      gemini_history (context o) = gemini_history ctx ∧
      length (transcript o) ≤ rounds_left ctx ∧
      (exit o = Exhausted → length (transcript o) = rounds_left ctx) ∧
      run_shape i s w w' o.
Proof.
  induction fuel as [|fuel IH]; intros i ctx w s Hs Hn Hl Hfuel; [lia |].
  rewrite while_loop_unfold.
  destruct (current_iteration ctx <=? MAX_ITERATIONS)%Z eqn:Htest.
  - apply Z.leb_le in Htest.
    destruct (instruct_phase_total i ctx w s Hs Hl)
      as (g & w1 & Hrun1 & Ho1 & Hlen1 & Hev1).
    rewrite (bind_val _ _ _ _ _ Hrun1). specialize (Hev1 Hn i).
    assert (∀ r v, truthy g = false ∨ truthy r = false ∨ truthy v = false →
              (v = None ∨ v = Some "") →
              ∀ w2, outline w2 = outline w → length (heap w2) = length (heap w) →
              evolves i (step_name ctx) w w2 →
              ∃ o w', ret (mkOutcome Aborted ctx [mkRound g r v]) w2 = (Val o, w') ∧
                evolves i (step_name ctx) w w' ∧
                length (heap w') = length (heap w) ∧
                claude_messages (context o) = claude_messages ctx ∧
                gemini_history (context o) = gemini_history ctx ∧
                length (transcript o) ≤ rounds_left ctx ∧
                (exit o = Exhausted → length (transcript o) = rounds_left ctx) ∧
                run_shape i s w w' o) as Habort.
    { intros r v Hfalsy Hv w2 Ho2 Hlen2 Hev2. eexists _, _.
      split; [reflexivity |]. simpl. do 4 (split; [done |]).
      split; [lia |]. split; [done |].
      exists [], (mkRound g r v). split; [done |]. split; [done |].
      split; [| split; [by destruct Hv as [-> | ->] | done]].
      unfold round_complete. simpl.
      destruct Hfalsy as [-> | [-> | ->]];
        rewrite ?andb_false_r, ?andb_false_l; done. }
    destruct g as [[|c0 s0]|]; [by apply Habort; auto | | by apply Habort; auto].
    destruct (get_gemini_response_total gemini_model ctx (String c0 s0) w1)
      as (rc & w2 & Hrun2 & Ho2 & Hlen2 & Hev2).
    rewrite (bind_val _ _ _ _ _ Hrun2). specialize (Hev2 i).
    assert (evolves i (step_name ctx) w w2) as Hev12 by (by eapply evolves_trans).
    destruct rc as [[|c1 s1]|];
      [apply Habort; auto; congruence | | apply Habort; auto; congruence].
    destruct (review_phase_total ctx (String c1 s1) w2 ltac:(lia))
      as (v & w3 & Hrun3 & Ho3 & Hlen3 & Hev3).
    rewrite (bind_val _ _ _ _ _ Hrun3). specialize (Hev3 i).
    assert (evolves i (step_name ctx) w w3) as Hev13 by (by eapply evolves_trans).
    assert (outline w3 = outline w) as Ho13 by congruence.
    destruct v as [[|c2 s2]|];
      [apply Habort; auto; congruence | | apply Habort; auto; congruence].
    cbv zeta. destruct (accepting (String c2 s2)) eqn:Hacc.
    + assert (outline w3 !! i = Some s) as Hs3 by (by rewrite Ho13).
      rewrite (bind_val _ _ _ _ _ (set_content_val i s (String c1 s1) w3 Hs3)).
      erewrite bind_val; cycle 1.
      { apply get_step_val. simpl. apply list_lookup_insert_eq.
        by eapply lookup_lt_Some. }
      rewrite bind_emit. eexists _, _. split; [reflexivity |]. simpl.
      split.
      { eapply evolves_trans; [exact Hev13 |].
        eapply evolves_trans; [by apply evolves_set_content |].
        apply evolves_emit. left. simpl. by f_equal. }
      split; [lia |]. do 2 (split; [done |]). split; [lia |]. split; [done |].
      eexists [], _, _. split; [done |]. split; [done |].
      split; [done |]. split; [done |]. split; [done |]. by rewrite Ho13.
    + destruct (IH i (next_iteration ctx) w3 s) as
        (o & w' & Hrun & Hev & Hlen & Hcm & Hgh & Hbound & Hexh & Hshape);
        [by rewrite Ho13 | done | simpl; lia | simpl; lia |].
      rewrite (bind_val _ _ _ _ _ Hrun). eexists _, _.
      split; [reflexivity |]. simpl in *.
      split; [by eapply evolves_trans |]. split; [lia |].
      do 2 (split; [done |]). split; [lia |].
      split; [intros He; specialize (Hexh He); lia |].
      eapply run_shape_add_round; [| exact Ho13 | done].
      by split.
  - apply Z.leb_gt in Htest.
    rewrite (bind_val _ _ _ _ _ (get_step_val i s w Hs)), bind_emit.
    eexists _, _. split; [reflexivity |]. simpl.
    split; [apply evolves_emit; left; simpl; by f_equal |].
    do 3 (split; [done |]). split; [lia |]. split; [lia |]. by split.
Qed.

Local Abbreviation protocol :=
  (revise_step_with_llms MAX_ITERATIONS anthropic_client gemini_model).

(** [revise_step_with_llms] is the loop, started at iteration 1 on a context
    whose two histories are new empty lists. *)
Lemma revise_step_with_llms_alloc (i : nat) (req : string) (w : World) (s : Step) :
  outline w !! i = Some s →
  protocol i req w =
    loop (S (Z.to_nat MAX_ITERATIONS)) i
      (mkRevisionContext (name s) (content s) req
         (length (heap w)) (S (length (heap w))) 1)
      (set_heap (heap w ++ [[]; []]) w).
Proof.
  intros Hs. unfold revise_step_with_llms.
  rewrite (bind_val _ _ _ _ _ (get_step_val i s w Hs)).
  unfold heap_alloc, bind, set_heap. simpl.
  rewrite length_app, <- app_assoc. simpl. by rewrite Nat.add_1_r.
Qed.

Lemma revise_step_with_llms_spec (i : nat) (req : string) (w : World) (s : Step) :
  outline w !! i = Some s →
  ∃ o w', protocol i req w = (Val o, w') ∧
    evolves i (name s) w w' ∧
    length (heap w') = length (heap w) + 2 ∧
    claude_messages (context o) = length (heap w) ∧
    gemini_history (context o) = S (length (heap w)) ∧
    length (transcript o) ≤ Z.to_nat MAX_ITERATIONS ∧
    (exit o = Exhausted → length (transcript o) = Z.to_nat MAX_ITERATIONS) ∧
    run_shape i s w w' o.
Proof.
  intros Hs. rewrite (revise_step_with_llms_alloc i req w s Hs).
  set (ctx := mkRevisionContext _ _ _ _ _ _).
  set (w0 := set_heap _ w).
  assert (evolves i (name s) w w0) as Hev0.
  { apply (evolves_quiet i (name s) w w0 []); [done | | by rewrite app_nil_r | done].
    by eapply heap_grows_alloc. }
  destruct (while_loop_spec (S (Z.to_nat MAX_ITERATIONS)) i ctx w0 s)
    as (o & w' & Hrun & Hev & Hlen & Hcm & Hgh & Hbound & Hexh & Hshape);
    [done | done | simpl; rewrite length_app; simpl; lia | simpl; lia |].
  exists o, w'. split; [done |]. simpl in *.
  replace (MAX_ITERATIONS + 1 - 1)%Z with MAX_ITERATIONS in * by lia.
  split; [by eapply evolves_trans |].
  split; [rewrite Hlen, length_app; simpl; lia |].
  by do 4 (split; [done |]).
Qed.

(** Reading a round off a transcript that ends with a distinguished round. *)
Lemma lookup_snoc_cases {A} (P : A → Prop) (pre : list A) (last : A) (k : nat) (r : A) :
  Forall P pre → (pre ++ [last]) !! k = Some r →
  P r ∨ (k = length pre ∧ r = last).
Proof.
  intros Hpre Hk. destruct (decide (k < length pre)) as [Hlt|Hge].
  - left. rewrite lookup_app_l in Hk by done.
    eapply Forall_lookup_1; [exact Hpre | exact Hk].
  - right. rewrite lookup_app_r in Hk by lia.
    destruct (k - length pre) as [|m] eqn:Hm; simpl in Hk; [| done].
    split; [lia | congruence].
Qed.

(** A round whose review accepts is the last one, and the run is
    accepted with that round's revision as the step's content. *)
Lemma accepting_round_ends (i : nat) (s : Step) (w w' : World) (o : Outcome)
    (k : nat) (r : Round) :
  run_shape i s w w' o → transcript o !! k = Some r → round_accepts r = true →
  exit o = Accepted ∧ length (transcript o) = S k ∧
  ∃ rev, revision r = Some rev ∧
         outline w' = <[i := mkStep (name s) rev]> (outline w).
Proof.
  unfold run_shape. intros Hshape Hk Hacc. destruct (exit o).
  - destruct Hshape as (pre & last & Ht & Hpre & _ & Hlast & _).
    rewrite Ht in Hk.
    destruct (lookup_snoc_cases rejected pre last k r Hpre Hk)
      as [[_ Hr] | [_ ->]]; congruence.
  - destruct Hshape as (pre & last & rev & Ht & Hpre & _ & _ & Hrev & Hout).
    rewrite Ht in Hk.
    destruct (lookup_snoc_cases rejected pre last k r Hpre Hk)
      as [[_ Hr] | [-> ->]]; [congruence |].
    split; [done |]. split; [rewrite Ht, length_app; simpl; lia |]. by exists rev.
  - destruct Hshape as [Hall _].
    pose proof (Forall_lookup_1 _ _ _ _ Hall Hk) as [_ Hr]. congruence.
Qed.

(** The last round of an accepted run is one whose review accepts. *)
Lemma accepted_run_last (i : nat) (s : Step) (w w' : World) (o : Outcome)
    (k : nat) (r : Round) :
  run_shape i s w w' o → exit o = Accepted →
  length (transcript o) = S k → transcript o !! k = Some r →
  round_accepts r = true.
Proof.
  unfold run_shape. intros Hshape He Hlen Hk. rewrite He in Hshape.
  destruct Hshape as (pre & last & rev & Ht & _ & _ & Hlast & _).
  rewrite Ht in Hk, Hlen. rewrite length_app in Hlen. simpl in Hlen.
  rewrite lookup_app_r in Hk by lia.
  replace (k - length pre) with 0 in Hk by lia. simpl in Hk. congruence.
Qed.

Lemma instruct_phase_outline (i : nat) (ctx : RevisionContext) (w w1 : World)
    (r : Res (option string)) :
  instruct i ctx w = (r, w1) → outline w1 = outline w.
Proof.
  unfold instruct_phase, bind at 1, get_step.
  destruct (outline w !! i) as [s|]; [| by intros [= _ <-]].
  rewrite bind_emit. unfold bind at 1, heap_read. simpl.
  destruct (heap w !! gemini_history ctx) as [h|]; [| by intros [= _ <-]].
  destruct (get_claude_response_total anthropic_client ctx (claude_prompt_of ctx h)
              (add_log (LogIteration (current_iteration ctx) (name s)) w))
    as (r' & w' & -> & Ho & _). by intros [= _ <-].
Qed.

Lemma review_phase_outline (ctx : RevisionContext) (rc : string) (w w1 : World)
    (r : Res (option string)) :
  reviewing ctx rc w = (r, w1) → outline w1 = outline w.
Proof.
  unfold review_phase, bind at 1, heap_read.
  destruct (heap w !! gemini_history ctx) as [h|]; [| by intros [= _ <-]].
  destruct (get_claude_response_total anthropic_client ctx
              (review_prompt_of ctx rc h) w) as (r' & w' & -> & Ho & _).
  by intros [= _ <-].
Qed.

Lemma revise_outline (ctx : RevisionContext) (p : string) (w w1 : World)
    (r : Res (option string)) :
  revise ctx p w = (r, w1) → outline w1 = outline w.
Proof.
  destruct (get_gemini_response_total gemini_model ctx p w) as (r' & w' & -> & Ho & _).
  by intros [= _ <-].
Qed.

(** The phases, on a context whose revision history exists. *)
Lemma instruct_phase_run (i : nat) (ctx : RevisionContext) (w : World) (s : Step)
    (h : list Message) :
  outline w !! i = Some s → heap w !! gemini_history ctx = Some h →
  instruct i ctx w =
    get_claude_response anthropic_client ctx (claude_prompt_of ctx h)
      (add_log (LogIteration (current_iteration ctx) (name s)) w).
Proof.
  intros Hs Hh. unfold instruct_phase.
  rewrite (bind_val _ _ _ _ _ (get_step_val i s w Hs)), bind_emit.
  by rewrite (bind_val _ _ _ _ h
                (heap_read_val _ h
                   (add_log (LogIteration (current_iteration ctx) (name s)) w) Hh)).
Qed.

Lemma review_phase_run (ctx : RevisionContext) (rc : string) (w : World)
    (h : list Message) :
  heap w !! gemini_history ctx = Some h →
  reviewing ctx rc w =
    get_claude_response anthropic_client ctx (review_prompt_of ctx rc h) w.
Proof.
  intros Hh. unfold review_phase.
  by rewrite (bind_val _ _ _ _ h (heap_read_val _ h _ Hh)).
Qed.

(** A round whose three calls answer and whose review does not accept: the
    loop goes on with the next iteration. *)
Lemma rejected_round (fuel i : nat) (ctx : RevisionContext) (w w1 w2 w3 : World)
    (gp rev v : string) :
  (current_iteration ctx ≤ MAX_ITERATIONS)%Z →
  instruct i ctx w = (Val (Some gp), w1) → gp ≠ "" →
  revise ctx gp w1 = (Val (Some rev), w2) → rev ≠ "" →
  reviewing ctx rev w2 = (Val (Some v), w3) → v ≠ "" →
  accepting v = false →
  loop (S fuel) i ctx w =
    bind (loop fuel i (next_iteration ctx))
      (λ o, ret (add_round (mkRound (Some gp) (Some rev) (Some v)) o)) w3.
Proof.
  intros Hle Hrun1 Hgp Hrun2 Hrev Hrun3 Hv Hacc.
  apply Z.leb_le in Hle. rewrite while_loop_unfold, Hle.
  rewrite (bind_val _ _ _ _ _ Hrun1). destruct gp as [|c0 s0]; [done |].
  rewrite (bind_val _ _ _ _ _ Hrun2). destruct rev as [|c1 s1]; [done |].
  rewrite (bind_val _ _ _ _ _ Hrun3). destruct v as [|c2 s2]; [done |].
  cbv zeta. by rewrite Hacc.
Qed.

(** A round whose three calls answer and whose review accepts: the revision
    becomes the step's content and the loop returns the plan. *)
Lemma accepted_round (fuel i : nat) (ctx : RevisionContext) (w w1 w2 w3 : World)
    (s : Step) (gp rev v : string) :
  (current_iteration ctx ≤ MAX_ITERATIONS)%Z →
  outline w !! i = Some s →
  instruct i ctx w = (Val (Some gp), w1) → gp ≠ "" →
  revise ctx gp w1 = (Val (Some rev), w2) → rev ≠ "" →
  reviewing ctx rev w2 = (Val (Some v), w3) → v ≠ "" →
  accepting v = true →
  loop (S fuel) i ctx w =
    (Val (mkOutcome Accepted ctx [mkRound (Some gp) (Some rev) (Some v)]),
     add_log (LogAccepted (name s))
       (set_outline (<[i := mkStep (name s) rev]> (outline w3)) w3)).
Proof.
  intros Hle Hs Hrun1 Hgp Hrun2 Hrev Hrun3 Hv Hacc.
  assert (outline w3 !! i = Some s) as Hs3.
  { rewrite (review_phase_outline _ _ _ _ _ Hrun3), (revise_outline _ _ _ _ _ Hrun2),
      (instruct_phase_outline _ _ _ _ _ Hrun1). exact Hs. }
  apply Z.leb_le in Hle. rewrite while_loop_unfold, Hle.
  rewrite (bind_val _ _ _ _ _ Hrun1). destruct gp as [|c0 s0]; [done |].
  rewrite (bind_val _ _ _ _ _ Hrun2). destruct rev as [|c1 s1]; [done |].
  rewrite (bind_val _ _ _ _ _ Hrun3). destruct v as [|c2 s2]; [done |].
  cbv zeta. rewrite Hacc.
  rewrite (bind_val _ _ _ _ _ (set_content_val i s _ w3 Hs3)).
  erewrite bind_val; cycle 1.
  { apply get_step_val. simpl. apply list_lookup_insert_eq.
    by eapply lookup_lt_Some. }
  by rewrite bind_emit.
Qed.

(** The loop test fails: the loop is left through the exhausted exit. *)
Lemma exhausted_exit (fuel i : nat) (ctx : RevisionContext) (w : World) (s : Step) :
  (MAX_ITERATIONS < current_iteration ctx)%Z →
  outline w !! i = Some s →
  loop (S fuel) i ctx w =
    (Val (mkOutcome Exhausted ctx []), add_log (LogMaxIterations (name s)) w).
Proof.
  intros Hlt Hs. apply Z.leb_gt in Hlt. rewrite while_loop_unfold, Hlt.
  by rewrite (bind_val _ _ _ _ _ (get_step_val i s w Hs)), bind_emit.
Qed.

End Protocol.

(** ** The protocol's claims *)

Section ProtocolClaims.

Variable MAX_ITERATIONS : Z.
Variable anthropic_client : AnthropicClient.
Variable gemini_model : GenerativeModel.

Local Abbreviation loop := (while_loop MAX_ITERATIONS anthropic_client gemini_model).
Local Abbreviation protocol :=
  (revise_step_with_llms MAX_ITERATIONS anthropic_client gemini_model).

(** C1, as amended.  On every step of the outline the protocol returns after
    at most [MAX_ITERATIONS] rounds, whatever the providers reply.  Unless it
    leaves through the accepting exit the outline, and so the step's
    content, is what it was before the loop.  If every round it ran was
    rejected (its three calls came back with a non-empty text and its review
    was not accepting), it leaves through the exhausted exit, after exactly
    [MAX_ITERATIONS] rounds. *)
Theorem revision_rounds_bounded (w : World) (i : nat) (s : Step) (req : string) :
  outline w !! i = Some s →
  ∃ o w', protocol i req w = (Val o, w') ∧
    length (transcript o) ≤ Z.to_nat MAX_ITERATIONS ∧
    (exit o ≠ Accepted → outline w' = outline w) ∧
    (Forall rejected (transcript o) →
       exit o = Exhausted ∧
       length (transcript o) = Z.to_nat MAX_ITERATIONS ∧
       outline w' = outline w).
Proof.
  intros Hs.
  destruct (revise_step_with_llms_spec MAX_ITERATIONS anthropic_client gemini_model
              i req w s Hs)
    as (o & w' & Hrun & _ & _ & _ & _ & Hbound & Hexh & Hshape).
  exists o, w'. split; [done |]. split; [done |].
  unfold run_shape in Hshape. destruct (exit o) eqn:He.
  - destruct Hshape as (pre & last & Ht & _ & Hlast & _ & Hout).
    split; [done |]. intros Hall. rewrite Ht in Hall.
    apply Forall_app in Hall as [_ Hl]. apply Forall_singleton in Hl as [Hc _].
    congruence.
  - destruct Hshape as (pre & last & rev & Ht & _ & _ & Hlast & _).
    split; [done |]. intros Hall. rewrite Ht in Hall.
    apply Forall_app in Hall as [_ Hl]. apply Forall_singleton in Hl as [_ Ha].
    congruence.
  - destruct Hshape as [_ Hout]. split; [done |]. intros _. auto.
Qed.

(** C2.  If the review of the run's round [k + 1] is classified as
    accepting, that round's revision has been written into the step's
    content, the plan is returned, and round [k + 1] is the last round of
    the run (and is within the bound). *)
Theorem accepted_revision_is_written (w : World) (i : nat) (s : Step) (req : string) :
  outline w !! i = Some s →
  ∃ o w', protocol i req w = (Val o, w') ∧
    ∀ k r v,
      transcript o !! k = Some r → review r = Some v → accepting v = true →
      ∃ rev, revision r = Some rev ∧
             outline w' = <[i := mkStep (name s) rev]> (outline w) ∧
             exit o = Accepted ∧ returned_plan o = Some plan_ref ∧
             length (transcript o) = S k ∧
             S k ≤ Z.to_nat MAX_ITERATIONS.
Proof.
  intros Hs.
  destruct (revise_step_with_llms_spec MAX_ITERATIONS anthropic_client gemini_model
              i req w s Hs)
    as (o & w' & Hrun & _ & _ & _ & _ & Hbound & _ & Hshape).
  exists o, w'. split; [done |]. intros k r v Hk Hv Hacc.
  destruct (accepting_round_ends i s w w' o k r Hshape Hk)
    as (He & Hlen & rev & Hrev & Hout).
  { unfold round_accepts. by rewrite Hv. }
  exists rev. do 2 (split; [done |]). split; [done |].
  split; [unfold returned_plan; by rewrite He |]. split; [done | lia].
Qed.

(** C5.  The reply [v] to the review of a round makes the protocol accept at
    that round exactly when the upper-cased [v] has [YES] as a substring.
    In terms of [v] itself that is a case-insensitive match and nothing
    else: [v] holds, one after the other, a [y] or [Y], an [e] or [E], and
    an [s] or [S] or one of the four characters that [str.upper] turns
    into a text beginning with [S] (sharp s, long s and the two ligatures
    of s and t). *)
Theorem verdict_is_substring_match (w : World) (i : nat) (s : Step) (req : string) :
  outline w !! i = Some s →
  ∃ o w', protocol i req w = (Val o, w') ∧
    ∀ k r v,
      transcript o !! k = Some r → review r = Some v →
      (exit o = Accepted ∧ length (transcript o) = S k
       ↔ ∃ pre post, upper v = pre +:+ "YES" +:+ post) ∧
      ((∃ pre post, upper v = pre +:+ "YES" +:+ post)
       ↔ ∃ pre y e z post,
           v = pre +:+ y +:+ e +:+ z +:+ post ∧
           y ∈ ["y"; "Y"] ∧ e ∈ ["e"; "E"] ∧ z ∈ ["s"; "S"; "ß"; "ſ"; "ﬅ"; "ﬆ"]).
Proof.
  intros Hs.
  destruct (revise_step_with_llms_spec MAX_ITERATIONS anthropic_client gemini_model
              i req w s Hs)
    as (o & w' & Hrun & _ & _ & _ & _ & _ & _ & Hshape).
  exists o, w'. split; [done |]. intros k r v Hk Hv.
  rewrite <- accepting_spec. split; [| by rewrite accepting_yes_in, yes_in_spec].
  split.
  - intros [He Hlen].
    pose proof (accepted_run_last i s w w' o k r Hshape He Hlen Hk) as Hacc.
    unfold round_accepts in Hacc. by rewrite Hv in Hacc.
  - intros Hacc.
    destruct (accepting_round_ends i s w w' o k r Hshape Hk) as (He & Hlen & _).
    { unfold round_accepts. by rewrite Hv. }
    done.
Qed.

(** C6.  The two wrappers never raise: they return, and with [None] when
    the provider raised.  In a round of the loop, as soon as one of the three
    calls comes back with [None] (or with an empty text) the loop returns
    [(None, context)] in the world the call left, the outline untouched. *)
Theorem failures_abort_the_revision :
  (∀ ctx p w, ∃ r w',
      get_claude_response anthropic_client ctx p w = (Val r, w') ∧
      ∀ h e, heap w !! claude_messages ctx = Some h →
             anthropic_client (claude_calls w) (h ++ [mkMessage "user" p]) = Raises e →
             r = None) ∧
  (∀ ctx p w, ∃ r w',
      get_gemini_response gemini_model ctx p w = (Val r, w') ∧
      ∀ h e, heap w !! gemini_history ctx = Some h →
             gemini_model (gemini_calls w) (format_history h) p = Raises e →
             r = None) ∧
  (∀ fuel i ctx w g w1,
      (current_iteration ctx ≤ MAX_ITERATIONS)%Z →
      instruct_phase anthropic_client i ctx w = (Val g, w1) →
      truthy g = false →
      ∃ o, loop (S fuel) i ctx w = (Val o, w1) ∧
           returned_plan o = None ∧ context o = ctx ∧
           transcript o = [mkRound g None None] ∧ outline w1 = outline w) ∧
  (∀ fuel i ctx w gp w1 rc w2,
      (current_iteration ctx ≤ MAX_ITERATIONS)%Z →
      instruct_phase anthropic_client i ctx w = (Val (Some gp), w1) →
      truthy (Some gp) = true →
      get_gemini_response gemini_model ctx gp w1 = (Val rc, w2) →
      truthy rc = false →
      ∃ o, loop (S fuel) i ctx w = (Val o, w2) ∧
           returned_plan o = None ∧ context o = ctx ∧
           transcript o = [mkRound (Some gp) rc None] ∧ outline w2 = outline w) ∧
  (∀ fuel i ctx w gp w1 rev w2 v w3,
      (current_iteration ctx ≤ MAX_ITERATIONS)%Z →
      instruct_phase anthropic_client i ctx w = (Val (Some gp), w1) →
      truthy (Some gp) = true →
      get_gemini_response gemini_model ctx gp w1 = (Val (Some rev), w2) →
      truthy (Some rev) = true →
      review_phase anthropic_client ctx rev w2 = (Val v, w3) →
      truthy v = false →
      ∃ o, loop (S fuel) i ctx w = (Val o, w3) ∧
           returned_plan o = None ∧ context o = ctx ∧
           transcript o = [mkRound (Some gp) (Some rev) v] ∧ outline w3 = outline w).
Proof.
  split; [| split; [| split; [| split]]].
  - intros ctx p w.
    destruct (get_claude_response_total anthropic_client ctx p w)
      as (r & w' & Hrun & _).
    exists r, w'. split; [done |]. intros h e Hh He.
    rewrite (get_claude_response_run anthropic_client ctx p w h Hh) in Hrun.
    cbv zeta in Hrun. rewrite He in Hrun. congruence.
  - intros ctx p w.
    destruct (get_gemini_response_total gemini_model ctx p w)
      as (r & w' & Hrun & _).
    exists r, w'. split; [done |]. intros h e Hh He.
    rewrite (get_gemini_response_run gemini_model ctx p w h Hh), He in Hrun.
    congruence.
  - intros fuel i ctx w g w1 Hle Hrun1 Hg.
    apply Z.leb_le in Hle. rewrite while_loop_unfold, Hle.
    rewrite (bind_val _ _ _ _ _ Hrun1).
    pose proof (instruct_phase_outline _ _ _ _ _ _ Hrun1) as Ho1.
    destruct g as [[|c0 s0]|]; [| done |]; by eexists.
  - intros fuel i ctx w gp w1 rc w2 Hle Hrun1 Hgp Hrun2 Hrc.
    apply Z.leb_le in Hle. rewrite while_loop_unfold, Hle.
    rewrite (bind_val _ _ _ _ _ Hrun1).
    pose proof (instruct_phase_outline _ _ _ _ _ _ Hrun1) as Ho1.
    pose proof (revise_outline _ _ _ _ _ _ Hrun2) as Ho2.
    destruct gp as [|c0 s0]; [done |].
    rewrite (bind_val _ _ _ _ _ Hrun2).
    destruct rc as [[|c1 s1]|]; [| done |]; eexists;
      (split; [reflexivity |]); repeat split; congruence.
  - intros fuel i ctx w gp w1 rev w2 v w3 Hle Hrun1 Hgp Hrun2 Hrev Hrun3 Hv.
    apply Z.leb_le in Hle. rewrite while_loop_unfold, Hle.
    rewrite (bind_val _ _ _ _ _ Hrun1).
    pose proof (instruct_phase_outline _ _ _ _ _ _ Hrun1) as Ho1.
    pose proof (revise_outline _ _ _ _ _ _ Hrun2) as Ho2.
    pose proof (review_phase_outline _ _ _ _ _ _ Hrun3) as Ho3.
    destruct gp as [|c0 s0]; [done |].
    rewrite (bind_val _ _ _ _ _ Hrun2).
    destruct rev as [|c1 s1]; [done |].
    rewrite (bind_val _ _ _ _ _ Hrun3).
    destruct v as [[|c2 s2]|]; [| done |]; eexists;
      (split; [reflexivity |]); repeat split; congruence.
Qed.

End ProtocolClaims.

(** ** Plan driver *)

Lemma driven_refl (rr : gmap string string) (w : World) : driven rr w w.
Proof.
  split; [done | done | apply heap_grows_refl |].
  exists []. by rewrite app_nil_r.
Qed.

Lemma driven_trans (rr : gmap string string) (w1 w2 w3 : World) :
  driven rr w1 w2 → driven rr w2 w3 → driven rr w1 w3.
Proof.
  intros [Hn1 Hf1 Hh1 (e1 & Hl1 & Ht1)] [Hn2 Hf2 Hh2 (e2 & Hl2 & Ht2)]. split.
  - congruence.
  - intros j s Hj Hr. apply Hf2; [by apply Hf1 | done].
  - by eapply heap_grows_trans.
  - exists (e1 ++ e2). split; [by rewrite Hl2, Hl1, app_assoc |].
    by apply Forall_app.
Qed.

Lemma driven_emit (rr : gmap string string) (e : Event) (w : World) :
  event_step e = None → driven rr w (add_log e w).
Proof.
  intros He. split; [done | done | by apply heap_grows_same |].
  exists [e]. split; [done |]. apply Forall_singleton. intros n Hn. congruence.
Qed.

(** Revising a requested step is a step of the driver. *)
Lemma evolves_driven (rr : gmap string string) (i : nat) (s : Step) (req : string)
    (w w' : World) :
  outline w !! i = Some s → rr !! name s = Some req →
  evolves i (name s) w w' → driven rr w w'.
Proof.
  intros Hs Hreq [Ho Hn Hh (evs & Hl & Ht)]. split; [done | | done |].
  - intros j s' Hj Hr. rewrite Ho; [done |]. intros ->. congruence.
  - exists evs. split; [done |]. eapply Forall_impl; [exact Ht |].
    intros e [He | He] n Hen; [| congruence].
    assert (n = name s) as -> by congruence. by exists req.
Qed.

Section DriverFacts.

Variable MAX_ITERATIONS : Z.
Variable anthropic_client : AnthropicClient.
Variable gemini_model : GenerativeModel.
Variable rr : gmap string string.

Local Abbreviation protocol :=
  (revise_step_with_llms MAX_ITERATIONS anthropic_client gemini_model).
Local Abbreviation for_each :=
  (for_each_step MAX_ITERATIONS anthropic_client gemini_model rr).
Local Abbreviation driver :=
  (further_revise_plan MAX_ITERATIONS anthropic_client gemini_model rr).

(** A step without a revision request is passed over. *)
Lemma for_each_step_skip (i : nat) (rest : list nat)
    (ctxs : gmap string RevisionContext) (w : World) (s : Step) :
  outline w !! i = Some s → rr !! name s = None →
  for_each (i :: rest) ctxs w = for_each rest ctxs w.
Proof.
  intros Hs Hr. cbn [for_each_step].
  rewrite (bind_val _ _ _ _ _ (get_step_val i s w Hs)). by rewrite Hr.
Qed.

(** A step with a revision request is revised; the loop goes on only if the
    protocol returned the plan. *)
Lemma for_each_step_revise (i : nat) (rest : list nat)
    (ctxs : gmap string RevisionContext) (w w' : World) (s : Step) (req : string)
    (o : Outcome) :
  outline w !! i = Some s → rr !! name s = Some req →
  protocol i req w = (Val o, w') →
  for_each (i :: rest) ctxs w =
    match returned_plan o with
    | None => (Val (None, ctxs), w')
    | Some _ => for_each rest (<[name s := context o]> ctxs) w'
    end.
Proof.
  intros Hs Hr Hrun. cbn [for_each_step].
  rewrite (bind_val _ _ _ _ _ (get_step_val i s w Hs)). rewrite Hr.
  unfold bind at 1, try_except, bind at 1. rewrite Hrun. simpl.
  by destruct (returned_plan o).
Qed.

(** The loop of the driver returns, and keeps the contexts in order. *)
Lemma for_each_step_spec (steps : list nat) :
  ∀ (ctxs : gmap string RevisionContext) (first : nat) (w : World),
    Forall (λ i, i < length (outline w)) steps →
    contexts_ok rr ctxs first w → first ≤ length (heap w) →
    ∃ r ctxs' w', for_each steps ctxs w = (Val (r, ctxs'), w') ∧
      driven rr w w' ∧ contexts_ok rr ctxs' first w'.
Proof.
  induction steps as [|i rest IH]; intros ctxs first w Hsteps Hctxs Hfirst.
  - exists (Some plan_ref), ctxs, w. split; [done |]. split; [apply driven_refl | done].
  - apply Forall_cons in Hsteps as [Hi Hrest].
    apply lookup_lt_is_Some in Hi as [s Hs].
    destruct (rr !! name s) as [req|] eqn:Hr.
    + destruct (revise_step_with_llms_spec MAX_ITERATIONS anthropic_client
                  gemini_model i req w s Hs)
        as (o & w1 & Hrun & Hev & Hlen & Hcm & Hgh & _ & _ & _).
      pose proof (evolves_driven rr i s req w w1 Hs Hr Hev) as Hdr.
      rewrite (for_each_step_revise i rest ctxs w w1 s req o Hs Hr Hrun).
      destruct Hctxs as (Hnone & Hlocs & Hsep).
      destruct (returned_plan o).
      * destruct (IH (<[name s := context o]> ctxs) first w1)
          as (r & ctxs' & w' & Hrun' & Hdr' & Hctxs').
        { eapply Forall_impl; [exact Hrest |]. intros j Hj. simpl in Hj.
          rewrite <- (length_fmap name (outline w1)), (dr_names _ _ _ Hdr),
            length_fmap. exact Hj. }
        { split; [| split].
          - intros n Hn. rewrite lookup_insert_ne; [by apply Hnone | congruence].
          - intros n c. rewrite lookup_insert. case_decide as Hd.
            + intros [= <-]. lia.
            + intros Hc. destruct (Hlocs n c Hc) as (? & ? & ?). lia.
          - intros n1 n2 c1 c2 Hne. rewrite !lookup_insert.
            repeat case_decide; subst; try done.
            + intros [= <-] Hc2. destruct (Hlocs n2 c2 Hc2) as (? & ? & ?). lia.
            + intros Hc1 [= <-]. destruct (Hlocs n1 c1 Hc1) as (? & ? & ?). lia.
            + by apply Hsep. }
        { lia. }
        exists r, ctxs', w'. split; [done |]. split; [by eapply driven_trans | done].
      * exists None, ctxs, w1. split; [done |]. split; [done |].
        split; [done | split; [| done]].
        intros n c Hc. destruct (Hlocs n c Hc) as (? & ? & ?). lia.
    + rewrite (for_each_step_skip i rest ctxs w s Hs Hr). by apply IH.
Qed.

(** The driver returns, and never with an exception. *)
Lemma further_revise_plan_spec (w : World) :
  ∃ r ctxs w', driver w = (Val (r, ctxs), w') ∧
    driven rr w w' ∧ contexts_ok rr ctxs (length (heap w)) w'.
Proof.
  destruct (for_each_step_spec (seq 0 (length (outline w))) ∅ (length (heap w)) w)
    as (r & ctxs & w' & Hrun & Hdr & Hctxs).
  - apply Forall_forall. intros j Hj. apply elem_of_seq in Hj. lia.
  - split; [done |]. split; [intros n c Hc | intros n1 n2 c1 c2 _ Hc];
      by rewrite lookup_empty in Hc.
  - done.
  - exists r, ctxs, w'. split; [| done].
    unfold further_revise_plan, try_except. by rewrite Hrun.
Qed.

(** Running the loop over a list of steps is running it over a first part
    and, if that returned the plan, over the rest. *)
Lemma for_each_step_app (pre post : list nat) :
  ∀ (ctxs : gmap string RevisionContext) (w : World),
    for_each (pre ++ post) ctxs w =
      match for_each pre ctxs w with
      | (Val (Some _, ctxs1), w1) => for_each post ctxs1 w1
      | other => other
      end.
Proof.
  induction pre as [|i pre IH]; intros ctxs w; [done |].
  cbn [app for_each_step].
  destruct (get_step i w) as [[s| |] w0] eqn:Hg.
  - rewrite !(bind_val _ _ _ _ _ Hg).
    destruct (rr !! name s) as [req|]; [| apply IH].
    destruct (try_except
                (do! o <- protocol i req; ret (Some o))
                (λ e, emit (LogReviseError e) ;;; ret None) w0)
      as [[[o|]| |] w1] eqn:Ht.
    + rewrite !(bind_val _ _ _ _ _ Ht).
      destruct (returned_plan o); [apply IH | done].
    + by rewrite !(bind_val _ _ _ _ _ Ht).
    + by rewrite !(bind_exc _ _ _ _ _ Ht).
    + by rewrite !(bind_out_of_fuel _ _ _ _ Ht).
  - by rewrite !(bind_exc _ _ _ _ _ Hg).
  - by rewrite !(bind_out_of_fuel _ _ _ _ Hg).
Qed.

End DriverFacts.

(** ** The driver's and the gateway's claims *)

Section DriverClaims.

Variable MAX_ITERATIONS : Z.
Variable anthropic_client : AnthropicClient.
Variable gemini_model : GenerativeModel.
Variable rr : gmap string string.

Local Abbreviation loop := (while_loop MAX_ITERATIONS anthropic_client gemini_model).
Local Abbreviation protocol :=
  (revise_step_with_llms MAX_ITERATIONS anthropic_client gemini_model).
Local Abbreviation for_each :=
  (for_each_step MAX_ITERATIONS anthropic_client gemini_model rr).
Local Abbreviation driver :=
  (further_revise_plan MAX_ITERATIONS anthropic_client gemini_model rr).


(** C4.  When the steps before step [i] have been gone through and the
    protocol on step [i] returns [None] for the plan, the driver returns
    [None] at once: with the contexts collected before step [i], in the
    world the protocol left (so no later step has been looked at), and with
    the outline the earlier steps had produced. *)
Theorem driver_halts_on_abort (w0 w1 w2 : World) (i : nat) (s : Step) (req : string)
    (ctxs1 : gmap string RevisionContext) (o : Outcome) :
  i < length (outline w0) →
  for_each (seq 0 i) ∅ w0 = (Val (Some plan_ref, ctxs1), w1) →
  outline w1 !! i = Some s →
  rr !! name s = Some req →
  protocol i req w1 = (Val o, w2) →
  returned_plan o = None →
  driver w0 = (Val (None, ctxs1), w2) ∧ outline w2 = outline w1.
Proof.
  intros Hi Hpre Hs Hr Hrun Hnone. split.
  - unfold further_revise_plan, try_except.
    replace (seq 0 (length (outline w0)))
      with (seq 0 i ++ i :: seq (S i) (length (outline w0) - S i)).
    + rewrite for_each_step_app, Hpre.
      rewrite (for_each_step_revise _ _ _ _ i _ ctxs1 w1 w2 s req o Hs Hr Hrun).
      by rewrite Hnone.
    + replace (length (outline w0)) with (i + S (length (outline w0) - S i)) at 2
        by lia.
      by rewrite seq_app.
  - destruct (revise_step_with_llms_spec MAX_ITERATIONS anthropic_client
                gemini_model i req w1 s Hs)
      as (o' & w' & Hrun' & _ & _ & _ & _ & _ & _ & Hshape).
    assert (o' = o ∧ w' = w2) as [-> ->] by (split; congruence).
    unfold returned_plan in Hnone. unfold run_shape in Hshape.
    destruct (exit o); [| done | done].
    by destruct Hshape as (pre & last & _ & _ & _ & _ & Hout).
Qed.

(** C9.  The wrappers only append to the histories, so does a run of the
    loop from any round on.  A protocol run is the loop on a context whose
    two histories are new empty lists, at addresses that were not in use.
    In the contexts the driver returns, no history of one step's context is
    a history of another step's context, and none existed before the run. *)
Theorem histories_append_only_and_unshared :
  (∀ ctx p w r w',
      get_claude_response anthropic_client ctx p w = (r, w') → heap_grows w w') ∧
  (∀ ctx p w r w',
      get_gemini_response gemini_model ctx p w = (r, w') → heap_grows w w') ∧
  (∀ fuel i ctx w s,
      outline w !! i = Some s → name s = step_name ctx →
      gemini_history ctx < length (heap w) →
      Z.to_nat (MAX_ITERATIONS + 1 - current_iteration ctx) < fuel →
      ∃ o w', loop fuel i ctx w = (Val o, w') ∧ heap_grows w w') ∧
  (∀ i req w s,
      outline w !! i = Some s →
      heap w !! length (heap w) = None ∧ heap w !! S (length (heap w)) = None ∧
      protocol i req w =
        loop (S (Z.to_nat MAX_ITERATIONS)) i
          (mkRevisionContext (name s) (content s) req
             (length (heap w)) (S (length (heap w))) 1)
          (set_heap (heap w ++ [[]; []]) w)) ∧
  (∀ w, ∃ r ctxs w',
      driver w = (Val (r, ctxs), w') ∧
      (∀ n c, ctxs !! n = Some c →
              length (heap w) ≤ claude_messages c ∧
              length (heap w) ≤ gemini_history c ∧
              claude_messages c ≠ gemini_history c) ∧
      (∀ n1 n2 c1 c2, n1 ≠ n2 → ctxs !! n1 = Some c1 → ctxs !! n2 = Some c2 →
              claude_messages c1 ≠ claude_messages c2 ∧
              claude_messages c1 ≠ gemini_history c2 ∧
              gemini_history c1 ≠ claude_messages c2 ∧
              gemini_history c1 ≠ gemini_history c2)).
Proof.
  split; [| split; [| split; [| split]]].
  - intros ctx p w r w' Hrun.
    destruct (get_claude_response_total anthropic_client ctx p w)
      as (r0 & w0 & Hrun0 & _ & _ & Hev).
    assert (w0 = w') as -> by congruence. apply (ev_heap 0 _ _ _ (Hev 0)).
  - intros ctx p w r w' Hrun.
    destruct (get_gemini_response_total gemini_model ctx p w)
      as (r0 & w0 & Hrun0 & _ & _ & Hev).
    assert (w0 = w') as -> by congruence. apply (ev_heap 0 _ _ _ (Hev 0)).
  - intros fuel i ctx w s Hs Hn Hl Hfuel.
    destruct (while_loop_spec MAX_ITERATIONS anthropic_client gemini_model
                fuel i ctx w s Hs Hn Hl Hfuel) as (o & w' & Hrun & Hev & _).
    exists o, w'. split; [done |]. apply (ev_heap _ _ _ _ Hev).
  - intros i req w s Hs. split; [apply lookup_ge_None; lia |].
    split; [apply lookup_ge_None; lia |]. by apply revise_step_with_llms_alloc.
  - intros w.
    destruct (further_revise_plan_spec MAX_ITERATIONS anthropic_client
                gemini_model rr w)
      as (r & ctxs & w' & Hrun & _ & _ & Hlocs & Hsep).
    exists r, ctxs, w'. split; [done |]. split; [| done].
    intros n c Hc. destruct (Hlocs n c Hc) as (? & ? & ?). lia.
Qed.

(** C10.  On a context whose history exists: when the provider raises,
    [get_claude_response] returns [None] with [claude_messages] longer by the
    unanswered prompt, [get_gemini_response] returns [None] with
    [gemini_history] (and the whole heap) as it was; when the provider
    answers, each wrapper returns the answer with its history longer by the
    request and the reply, in this order. *)
Theorem failure_time_history_asymmetry :
  (∀ ctx p w h e,
      heap w !! claude_messages ctx = Some h →
      anthropic_client (claude_calls w) (h ++ [mkMessage "user" p]) = Raises e →
      ∃ w', get_claude_response anthropic_client ctx p w = (Val None, w') ∧
            heap w' !! claude_messages ctx = Some (h ++ [mkMessage "user" p])) ∧
  (∀ ctx p w h e,
      heap w !! gemini_history ctx = Some h →
      gemini_model (gemini_calls w) (format_history h) p = Raises e →
      ∃ w', get_gemini_response gemini_model ctx p w = (Val None, w') ∧
            heap w' !! gemini_history ctx = Some h ∧ heap w' = heap w) ∧
  (∀ ctx p w h t,
      heap w !! claude_messages ctx = Some h →
      anthropic_client (claude_calls w) (h ++ [mkMessage "user" p]) = Answer t →
      ∃ w', get_claude_response anthropic_client ctx p w = (Val (Some t), w') ∧
            heap w' !! claude_messages ctx =
              Some (h ++ [mkMessage "user" p; mkMessage "assistant" t])) ∧
  (∀ ctx p w h t,
      heap w !! gemini_history ctx = Some h →
      gemini_model (gemini_calls w) (format_history h) p = Answer t →
      ∃ w', get_gemini_response gemini_model ctx p w = (Val (Some t), w') ∧
            heap w' !! gemini_history ctx =
              Some (h ++ [mkMessage "user" p; mkMessage "model" t])).
Proof.
  split; [| split; [| split]].
  - intros ctx p w h e Hh He.
    rewrite (get_claude_response_run anthropic_client ctx p w h Hh). cbv zeta.
    rewrite He. eexists. split; [reflexivity |]. simpl.
    apply list_lookup_insert_eq. by eapply lookup_lt_Some.
  - intros ctx p w h e Hh He.
    rewrite (get_gemini_response_run gemini_model ctx p w h Hh), He.
    eexists. by split; [reflexivity |].
  - intros ctx p w h t Hh Ht.
    rewrite (get_claude_response_run anthropic_client ctx p w h Hh). cbv zeta.
    rewrite Ht. eexists. split; [reflexivity |]. simpl. rewrite <- app_assoc.
    apply list_lookup_insert_eq. by eapply lookup_lt_Some.
  - intros ctx p w h t Hh Ht.
    rewrite (get_gemini_response_run gemini_model ctx p w h Hh), Ht.
    eexists. split; [reflexivity |]. simpl.
    apply list_lookup_insert_eq. by eapply lookup_lt_Some.
Qed.

(** The wrappers call their provider once.  On a context whose history
    exists, one invocation of a wrapper makes exactly one call to its
    provider and none to the other, and when that call raises, the wrapper
    logs the error and returns [None] at once. *)
Theorem gateway_calls_once :
  (∀ ctx p w h,
      heap w !! claude_messages ctx = Some h →
      ∃ r w', get_claude_response anthropic_client ctx p w = (Val r, w') ∧
        claude_calls w' = S (claude_calls w) ∧ gemini_calls w' = gemini_calls w ∧
        ∀ e, anthropic_client (claude_calls w) (h ++ [mkMessage "user" p]) = Raises e →
             r = None ∧
             log w' = log w ++ [ClaudeRequest (step_name ctx) (h ++ [mkMessage "user" p]);
                                LogClaudeError e]) ∧
  (∀ ctx p w h,
      heap w !! gemini_history ctx = Some h →
      ∃ r w', get_gemini_response gemini_model ctx p w = (Val r, w') ∧
        gemini_calls w' = S (gemini_calls w) ∧ claude_calls w' = claude_calls w ∧
        ∀ e, gemini_model (gemini_calls w) (format_history h) p = Raises e →
             r = None ∧
             log w' = log w ++ [GeminiRequest (step_name ctx) (format_history h) p;
                                LogGeminiError e]).
Proof.
  split.
  - intros ctx p w h Hh.
    rewrite (get_claude_response_run anthropic_client ctx p w h Hh). cbv zeta.
    destruct (anthropic_client _ _) as [t|e]; eexists _, _;
      (split; [reflexivity |]); simpl; (do 2 (split; [done |]));
      intros e' He'; [done | by injection He' as <-].
  - intros ctx p w h Hh.
    rewrite (get_gemini_response_run gemini_model ctx p w h Hh).
    destruct (gemini_model _ _ _) as [t|e]; eexists _, _;
      (split; [reflexivity |]); simpl; (do 2 (split; [done |]));
      intros e' He'; [done | by injection He' as <-].
Qed.

End DriverClaims.

(** ** The scenario of the specification *)

(** C7, as amended.  The plan has the steps [Intro] and [Body], only [Body]
    has a revision request, [MAX_ITERATIONS] is 1, the instructor and the
    reviser answer with some non-empty text and the reviewer answers
    [NO needs work].  Then the protocol runs one round on [Body] and leaves
    through the exhausted exit, the driver returns the plan with a context
    for [Body] (exhaustion is not a failure of the batch), and the outline is
    what it was: [Intro] and [Body] both keep their content. *)
Theorem exhausted_batch_succeeds (c_intro c_body instr rev : string)
    (client : AnthropicClient) (model : GenerativeModel) :
  instr ≠ "" → rev ≠ "" →
  (∀ msgs, client 0 msgs = Answer instr) →
  (∀ msgs, client 1 msgs = Answer "NO needs work") →
  (∀ h p, model 0 h p = Answer rev) →
  let w := mkWorld [mkStep "Intro" c_intro; mkStep "Body" c_body] [] 0 0 [] in
  ∃ o w',
    revise_step_with_llms 1 client model 1 "add more detail" w = (Val o, w') ∧
    exit o = Exhausted ∧
    transcript o = [mkRound (Some instr) (Some rev) (Some "NO needs work")] ∧
    further_revise_plan 1 client model {["Body" := "add more detail"]} w =
      (Val (Some plan_ref, {["Body" := context o]}), w') ∧
    outline w' = [mkStep "Intro" c_intro; mkStep "Body" c_body] ∧
    last (log w') = Some (LogMaxIterations "Body").
Proof.
  intros Hinstr Hrev Hc0 Hc1 Hm0 w.
  set (ctx := mkRevisionContext "Body" c_body "add more detail" 0 1 1).
  set (w0 := set_heap [[]; []] w).
  eassert (instruct_phase client 1 ctx w0 = (Val (Some instr), _)) as Hrun1.
  { erewrite instruct_phase_run by reflexivity.
    erewrite get_claude_response_run by reflexivity. cbv zeta.
    change (claude_calls _) with 0 at 1. rewrite Hc0. reflexivity. }
  match type of Hrun1 with _ = (_, ?x) =>
    eassert (get_gemini_response model ctx instr x = (Val (Some rev), _)) as Hrun2
  end.
  { erewrite get_gemini_response_run by reflexivity.
    change (gemini_calls _) with 0 at 1. rewrite Hm0. reflexivity. }
  match type of Hrun2 with _ = (_, ?x) =>
    eassert (review_phase client ctx rev x = (Val (Some "NO needs work"), _)) as Hrun3
  end.
  { erewrite review_phase_run by reflexivity.
    erewrite get_claude_response_run by reflexivity. cbv zeta.
    change (claude_calls _) with 1 at 1. rewrite Hc1. reflexivity. }
  eassert (while_loop 1 client model 2 1 ctx w0 = (Val _, _)) as Hloop.
  { erewrite (rejected_round 1 client model 1 1 ctx w0 _ _ _ instr rev "NO needs work");
      [| done | exact Hrun1 | done | exact Hrun2 | done | exact Hrun3 | done
       | reflexivity].
    erewrite bind_val; [reflexivity |].
    by apply exhausted_exit. }
  eassert (revise_step_with_llms 1 client model 1 "add more detail" w = (Val _, _))
    as Hrun.
  { rewrite (revise_step_with_llms_alloc 1 client model 1 _ w
               (mkStep "Body" c_body) eq_refl).
    exact Hloop. }
  eexists _, _. split; [exact Hrun |]. do 2 (split; [reflexivity |]).
  split; [| done].
  unfold further_revise_plan, try_except. change (seq _ _) with [0; 1].
  erewrite for_each_step_skip; [| reflexivity | reflexivity].
  erewrite for_each_step_revise; [| reflexivity | reflexivity | exact Hrun].
  reflexivity.
Qed.

(** ** Instances *)

(** C1 as stated fails.  With [MAX_ITERATIONS] at 3, the reviewer answers the
    first review with an empty text: no review of the run is classified as
    accepting, yet the run is not left through the exhausted exit; the
    protocol returns [(None, context)] after one round. *)
Lemma empty_review_is_not_exhaustion :
  ∃ o w',
    revise_step_with_llms 3 Scenario.empty_review Scenario.reviser 1
      "add more detail" Scenario.plan = (Val o, w') ∧
    transcript o =
      [mkRound (Some "Expand the second paragraph.") (Some "Body, second draft")
         (Some "")] ∧
    Forall (λ r, round_accepts r = false) (transcript o) ∧
    exit o ≠ Exhausted ∧ returned_plan o = None.
Proof.
  eexists _, _. split; [vm_compute; reflexivity |]. simpl.
  split; [done |]. split; [by repeat constructor | done].
Qed.

Lemma revision_rounds_bounded_witness :
  outline Scenario.plan !! 1 = Some Scenario.body ∧
  ∃ o w',
    revise_step_with_llms 3 Scenario.always_no Scenario.reviser 1
      "add more detail" Scenario.plan = (Val o, w') ∧
    exit o = Exhausted ∧ length (transcript o) = 3 ∧
    outline w' = outline Scenario.plan.
Proof.
  split; [reflexivity |].
  destruct (revision_rounds_bounded 3 Scenario.always_no Scenario.reviser
              Scenario.plan 1 Scenario.body "add more detail" eq_refl)
    as (o & w' & Hrun & _ & _ & Hexh).
  exists o, w'. split; [exact Hrun |]. apply Hexh.
  vm_compute in Hrun. injection Hrun as <- _. simpl.
  repeat constructor.
Defined.

Lemma accepted_revision_is_written_witness :
  outline Scenario.plan !! 1 = Some Scenario.body ∧
  ∃ o w',
    revise_step_with_llms 3 Scenario.yes_approved Scenario.reviser 1
      "add more detail" Scenario.plan = (Val o, w') ∧
    outline w' = [mkStep "Intro" "Introduction, first draft";
                  mkStep "Body" "Body, second draft"] ∧
    exit o = Accepted ∧ length (transcript o) = 1.
Proof.
  split; [reflexivity |].
  destruct (accepted_revision_is_written 3 Scenario.yes_approved Scenario.reviser
              Scenario.plan 1 Scenario.body "add more detail" eq_refl)
    as (o & w' & Hrun & Hacc).
  exists o, w'. split; [exact Hrun |].
  destruct (Hacc 0
              (mkRound (Some "Expand the second paragraph.")
                 (Some "Body, second draft") (Some "YES, approved"))
              "YES, approved")
    as (rev & Hrev & Hout & He & _ & Hlen & _).
  - vm_compute in Hrun. by injection Hrun as <- _.
  - reflexivity.
  - reflexivity.
  - injection Hrev as <-. by rewrite Hout.
Defined.

Lemma verdict_is_substring_match_witness :
  outline Scenario.plan !! 1 = Some Scenario.body ∧
  (∃ o w',
     revise_step_with_llms 3 Scenario.yes_in_lower_case Scenario.reviser 1
       "add more detail" Scenario.plan = (Val o, w') ∧
     exit o = Accepted ∧ length (transcript o) = 1) ∧
  (∃ o w',
     revise_step_with_llms 3 Scenario.yes_with_sharp_s Scenario.reviser 1
       "add more detail" Scenario.plan = (Val o, w') ∧
     exit o = Accepted ∧ length (transcript o) = 1).
Proof.
  split; [reflexivity |]. split.
  - destruct (verdict_is_substring_match 3 Scenario.yes_in_lower_case Scenario.reviser
                Scenario.plan 1 Scenario.body "add more detail" eq_refl)
      as (o & w' & Hrun & Hiff).
    exists o, w'. split; [exact Hrun |].
    destruct (Hiff 0
                (mkRound (Some "Expand the second paragraph.")
                   (Some "Body, second draft") (Some "Looks good to me, yes."))
                "Looks good to me, yes.") as [Hexit Hspelt].
    + vm_compute in Hrun. by injection Hrun as <- _.
    + reflexivity.
    + apply Hexit, Hspelt. exists "Looks good to me, ", "y", "e", "s", ".".
      split; [reflexivity |]. repeat split; repeat first [by left | right].
  - destruct (verdict_is_substring_match 3 Scenario.yes_with_sharp_s Scenario.reviser
                Scenario.plan 1 Scenario.body "add more detail" eq_refl)
      as (o & w' & Hrun & Hiff).
    exists o, w'. split; [exact Hrun |].
    destruct (Hiff 0
                (mkRound (Some "Expand the second paragraph.")
                   (Some "Body, second draft") (Some "yeß, fertig"))
                "yeß, fertig") as [Hexit Hspelt].
    + vm_compute in Hrun. by injection Hrun as <- _.
    + reflexivity.
    + apply Hexit, Hspelt. exists "", "y", "e", "ß", ", fertig".
      split; [reflexivity |]. repeat split; repeat first [by left | right].
Defined.

(** The three ways a round of [Body] can fail: the instructor is
    rate-limited, the reviser is unavailable, the reviewer answers with an
    empty text. *)
Lemma failures_abort_the_revision_witness :
  (∃ o w', while_loop 3 Scenario.rate_limited_once Scenario.reviser 4 1
             Scenario.body_context Scenario.started = (Val o, w') ∧
           returned_plan o = None ∧ transcript o = [mkRound None None None] ∧
           outline w' = outline Scenario.plan) ∧
  (∃ o w', while_loop 3 Scenario.always_no Scenario.unavailable_once 4 1
             Scenario.body_context Scenario.started = (Val o, w') ∧
           returned_plan o = None ∧
           transcript o = [mkRound (Some "Expand the second paragraph.") None None] ∧
           outline w' = outline Scenario.plan) ∧
  (∃ o w', while_loop 3 Scenario.empty_review Scenario.reviser 4 1
             Scenario.body_context Scenario.started = (Val o, w') ∧
           returned_plan o = None ∧
           transcript o = [mkRound (Some "Expand the second paragraph.")
                             (Some "Body, second draft") (Some "")] ∧
           outline w' = outline Scenario.plan).
Proof.
  split; [| split].
  - destruct (failures_abort_the_revision 3 Scenario.rate_limited_once
                Scenario.reviser) as (_ & _ & Habort & _).
    edestruct (Habort 3 1 Scenario.body_context Scenario.started)
      as (o & Hrun & Hnone & _ & Ht & Hout);
      [done | vm_compute; reflexivity | reflexivity |].
    by eexists _, _.
  - destruct (failures_abort_the_revision 3 Scenario.always_no
                Scenario.unavailable_once) as (_ & _ & _ & Habort & _).
    edestruct (Habort 3 1 Scenario.body_context Scenario.started)
      as (o & Hrun & Hnone & _ & Ht & Hout);
      [done | vm_compute; reflexivity | reflexivity | vm_compute; reflexivity
       | reflexivity |].
    by eexists _, _.
  - destruct (failures_abort_the_revision 3 Scenario.empty_review
                Scenario.reviser) as (_ & _ & _ & _ & Habort).
    edestruct (Habort 3 1 Scenario.body_context Scenario.started)
      as (o & Hrun & Hnone & _ & Ht & Hout);
      [done | vm_compute; reflexivity | reflexivity | vm_compute; reflexivity
       | reflexivity | vm_compute; reflexivity | reflexivity |].
    by eexists _, _.
Defined.


(** [Intro] is revised and accepted, then the instructor cannot be reached
    for [Body]: the batch fails, and [Intro] keeps its revised content. *)
Lemma driver_halts_on_abort_witness :
  ∃ ctxs w',
    further_revise_plan 3 Scenario.accept_then_fail Scenario.reviser
      Scenario.both_requests Scenario.plan = (Val (None, ctxs), w') ∧
    outline w' = [mkStep "Intro" "Body, second draft"; Scenario.body] ∧
    is_Some (ctxs !! "Intro") ∧ ctxs !! "Body" = None.
Proof.
  edestruct (driver_halts_on_abort 3 Scenario.accept_then_fail Scenario.reviser
               Scenario.both_requests Scenario.plan) as [Hrun Hout].
  - instantiate (1 := 1). simpl. lia.
  - vm_compute. reflexivity.
  - reflexivity.
  - vm_compute. reflexivity.
  - vm_compute. reflexivity.
  - reflexivity.
  - eexists _, _. split; [exact Hrun |]. split; [exact Hout |].
    split; [by eexists | reflexivity].
Defined.

Lemma histories_append_only_and_unshared_witness :
  (∃ o w', while_loop 3 Scenario.always_no Scenario.reviser 4 1
             Scenario.body_context Scenario.started = (Val o, w') ∧
           heap_grows Scenario.started w') ∧
  (revise_step_with_llms 3 Scenario.always_no Scenario.reviser 1 "add more detail"
     Scenario.plan =
   while_loop 3 Scenario.always_no Scenario.reviser 4 1
     Scenario.body_context Scenario.started) ∧
  (∃ r ctxs w' c1 c2,
      further_revise_plan 3 Scenario.yes_approved Scenario.reviser
        Scenario.both_requests Scenario.plan = (Val (r, ctxs), w') ∧
      ctxs !! "Intro" = Some c1 ∧ ctxs !! "Body" = Some c2 ∧
      claude_messages c1 ≠ claude_messages c2 ∧
      claude_messages c1 ≠ gemini_history c2 ∧
      gemini_history c1 ≠ claude_messages c2 ∧
      gemini_history c1 ≠ gemini_history c2).
Proof.
  destruct (histories_append_only_and_unshared 3 Scenario.always_no Scenario.reviser
              Scenario.both_requests) as (_ & _ & Hloop & Halloc & _).
  destruct (histories_append_only_and_unshared 3 Scenario.yes_approved
              Scenario.reviser Scenario.both_requests) as (_ & _ & _ & _ & Hdriver).
  split; [| split].
  - apply (Hloop 4 1 Scenario.body_context Scenario.started Scenario.body);
      [reflexivity | reflexivity | simpl; lia | simpl; lia].
  - apply (Halloc 1 "add more detail" Scenario.plan Scenario.body eq_refl).
  - destruct (Hdriver Scenario.plan) as (r & ctxs & w' & Hrun & _ & Hsep).
    pose proof Hrun as Hrun'. vm_compute in Hrun'.
    injection Hrun' as Hr Hctxs Hw.
    exists r, ctxs, w',
      (mkRevisionContext "Intro" "Introduction, first draft" "shorten" 0 1 1),
      (mkRevisionContext "Body" "Body, first draft" "add more detail" 2 3 1).
    assert (ctxs !! "Intro" =
            Some (mkRevisionContext "Intro" "Introduction, first draft"
                    "shorten" 0 1 1)) as H1
      by (rewrite <- Hctxs; vm_compute; reflexivity).
    assert (ctxs !! "Body" =
            Some (mkRevisionContext "Body" "Body, first draft"
                    "add more detail" 2 3 1)) as H2
      by (rewrite <- Hctxs; vm_compute; reflexivity).
    do 3 (split; [done |]).
    by apply (Hsep "Intro" "Body").
Defined.

Lemma failure_time_history_asymmetry_witness :
  (∃ w', get_claude_response Scenario.rate_limited_once Scenario.body_context
           "prompt" Scenario.started = (Val None, w') ∧
         heap w' !! 0 = Some [mkMessage "user" "prompt"]) ∧
  (∃ w', get_gemini_response Scenario.unavailable_once Scenario.body_context
           "prompt" Scenario.started = (Val None, w') ∧
         heap w' !! 1 = Some [] ∧ heap w' = heap Scenario.started) ∧
  (∃ w', get_claude_response Scenario.always_no Scenario.body_context
           "prompt" Scenario.started =
           (Val (Some "Expand the second paragraph."), w') ∧
         heap w' !! 0 =
           Some [mkMessage "user" "prompt";
                 mkMessage "assistant" "Expand the second paragraph."]) ∧
  (∃ w', get_gemini_response Scenario.reviser Scenario.body_context
           "prompt" Scenario.started = (Val (Some "Body, second draft"), w') ∧
         heap w' !! 1 =
           Some [mkMessage "user" "prompt";
                 mkMessage "model" "Body, second draft"]).
Proof.
  split; [| split; [| split]].
  - destruct (failure_time_history_asymmetry Scenario.rate_limited_once
                Scenario.reviser) as (H & _).
    apply (H Scenario.body_context "prompt" Scenario.started [] "RateLimitError");
      reflexivity.
  - destruct (failure_time_history_asymmetry Scenario.always_no
                Scenario.unavailable_once) as (_ & H & _).
    apply (H Scenario.body_context "prompt" Scenario.started [] "ServiceUnavailable");
      reflexivity.
  - destruct (failure_time_history_asymmetry Scenario.always_no
                Scenario.reviser) as (_ & _ & H & _).
    apply (H Scenario.body_context "prompt" Scenario.started []
             "Expand the second paragraph."); reflexivity.
  - destruct (failure_time_history_asymmetry Scenario.always_no
                Scenario.reviser) as (_ & _ & _ & H).
    apply (H Scenario.body_context "prompt" Scenario.started []
             "Body, second draft"); reflexivity.
Defined.

(** C8: the Gemini call of the revision script is not retried.  A provider
    call is the call of the SDK as the script makes it, so an exception is
    one the SDK let through.  The plan-generating scripts of the repository
    wrap their Gemini call in [retry.Retry] for [ResourceExhausted],
    [ServiceUnavailable], [DeadlineExceeded] and [InternalServerError]; this
    script imports [retry] and calls [send_message] bare.  Here the quota is
    exhausted on the first [send_message] only, and a second attempt with
    the same request would be answered: the wrapper makes its one call and
    returns [None], and the protocol gives up the step's revision with that
    single call made. *)
Lemma gemini_rate_limit_is_not_retried :
  ∃ w1 o w2,
    get_gemini_response Scenario.quota_exhausted_once Scenario.body_context
      "prompt" Scenario.started = (Val None, w1) ∧
    gemini_calls w1 = 1 ∧
    log w1 = [GeminiRequest "Body" [] "prompt"; LogGeminiError "ResourceExhausted"] ∧
    Scenario.quota_exhausted_once 1 [] "prompt" = Answer "Body, second draft" ∧
    revise_step_with_llms 3 Scenario.always_no Scenario.quota_exhausted_once 1
      "add more detail" Scenario.plan = (Val o, w2) ∧
    exit o = Aborted ∧ returned_plan o = None ∧
    claude_calls w2 = 1 ∧ gemini_calls w2 = 1.
Proof.
  eexists _, _, _. split; [vm_compute; reflexivity |].
  do 3 (split; [reflexivity |]). split; [vm_compute; reflexivity |]. done.
Qed.

Lemma gateway_calls_once_witness :
  (∃ w', get_claude_response Scenario.rate_limited_once Scenario.body_context
           "prompt" Scenario.started = (Val None, w') ∧
         claude_calls w' = 1 ∧ gemini_calls w' = 0 ∧
         log w' = [ClaudeRequest "Body" [mkMessage "user" "prompt"];
                   LogClaudeError "RateLimitError"]) ∧
  (∃ w', get_gemini_response Scenario.unavailable_once Scenario.body_context
           "prompt" Scenario.started = (Val None, w') ∧
         gemini_calls w' = 1 ∧ claude_calls w' = 0 ∧
         log w' = [GeminiRequest "Body" [] "prompt";
                   LogGeminiError "ServiceUnavailable"]).
Proof.
  destruct (gateway_calls_once Scenario.rate_limited_once Scenario.unavailable_once)
    as [Hclaude Hgemini].
  split.
  - destruct (Hclaude Scenario.body_context "prompt" Scenario.started [] eq_refl)
      as (r & w' & Hrun & Hc & Hg & Hraise).
    destruct (Hraise "RateLimitError" eq_refl) as [-> Hlog].
    by exists w'.
  - destruct (Hgemini Scenario.body_context "prompt" Scenario.started [] eq_refl)
      as (r & w' & Hrun & Hg & Hc & Hraise).
    destruct (Hraise "ServiceUnavailable" eq_refl) as [-> Hlog].
    by exists w'.
Defined.

(** C7 as stated fails.  In the scenario the reviser's only output is
    [Body, second draft], the run of [Body] is exhausted after its one round
    and the batch succeeds, but the content of [Body] is still its first
    draft, not the reviser's output. *)
Lemma exhausted_body_keeps_first_draft :
  ∃ o ctxs w',
    revise_step_with_llms 1 Scenario.always_no Scenario.reviser 1
      "add more detail" Scenario.plan = (Val o, w') ∧
    exit o = Exhausted ∧
    (revision <$> transcript o) = [Some "Body, second draft"] ∧
    further_revise_plan 1 Scenario.always_no Scenario.reviser Scenario.requests
      Scenario.plan = (Val (Some plan_ref, ctxs), w') ∧
    outline w' !! 1 = Some (mkStep "Body" "Body, first draft") ∧
    (content <$> outline w' !! 1) ≠ Some "Body, second draft".
Proof.
  eexists _, _, _. split; [vm_compute; reflexivity |].
  do 2 (split; [reflexivity |]). split; [vm_compute; reflexivity |]. done.
Qed.

Lemma exhausted_batch_succeeds_witness :
  ∃ o w',
    revise_step_with_llms 1 Scenario.always_no Scenario.reviser 1
      "add more detail" Scenario.plan = (Val o, w') ∧
    exit o = Exhausted ∧
    further_revise_plan 1 Scenario.always_no Scenario.reviser Scenario.requests
      Scenario.plan = (Val (Some plan_ref, {["Body" := context o]}), w') ∧
    outline w' = outline Scenario.plan.
Proof.
  destruct (exhausted_batch_succeeds "Introduction, first draft" "Body, first draft"
              "Expand the second paragraph." "Body, second draft"
              Scenario.always_no Scenario.reviser)
    as (o & w' & Hrun & He & _ & Hbatch & Hout & _); try done.
  by exists o, w'.
Defined.

(** * More properties of the program *)

(** ** What the two wrappers do to a context with two separate histories *)

Lemma dialogue_app (a b : string) (xs ys : list (string * string)) :
  dialogue a b (xs ++ ys) = dialogue a b xs ++ dialogue a b ys.
Proof. unfold dialogue. by rewrite flat_map_app. Qed.

Lemma dialogue_length (a b : string) (xs : list (string * string)) :
  length (dialogue a b xs) = 2 * length xs.
Proof. induction xs as [|x xs IH]; simpl; [done | rewrite IH; lia]. Qed.

Section CallFacts.

Variable anthropic_client : AnthropicClient.
Variable gemini_model : GenerativeModel.

Lemma claude_call_facts (ctx : RevisionContext) (p : string) (w : World)
    (hc hg : list Message) :
  claude_messages ctx ≠ gemini_history ctx →
  heap w !! claude_messages ctx = Some hc →
  heap w !! gemini_history ctx = Some hg →
  ∃ r w' evs,
    get_claude_response anthropic_client ctx p w = (Val r, w') ∧
    outline w' = outline w ∧
    heap w' !! gemini_history ctx = Some hg ∧
    claude_calls w' = S (claude_calls w) ∧ gemini_calls w' = gemini_calls w ∧
    log w' = log w ++ evs ∧
    match r with
    | Some t =>
      heap w' !! claude_messages ctx =
        Some (hc ++ dialogue "user" "assistant" [(p, t)]) ∧
      Forall (λ e, is_error e = false) evs
    | None => heap w' !! claude_messages ctx = Some (hc ++ [mkMessage "user" p])
    end.
Proof.
  intros Hne Hc Hg. pose proof (lookup_lt_Some _ _ _ Hc) as Hlt.
  rewrite (get_claude_response_run anthropic_client ctx p w hc Hc). cbv zeta.
  destruct (anthropic_client _ _) as [t|e]; eexists _, _, _;
    (split; [reflexivity |]); simpl; (split; [done |]);
    (split; [by rewrite list_lookup_insert_ne |]); (do 3 (split; [done |])).
  - split; [| by repeat constructor].
    rewrite <- app_assoc. by apply list_lookup_insert_eq.
  - by apply list_lookup_insert_eq.
Qed.

Lemma gemini_call_facts (ctx : RevisionContext) (p : string) (w : World)
    (hc hg : list Message) :
  claude_messages ctx ≠ gemini_history ctx →
  heap w !! claude_messages ctx = Some hc →
  heap w !! gemini_history ctx = Some hg →
  ∃ r w' evs,
    get_gemini_response gemini_model ctx p w = (Val r, w') ∧
    outline w' = outline w ∧
    heap w' !! claude_messages ctx = Some hc ∧
    gemini_calls w' = S (gemini_calls w) ∧ claude_calls w' = claude_calls w ∧
    log w' = log w ++ evs ∧
    match r with
    | Some t =>
      heap w' !! gemini_history ctx = Some (hg ++ dialogue "user" "model" [(p, t)]) ∧
      Forall (λ e, is_error e = false) evs
    | None => heap w' !! gemini_history ctx = Some hg
    end.
Proof.
  intros Hne Hc Hg. pose proof (lookup_lt_Some _ _ _ Hg) as Hlt.
  rewrite (get_gemini_response_run gemini_model ctx p w hg Hg).
  destruct (gemini_model _ _ _) as [t|e]; eexists _, _, _;
    (split; [reflexivity |]); simpl; (split; [done |]).
  - split; [by rewrite list_lookup_insert_ne |]. do 3 (split; [done |]).
    split; [by apply list_lookup_insert_eq | by repeat constructor].
  - by do 4 (split; [done |]).
Qed.

End CallFacts.

(** ** What a run of the loop adds up to *)

Ltac solve_quiet :=
  repeat first [apply Forall_nil_2 | apply Forall_cons_2 | apply Forall_app_2]; done.

Section Accounting.

Variable MAX_ITERATIONS : Z.
Variable anthropic_client : AnthropicClient.
Variable gemini_model : GenerativeModel.

Local Abbreviation loop := (while_loop MAX_ITERATIONS anthropic_client gemini_model).

Lemma rejections_add_round (r : Round) (o : Outcome) :
  (exit o ≠ Exhausted → 1 ≤ length (transcript o)) →
  rejections (add_round r o) = S (rejections o).
Proof.
  unfold rejections. simpl. destruct (exit o); intros H; try lia.
  all: specialize (H ltac:(done)); lia.
Qed.

Lemma accounted_abort (ctx : RevisionContext) (w w2 : World) (hc hg hc2 : list Message)
    (evs : list Event) (g r v : option string) :
  heap w2 !! gemini_history ctx =
    Some (hg ++ dialogue "user" "model" (gemini_exchange (mkRound g r v))) →
  heap w2 !! claude_messages ctx = Some hc2 →
  log w2 = log w ++ evs →
  claude_calls w2 ≤ claude_calls w + 2 →
  gemini_calls w2 ≤ gemini_calls w + 1 →
  accounted ctx w hc hg (mkOutcome Aborted ctx [mkRound g r v]) w2.
Proof.
  intros Hg2 Hc2 Hl2 Hcc2 Hgc2. exists hc2, evs. simpl. rewrite app_nil_r.
  do 3 (split; [done |]). split; [lia |]. split; [lia |].
  split; [unfold rejections; simpl; lia |]. do 3 (split; [done |]).
  split; [lia | done].
Qed.

Lemma accounted_accept (ctx : RevisionContext) (w w' : World)
    (hc hg : list Message) (evs : list Event) (gp rev v p1 p3 : string) :
  heap w' !! gemini_history ctx = Some (hg ++ dialogue "user" "model" [(gp, rev)]) →
  heap w' !! claude_messages ctx =
    Some (hc ++ dialogue "user" "assistant" [(p1, gp); (p3, v)]) →
  log w' = log w ++ evs → Forall (λ e, is_error e = false) evs →
  claude_calls w' = claude_calls w + 2 → gemini_calls w' = gemini_calls w + 1 →
  accounted ctx w hc hg
    (mkOutcome Accepted ctx [mkRound (Some gp) (Some rev) (Some v)]) w'.
Proof.
  intros Hg' Hc' Hl' Hq' Hcc' Hgc'. eexists _, evs. simpl.
  do 3 (split; [done |]). split; [lia |]. split; [lia |].
  split; [unfold rejections; simpl; lia |]. do 3 (split; [done |]).
  split; [lia |]. intros _. split; [lia |]. split; [lia |]. split; [| done].
  by exists [(p1, gp); (p3, v)].
Qed.

Lemma accounted_exhausted (ctx : RevisionContext) (w : World) (hc hg : list Message)
    (n : string) :
  heap w !! gemini_history ctx = Some hg → heap w !! claude_messages ctx = Some hc →
  accounted ctx w hc hg (mkOutcome Exhausted ctx []) (add_log (LogMaxIterations n) w).
Proof.
  intros Hg Hc. exists hc, [LogMaxIterations n]. simpl. rewrite app_nil_r.
  do 3 (split; [done |]). split; [lia |]. split; [lia |].
  split; [unfold rejections; simpl; lia |]. do 3 (split; [done |]).
  split; [done |]. intros _. split; [lia |]. split; [lia |].
  split; [exists []; by rewrite app_nil_r | by repeat constructor].
Qed.

Lemma accounted_add_round (ctx : RevisionContext) (w w3 w' : World)
    (hc hg : list Message) (o : Outcome) (evs : list Event)
    (gp rev v p1 p3 : string) :
  log w3 = log w ++ evs → Forall (λ e, is_error e = false) evs →
  claude_calls w3 = claude_calls w + 2 → gemini_calls w3 = gemini_calls w + 1 →
  accounted (next_iteration ctx) w3
    (hc ++ dialogue "user" "assistant" [(p1, gp); (p3, v)])
    (hg ++ dialogue "user" "model" [(gp, rev)]) o w' →
  accounted ctx w hc hg (add_round (mkRound (Some gp) (Some rev) (Some v)) o) w'.
Proof.
  intros Hl3 Hq3 Hcc3 Hgc3
    (hc' & evs' & Hg' & Hc' & Hl' & Hcc' & Hgc' & Hit & Hn & Hoc & Hrr & Hlen & Hok).
  exists hc', (evs ++ evs'). simpl in *.
  split; [by rewrite Hg', <- app_assoc |]. split; [done |].
  split; [by rewrite Hl', Hl3, app_assoc |]. split; [lia |]. split; [lia |].
  split; [rewrite (rejections_add_round _ _ Hlen); lia |].
  do 3 (split; [done |]). split; [lia |]. intros Hex.
  destruct (Hok Hex) as (Hcc & Hgc & (xs & Hxs & Hlx) & Hq).
  split; [lia |]. split; [lia |]. split; [| by apply Forall_app].
  exists ([(p1, gp); (p3, v)] ++ xs).
  split; [by rewrite Hxs, <- app_assoc | simpl; lia].
Qed.

Lemma while_loop_account (fuel : nat) :
  ∀ (i : nat) (ctx : RevisionContext) (w : World) (s : Step) (hc hg : list Message),
    outline w !! i = Some s →
    claude_messages ctx ≠ gemini_history ctx →
    heap w !! claude_messages ctx = Some hc →
    heap w !! gemini_history ctx = Some hg →
    Z.to_nat (MAX_ITERATIONS + 1 - current_iteration ctx) < fuel →
    ∃ o w', loop fuel i ctx w = (Val o, w') ∧ accounted ctx w hc hg o w'.
Proof.
  induction fuel as [|fuel IH]; intros i ctx w s hc hg Hs Hne Hc Hg Hfuel; [lia |].
  rewrite while_loop_unfold.
  destruct (current_iteration ctx <=? MAX_ITERATIONS)%Z eqn:Htest.
  - apply Z.leb_le in Htest.
    destruct (claude_call_facts anthropic_client ctx (claude_prompt_of ctx hg)
                (add_log (LogIteration (current_iteration ctx) (name s)) w)
                hc hg Hne Hc Hg)
      as (g & w1 & ev1 & Hrun1 & Ho1 & Hg1 & Hcc1 & Hgc1 & Hlog1 & Hr1).
    rewrite <- (instruct_phase_run anthropic_client i ctx w s hg Hs Hg) in Hrun1.
    rewrite (bind_val _ _ _ _ _ Hrun1). simpl in Ho1, Hcc1, Hgc1, Hlog1.
    rewrite <- app_assoc in Hlog1.
    destruct g as [[|c0 s0]|].
    + destruct Hr1 as [Hc1 _]. eexists _, _. split; [reflexivity |].
      eapply accounted_abort; eauto; simpl; rewrite ?app_nil_r; try done; lia.
    + destruct Hr1 as [Hc1 Hq1].
      destruct (gemini_call_facts gemini_model ctx (String c0 s0) w1 _ hg Hne Hc1 Hg1)
        as (rc & w2 & ev2 & Hrun2 & Ho2 & Hc2 & Hgc2 & Hcc2 & Hlog2 & Hr2).
      rewrite (bind_val _ _ _ _ _ Hrun2).
      rewrite Hlog1, <- app_assoc in Hlog2.
      destruct rc as [[|c1 s1]|].
      * destruct Hr2 as [Hg2 _]. eexists _, _. split; [reflexivity |].
        eapply accounted_abort; eauto; simpl; try done; lia.
      * destruct Hr2 as [Hg2 Hq2].
        destruct (claude_call_facts anthropic_client ctx
                    (review_prompt_of ctx (String c1 s1)
                       (hg ++ dialogue "user" "model" [(String c0 s0, String c1 s1)]))
                    w2 _ _ Hne Hc2 Hg2)
          as (v & w3 & ev3 & Hrun3 & Ho3 & Hg3 & Hcc3 & Hgc3 & Hlog3 & Hr3).
        rewrite <- (review_phase_run anthropic_client ctx (String c1 s1) w2 _ Hg2)
          in Hrun3.
        rewrite (bind_val _ _ _ _ _ Hrun3).
        rewrite Hlog2, <- app_assoc in Hlog3.
        destruct v as [[|c2 s2]|].
        -- destruct Hr3 as [Hc3 _]. eexists _, _. split; [reflexivity |].
           eapply accounted_abort; eauto; simpl; try done; lia.
        -- destruct Hr3 as [Hc3 Hq3]. cbv zeta.
           destruct (accepting (String c2 s2)).
           ++ assert (outline w3 !! i = Some s) as Hs3 by (by rewrite Ho3, Ho2, Ho1).
              rewrite (bind_val _ _ _ _ _ (set_content_val i s _ w3 Hs3)).
              erewrite bind_val; cycle 1.
              { apply get_step_val. simpl. apply list_lookup_insert_eq.
                by eapply lookup_lt_Some. }
              rewrite bind_emit. eexists _, _. split; [reflexivity |].
              eapply (accounted_accept ctx w _ hc hg
                        (([LogIteration (current_iteration ctx) (name s)] ++ ev1)
                           ++ ev2 ++ ev3 ++ [LogAccepted (name s)]));
                simpl; eauto.
              ** rewrite Hc3, <- app_assoc. reflexivity.
              ** rewrite Hlog3. by rewrite <- !app_assoc.
              ** solve_quiet.
              ** lia.
              ** lia.
           ++ destruct (IH i (next_iteration ctx) w3 s _ _
                          ltac:(by rewrite Ho3, Ho2, Ho1) Hne Hc3 Hg3
                          ltac:(simpl; lia))
                as (o & w' & Hrun & Hacc).
              rewrite (bind_val _ _ _ _ _ Hrun). eexists _, _.
              split; [reflexivity |].
              eapply (accounted_add_round ctx w w3 w' hc hg o
                        (([LogIteration (current_iteration ctx) (name s)] ++ ev1)
                           ++ ev2 ++ ev3)).
              ** rewrite Hlog3. by rewrite <- !app_assoc.
              ** solve_quiet.
              ** lia.
              ** lia.
              ** rewrite <- app_assoc in Hacc. exact Hacc.
        -- eexists _, _. split; [reflexivity |].
           eapply accounted_abort; eauto; simpl; try done; lia.
      * eexists _, _. split; [reflexivity |].
        eapply accounted_abort; eauto; simpl; rewrite ?app_nil_r; try done; lia.
    + eexists _, _. split; [reflexivity |].
      eapply accounted_abort; eauto; simpl; rewrite ?app_nil_r; try done; lia.
  - rewrite (bind_val _ _ _ _ _ (get_step_val i s w Hs)), bind_emit.
    eexists _, _. split; [reflexivity |]. by apply accounted_exhausted.
Qed.
End Accounting.

(** ** What a run of the protocol adds up to *)

Section ProtocolTotals.

Variable MAX_ITERATIONS : Z.
Variable anthropic_client : AnthropicClient.
Variable gemini_model : GenerativeModel.

Local Abbreviation protocol :=
  (revise_step_with_llms MAX_ITERATIONS anthropic_client gemini_model).

(** A run of the protocol, with all that is known about it. *)
Lemma revise_step_with_llms_account (i : nat) (req : string) (w : World) (s : Step) :
  outline w !! i = Some s →
  ∃ o w',
    protocol i req w = (Val o, w') ∧
    accounted
      (mkRevisionContext (name s) (content s) req
         (length (heap w)) (S (length (heap w))) 1)
      w [] [] o w' ∧
    claude_messages (context o) = length (heap w) ∧
    gemini_history (context o) = S (length (heap w)) ∧
    length (transcript o) ≤ Z.to_nat MAX_ITERATIONS ∧
    (exit o = Exhausted → length (transcript o) = Z.to_nat MAX_ITERATIONS) ∧
    evolves i (name s) w w'.
Proof.
  intros Hs.
  destruct (revise_step_with_llms_spec MAX_ITERATIONS anthropic_client gemini_model
              i req w s Hs)
    as (o & w' & Hrun & Hev & _ & Hcm & Hgh & Hbound & Hexh & _).
  exists o, w'. split; [done |]. split; [| done].
  rewrite (revise_step_with_llms_alloc _ _ _ i req w s Hs) in Hrun.
  destruct (while_loop_account MAX_ITERATIONS anthropic_client gemini_model
              (S (Z.to_nat MAX_ITERATIONS)) i
              (mkRevisionContext (name s) (content s) req
                 (length (heap w)) (S (length (heap w))) 1)
              (set_heap (heap w ++ [[]; []]) w) s [] [])
    as (o0 & w0 & Hrun0 & Hacc); simpl.
  - done.
  - lia.
  - by rewrite lookup_app_r, Nat.sub_diag.
  - rewrite lookup_app_r by lia. by replace (S (length (heap w)) - length (heap w)) with 1 by lia.
  - lia.
  - assert (o0 = o ∧ w0 = w') as [-> ->] by (split; congruence). exact Hacc.
Qed.

(** X1.  After a run of the protocol, whatever its exit, the Gemini history
    of the returned context is exactly the conversation of the run: for every
    round in which Gemini answered, the instructions it was sent as a [user]
    message followed by its revision as a [model] message, in the order of
    the rounds, and nothing else. *)
Theorem gemini_history_is_the_transcript (w : World) (i : nat) (s : Step) (req : string) :
  outline w !! i = Some s →
  ∃ o w',
    protocol i req w = (Val o, w') ∧
    heap w' !! gemini_history (context o) =
      Some (dialogue "user" "model" (flat_map gemini_exchange (transcript o))).
Proof.
  intros Hs.
  destruct (revise_step_with_llms_account i req w s Hs)
    as (o & w' & Hrun & (hc' & evs & Hg & _) & _ & Hgh & _).
  exists o, w'. split; [done |]. by rewrite Hgh.
Qed.

(** X2.  A run of the protocol makes at most [2 * MAX_ITERATIONS] calls to
    Claude and at most [MAX_ITERATIONS] calls to Gemini.  When it returns
    the plan (accepted or exhausted) it has made exactly two Claude calls and
    one Gemini call per round, and Claude's history consists of whole
    exchanges, two per round, each a [user] message followed by its
    [assistant] reply. *)
Theorem revision_call_budget (w : World) (i : nat) (s : Step) (req : string) :
  outline w !! i = Some s →
  ∃ o w',
    protocol i req w = (Val o, w') ∧
    claude_calls w' ≤ claude_calls w + 2 * Z.to_nat MAX_ITERATIONS ∧
    gemini_calls w' ≤ gemini_calls w + Z.to_nat MAX_ITERATIONS ∧
    (exit o ≠ Aborted →
       claude_calls w' = claude_calls w + 2 * length (transcript o) ∧
       gemini_calls w' = gemini_calls w + length (transcript o) ∧
       ∃ xs, heap w' !! claude_messages (context o) =
               Some (dialogue "user" "assistant" xs) ∧
             length xs = 2 * length (transcript o)).
Proof.
  intros Hs.
  destruct (revise_step_with_llms_account i req w s Hs)
    as (o & w' & Hrun & (hc' & evs & _ & Hc & _ & Hcc & Hgc & _ & _ & _ & _ & _ & Hok)
        & Hcm & _ & Hbound & _).
  exists o, w'. split; [done |]. split; [lia |]. split; [lia |].
  intros Hex. destruct (Hok Hex) as (Hcc' & Hgc' & (xs & Hxs & Hlen) & _).
  do 2 (split; [done |]). exists xs. rewrite Hcm. simpl in Hc. by rewrite Hc, Hxs.
Qed.

(** X3.  When a run of the protocol returns the plan, none of the records it
    logged is an error record: no provider call of the run raised. *)
Theorem returned_plan_means_no_error (w : World) (i : nat) (s : Step) (req : string) :
  outline w !! i = Some s →
  ∃ o w' evs,
    protocol i req w = (Val o, w') ∧ log w' = log w ++ evs ∧
    (returned_plan o = Some plan_ref → Forall (λ e, is_error e = false) evs).
Proof.
  intros Hs.
  destruct (revise_step_with_llms_account i req w s Hs)
    as (o & w' & Hrun & (hc' & evs & _ & _ & Hlog & _ & _ & _ & _ & _ & _ & _ & Hok) & _).
  exists o, w', evs. do 2 (split; [done |]). unfold returned_plan. intros Hplan.
  apply Hok. intros He. by rewrite He in Hplan.
Qed.

(** X4.  The returned context carries the step's name, the content the step
    had before the run (also when the run replaced it), and the request.  Its
    iteration counter is one more than the number of rejected rounds: the
    number of the accepting round after an acceptance, and
    [max(MAX_ITERATIONS, 0) + 1] after exhaustion (with no round at all when
    [MAX_ITERATIONS] is below one). *)
Theorem context_snapshot_and_counter (w : World) (i : nat) (s : Step) (req : string) :
  outline w !! i = Some s →
  ∃ o w',
    protocol i req w = (Val o, w') ∧
    step_name (context o) = name s ∧
    original_content (context o) = content s ∧
    revision_request (context o) = req ∧
    current_iteration (context o) = (1 + Z.of_nat (rejections o))%Z ∧
    (exit o = Accepted → current_iteration (context o) = Z.of_nat (length (transcript o))) ∧
    (exit o = Exhausted →
       current_iteration (context o) = (Z.max MAX_ITERATIONS 0 + 1)%Z).
Proof.
  intros Hs.
  destruct (revise_step_with_llms_account i req w s Hs)
    as (o & w' & Hrun & (hc' & evs & _ & _ & _ & _ & _ & Hit & Hn & Hoc & Hrr & Hlen & _)
        & _ & _ & _ & Hexh & _).
  exists o, w'. split; [done |]. simpl in *. do 4 (split; [done |]).
  unfold rejections in *. split.
  - intros He. rewrite He in Hit. specialize (Hlen ltac:(by rewrite He)). lia.
  - intros He. rewrite He in Hit. specialize (Hexh He). lia.
Qed.

(** X5.  With [MAX_ITERATIONS] at zero or below the loop body never runs:
    the protocol calls no provider, leaves the outline alone, logs that the
    maximum was reached and still returns the plan. *)
Theorem no_round_without_budget (w : World) (i : nat) (s : Step) (req : string) :
  (MAX_ITERATIONS ≤ 0)%Z →
  outline w !! i = Some s →
  ∃ o w',
    protocol i req w = (Val o, w') ∧
    exit o = Exhausted ∧ transcript o = [] ∧ returned_plan o = Some plan_ref ∧
    outline w' = outline w ∧
    claude_calls w' = claude_calls w ∧ gemini_calls w' = gemini_calls w ∧
    log w' = log w ++ [LogMaxIterations (name s)].
Proof.
  intros Hmax Hs. rewrite (revise_step_with_llms_alloc _ _ _ i req w s Hs).
  rewrite (exhausted_exit MAX_ITERATIONS anthropic_client gemini_model _ i _ _ s);
    [| simpl; lia | done].
  by eexists _, _.
Qed.

End ProtocolTotals.

(** ** What a batch adds up to *)

Lemma total_steps_names (rr : gmap string string) (l1 : list Step) :
  ∀ l2, name <$> l1 = name <$> l2 → total_steps rr l1 = total_steps rr l2.
Proof.
  unfold total_steps.
  induction l1 as [|a l1 IH]; intros [|b l2] H; try done.
  injection H as Hab H. rewrite !filter_cons, Hab.
  destruct (decide (is_Some (rr !! name b))); simpl; by rewrite (IH l2 H).
Qed.

Section DriverTotals.

Variable MAX_ITERATIONS : Z.
Variable anthropic_client : AnthropicClient.
Variable gemini_model : GenerativeModel.
Variable rr : gmap string string.

Local Abbreviation protocol :=
  (revise_step_with_llms MAX_ITERATIONS anthropic_client gemini_model).
Local Abbreviation for_each :=
  (for_each_step MAX_ITERATIONS anthropic_client gemini_model rr).
Local Abbreviation driver :=
  (further_revise_plan MAX_ITERATIONS anthropic_client gemini_model rr).
Local Abbreviation budget := (Z.to_nat MAX_ITERATIONS).

Lemma for_each_step_tail (m : nat) :
  ∀ (k : nat) (ctxs : gmap string RevisionContext) (w : World),
    k + m = length (outline w) →
    ∃ r ctxs' w' evs,
      for_each (seq k m) ctxs w = (Val (r, ctxs'), w') ∧
      log w' = log w ++ evs ∧
      name <$> outline w' = name <$> outline w ∧
      claude_calls w' ≤
        claude_calls w + 2 * budget * total_steps rr (drop k (outline w)) ∧
      gemini_calls w' ≤ gemini_calls w + budget * total_steps rr (drop k (outline w)) ∧
      (∀ n, is_Some (ctxs' !! n) →
            is_Some (ctxs !! n) ∨
            (is_Some (rr !! n) ∧ n ∈ name <$> drop k (outline w))) ∧
      (r = Some plan_ref →
         Forall (λ e, is_error e = false) evs ∧
         (∀ n, is_Some (ctxs !! n) → is_Some (ctxs' !! n)) ∧
         (∀ n, n ∈ name <$> drop k (outline w) → is_Some (rr !! n) →
               is_Some (ctxs' !! n))).
Proof.
  induction m as [|m IH]; intros k ctxs w Hk.
  - exists (Some plan_ref), ctxs, w, []. simpl. rewrite app_nil_r.
    rewrite drop_ge by lia. do 3 (split; [done |]). split; [lia |]. split; [lia |].
    split; [by left |]. intros _. split; [done |]. split; [done |].
    intros n Hn. by apply elem_of_nil in Hn.
  - destruct (lookup_lt_is_Some_2 (outline w) k ltac:(lia)) as [s Hs].
    rewrite (drop_S _ _ _ Hs). cbn [seq].
    destruct (rr !! name s) as [req|] eqn:Hr.
    + destruct (revise_step_with_llms_account MAX_ITERATIONS anthropic_client
                  gemini_model k req w s Hs)
        as (o & w1 & Hrun
            & (hc' & ev1 & _ & _ & Hlog1 & Hcc1 & Hgc1 & _ & Hn1 & _ & _ & _ & Hok1)
            & _ & _ & Hbound & _ & Hev).
      rewrite (for_each_step_revise _ _ _ rr k _ ctxs w w1 s req o Hs Hr Hrun).
      assert (total_steps rr (s :: drop (S k) (outline w)) =
              S (total_steps rr (drop (S k) (outline w)))) as Htot.
      { unfold total_steps. rewrite filter_cons_True; [done |]. by rewrite Hr. }
      rewrite Htot. pose proof (ev_names _ _ _ _ Hev) as Hnames.
      destruct (returned_plan o) as [[]|] eqn:Hplan.
      * assert (exit o ≠ Aborted) as Hex
          by (intros He; unfold returned_plan in Hplan; by rewrite He in Hplan).
        destruct (IH (S k) (<[name s := context o]> ctxs) w1)
          as (r & ctxs' & w' & evs & Hrun' & Hlog' & Hnames' & Hcc' & Hgc' & Hkeys & Hsucc).
        { rewrite <- (length_fmap name (outline w1)), Hnames, length_fmap. lia. }
        rewrite (total_steps_names rr (drop (S k) (outline w1)) (drop (S k) (outline w)))
          in Hcc', Hgc' by (by rewrite !fmap_drop, Hnames).
        rewrite fmap_drop, Hnames, <- fmap_drop in Hkeys, Hsucc.
        destruct (Hok1 Hex) as (_ & _ & _ & Hq1).
        exists r, ctxs', w', (ev1 ++ evs).
        split; [done |]. split; [by rewrite Hlog', Hlog1, app_assoc |].
        split; [congruence |]. split; [nia |]. split; [nia |]. split.
        -- intros n Hn. destruct (Hkeys n Hn) as [Hin | [Hreq Hin]].
           ++ rewrite lookup_insert in Hin. case_decide as Hd; [| by left].
              subst n. right. split; [by rewrite Hr |]. rewrite fmap_cons.
              apply elem_of_cons. by left.
           ++ right. split; [done |]. rewrite fmap_cons. apply elem_of_cons. by right.
        -- intros Hsome. destruct (Hsucc Hsome) as (Hq & Hmono & Hall).
           split; [by apply Forall_app |]. split.
           ++ intros n Hn. apply Hmono. rewrite lookup_insert. by case_decide.
           ++ intros n Hn Hreq. rewrite fmap_cons in Hn.
              apply elem_of_cons in Hn as [-> | Hn]; [| by apply Hall].
              apply Hmono. by rewrite lookup_insert_eq.
      * exists None, ctxs, w1, ev1. do 3 (split; [done |]).
        split; [nia |]. split; [nia |]. split; [by left | done].
    + rewrite (for_each_step_skip _ _ _ rr k _ ctxs w s Hs Hr).
      assert (total_steps rr (s :: drop (S k) (outline w)) =
              total_steps rr (drop (S k) (outline w))) as Htot.
      { unfold total_steps. rewrite filter_cons_False; [done |].
        rewrite Hr. by intros [? ?]. }
      rewrite Htot.
      destruct (IH (S k) ctxs w ltac:(lia))
        as (r & ctxs' & w' & evs & Hrun' & Hlog' & Hnames' & Hcc' & Hgc' & Hkeys & Hsucc).
      exists r, ctxs', w', evs. do 5 (split; [done |]). split.
      * intros n Hn. destruct (Hkeys n Hn) as [Hin | [Hreq Hin]]; [by left |].
        right. split; [done |]. rewrite fmap_cons. apply elem_of_cons. by right.
      * intros Hsome. destruct (Hsucc Hsome) as (Hq & Hmono & Hall).
        do 2 (split; [done |]). intros n Hn Hreq. rewrite fmap_cons in Hn.
        apply elem_of_cons in Hn as [-> | Hn]; [| by apply Hall].
        rewrite Hr in Hreq. by destruct Hreq.
Qed.


Lemma further_revise_plan_tail (w : World) :
  ∃ r ctxs w' evs,
    driver w = (Val (r, ctxs), w') ∧
    log w' = log w ++ evs ∧
    name <$> outline w' = name <$> outline w ∧
    claude_calls w' ≤ claude_calls w + 2 * budget * total_steps rr (outline w) ∧
    gemini_calls w' ≤ gemini_calls w + budget * total_steps rr (outline w) ∧
    (∀ n, is_Some (ctxs !! n) → is_Some (rr !! n) ∧ n ∈ name <$> outline w) ∧
    (r = Some plan_ref →
       Forall (λ e, is_error e = false) evs ∧
       (∀ n, n ∈ name <$> outline w → is_Some (rr !! n) → is_Some (ctxs !! n))).
Proof.
  destruct (for_each_step_tail (length (outline w)) 0 ∅ w eq_refl)
    as (r & ctxs & w' & evs & Hrun & Hlog & Hnames & Hcc & Hgc & Hkeys & Hsucc).
  rewrite drop_0 in *. exists r, ctxs, w', evs.
  split; [unfold further_revise_plan, try_except; by rewrite Hrun |].
  do 4 (split; [done |]). split.
  - intros n Hn. destruct (Hkeys n Hn) as [Hin | Hin]; [| done].
    rewrite lookup_empty in Hin. by destruct Hin.
  - intros Hsome. destruct (Hsucc Hsome) as (Hq & _ & Hall). by split.
Qed.

(** X6.  The driver never adds, removes, renames or reorders steps: the
    names of the outline, in order, are the same after the batch. *)
Theorem driver_keeps_the_steps (w : World) :
  ∃ r ctxs w',
    driver w = (Val (r, ctxs), w') ∧
    name <$> outline w' = name <$> outline w ∧
    length (outline w') = length (outline w).
Proof.
  destruct (further_revise_plan_tail w) as (r & ctxs & w' & evs & Hrun & _ & Hn & _).
  exists r, ctxs, w'. do 2 (split; [done |]).
  by rewrite <- (length_fmap name (outline w')), Hn, length_fmap.
Qed.

(** X7.  A batch makes at most [2 * MAX_ITERATIONS] Claude calls and
    [MAX_ITERATIONS] Gemini calls for each step counted by [total_steps]. *)
Theorem batch_call_budget (w : World) :
  ∃ r ctxs w',
    driver w = (Val (r, ctxs), w') ∧
    claude_calls w' ≤ claude_calls w + 2 * budget * total_steps rr (outline w) ∧
    gemini_calls w' ≤ gemini_calls w + budget * total_steps rr (outline w).
Proof.
  destruct (further_revise_plan_tail w)
    as (r & ctxs & w' & evs & Hrun & _ & _ & Hcc & Hgc & _).
  by exists r, ctxs, w'.
Qed.

(** X8.  Whatever the driver returns, it holds a context only under names
    that have a revision request and belong to a step of the outline: a
    request for a name that is no step's name is never acted upon. *)
Theorem contexts_only_for_requested_steps (w : World) :
  ∃ r ctxs w',
    driver w = (Val (r, ctxs), w') ∧
    ∀ n, is_Some (ctxs !! n) → is_Some (rr !! n) ∧ n ∈ name <$> outline w.
Proof.
  destruct (further_revise_plan_tail w)
    as (r & ctxs & w' & evs & Hrun & _ & _ & _ & _ & Hkeys & _).
  by exists r, ctxs, w'.
Qed.

(** X9.  When the driver returns the plan, no error record was logged during
    the batch, and the contexts it returns are stored under exactly the names
    of the steps that have a revision request. *)
Theorem successful_batch (w : World) :
  ∃ r ctxs w' evs,
    driver w = (Val (r, ctxs), w') ∧ log w' = log w ++ evs ∧
    (r = Some plan_ref →
       Forall (λ e, is_error e = false) evs ∧
       ∀ n, is_Some (ctxs !! n) ↔ is_Some (rr !! n) ∧ n ∈ name <$> outline w).
Proof.
  destruct (further_revise_plan_tail w)
    as (r & ctxs & w' & evs & Hrun & Hlog & _ & _ & _ & Hkeys & Hsucc).
  exists r, ctxs, w', evs. do 2 (split; [done |]). intros Hsome.
  destruct (Hsucc Hsome) as [Hq Hall]. split; [done |]. intros n. split.
  - apply Hkeys.
  - intros [Hreq Hin]. by apply Hall.
Qed.

(** The loop of the driver passes over steps without a request. *)
Lemma for_each_step_idle (m : nat) :
  ∀ (k : nat) (ctxs : gmap string RevisionContext) (w : World),
    k + m = length (outline w) →
    (∀ s, s ∈ outline w → rr !! name s = None) →
    for_each (seq k m) ctxs w = (Val (Some plan_ref, ctxs), w).
Proof.
  induction m as [|m IH]; intros k ctxs w Hk Hnone; [done |].
  destruct (lookup_lt_is_Some_2 (outline w) k ltac:(lia)) as [s Hs].
  cbn [seq]. rewrite (for_each_step_skip _ _ _ rr k _ ctxs w s Hs).
  - apply IH; [lia | done].
  - apply Hnone. by eapply list_elem_of_lookup_2.
Qed.

(** X10.  When no step of the outline has a revision request, the driver
    returns the plan with no context and changes nothing: no call, no log
    record, no allocation. *)
Theorem no_request_no_effect (w : World) :
  (∀ s, s ∈ outline w → rr !! name s = None) →
  driver w = (Val (Some plan_ref, ∅), w).
Proof.
  intros Hnone. unfold further_revise_plan, try_except.
  by rewrite (for_each_step_idle (length (outline w)) 0 ∅ w eq_refl Hnone).
Qed.

End DriverTotals.

(** ** Verdicts, prompts and the formatted history *)

Lemma append_nil_r (s : string) : s +:+ "" = s.
Proof.
  induction s as [|c s IH]; [done |].
  change (String c (s +:+ "") = String c s). by f_equal.
Qed.

Lemma contains_refl (x : string) : contains x x = true.
Proof. apply contains_spec. exists "", "". by rewrite append_nil_r. Qed.

Lemma contains_app_l (x a b : string) :
  contains x a = true → contains x (a +:+ b) = true.
Proof.
  rewrite !contains_spec. intros (pre & post & ->). exists pre, (post +:+ b).
  by rewrite !append_assoc.
Qed.

Lemma contains_app_r (x a b : string) :
  contains x b = true → contains x (a +:+ b) = true.
Proof.
  rewrite !contains_spec. intros (pre & post & ->). exists (a +:+ pre), post.
  by rewrite !append_assoc.
Qed.

Ltac find_in :=
  first [ apply contains_refl
        | apply contains_app_l; find_in
        | apply contains_app_r; find_in ].


(** X12.  The instruction prompt contains the step's name, its original
    content, the revision request and the formatted revision history; the
    review prompt contains the revision under review, the revision request
    and the formatted revision history. *)
Theorem prompts_carry_their_inputs (ctx : RevisionContext) (h : list Message)
    (revised_content : string) :
  contains (step_name ctx) (claude_prompt_of ctx h) = true ∧
  contains (original_content ctx) (claude_prompt_of ctx h) = true ∧
  contains (revision_request ctx) (claude_prompt_of ctx h) = true ∧
  contains (_format_revision_history h) (claude_prompt_of ctx h) = true ∧
  contains revised_content (review_prompt_of ctx revised_content h) = true ∧
  contains (revision_request ctx) (review_prompt_of ctx revised_content h) = true ∧
  contains (_format_revision_history h) (review_prompt_of ctx revised_content h) = true.
Proof.
  unfold claude_prompt_of, review_prompt_of, fstring. cbn [join map].
  repeat split; find_in.
Qed.

Lemma format_entries_of_dialogue (xs : list (string * string)) :
  ∀ k, concat (imap (λ i, format_entry (2 * k + i)) (dialogue "user" "model" xs)) =
       imap (λ j x, revision_block (S (k + j)) x.2) xs.
Proof.
  induction xs as [|x xs IH]; intros k; [done |].
  assert (format_entry (2 * k + 0) (mkMessage "user" x.1) = []) as H0 by done.
  assert (format_entry (2 * k + 1) (mkMessage "model" x.2) =
          [revision_block (S (k + 0)) x.2]) as H1.
  { unfold format_entry, revision_block. cbn [msg_role msg_content].
    replace (String.eqb "model" "model") with true by done.
    replace ((2 * k + 1) / 2 + 1) with (S (k + 0)); [done |].
    replace (2 * k + 1) with (1 + k * 2) by lia.
    rewrite Nat.div_add by done. simpl. lia. }
  cbn [dialogue flat_map app imap concat]. unfold compose.
  rewrite H0, H1. cbn [app]. f_equal.
  change (flat_map _ xs) with (dialogue "user" "model" xs).
  rewrite (imap_ext _ (λ i, format_entry (2 * S k + i))); cycle 1.
  { intros i m _. f_equal. lia. }
  rewrite IH. apply imap_ext. intros j y _. f_equal. lia.
Qed.

(** X13.  On a Gemini history made of whole exchanges,
    [_format_revision_history] prints one block per exchange, numbered
    1, 2, 3, ... in order, each with the reply of the exchange; the requests
    are not printed. *)
Theorem format_revision_history_numbers (xs : list (string * string)) :
  xs ≠ [] →
  _format_revision_history (dialogue "user" "model" xs) =
    join (nl +:+ nl) (imap (λ j x, revision_block (S j) x.2) xs).
Proof.
  intros Hne. destruct xs as [|x xs]; [done |].
  unfold _format_revision_history.
  change (dialogue "user" "model" (x :: xs))
    with (mkMessage "user" x.1 :: mkMessage "model" x.2 :: dialogue "user" "model" xs).
  cbv iota.
  change (mkMessage "user" x.1 :: mkMessage "model" x.2 :: dialogue "user" "model" xs)
    with (dialogue "user" "model" (x :: xs)).
  rewrite <- (imap_ext (λ i, format_entry (2 * 0 + i)) format_entry) by done.
  by rewrite format_entries_of_dialogue.
Qed.


(** ** The Markdown document *)

Lemma fold_left_sections (steps : list Step) :
  ∀ md,
    fold_left
      (λ md_content step,
         md_content +:+ "### " +:+ name step +:+ nl +:+ nl +:+ content step +:+ nl +:+ nl)
      steps md = md +:+ outline_sections steps.
Proof.
  induction steps as [|st steps IH]; intros md; simpl.
  - by rewrite append_nil_r.
  - rewrite IH. unfold step_section. by rewrite !append_assoc.
Qed.

Lemma convert_to_markdown_app (title summary : string) (l1 l2 : list Step) :
  convert_to_markdown title summary (l1 ++ l2) =
    convert_to_markdown title summary l1 +:+ outline_sections l2.
Proof.
  unfold convert_to_markdown. cbv zeta. by rewrite fold_left_app, fold_left_sections.
Qed.

(** The document split at step [i]: the text before the step, the section
    of the step, the sections after it. *)
Lemma convert_to_markdown_at (title summary : string) (steps : list Step)
    (i : nat) (st : Step) :
  steps !! i = Some st →
  convert_to_markdown title summary steps =
    convert_to_markdown title summary (take i steps) +:+ step_section st
      +:+ outline_sections (drop (S i) steps).
Proof.
  intros Hi. rewrite <- (take_drop_middle steps i st Hi) at 1.
  by rewrite convert_to_markdown_app.
Qed.

(** X15.  In the Markdown document a step owns one section: replacing the
    content of step [i] changes the section of step [i] and leaves the text
    before it and the sections after it as they were. *)
Theorem markdown_of_revised_step (title summary : string) (steps : list Step)
    (i : nat) (st : Step) (text : string) :
  steps !! i = Some st →
  convert_to_markdown title summary steps =
    convert_to_markdown title summary (take i steps) +:+ step_section st
      +:+ outline_sections (drop (S i) steps) ∧
  convert_to_markdown title summary (<[i := mkStep (name st) text]> steps) =
    convert_to_markdown title summary (take i steps)
      +:+ step_section (mkStep (name st) text)
      +:+ outline_sections (drop (S i) steps).
Proof.
  intros Hi. pose proof (lookup_lt_Some _ _ _ Hi) as Hlt. split.
  - by apply convert_to_markdown_at.
  - rewrite insert_take_drop by done. by rewrite convert_to_markdown_app.
Qed.

(** X16.  The Markdown document contains the title, the summary, and for
    every step of the outline its section (heading with the name, then the
    content). *)
Theorem markdown_has_every_step (title summary : string) (steps : list Step) :
  contains title (convert_to_markdown title summary steps) = true ∧
  contains summary (convert_to_markdown title summary steps) = true ∧
  ∀ st, st ∈ steps →
        contains (step_section st) (convert_to_markdown title summary steps) = true.
Proof.
  assert (∀ x, contains x (convert_to_markdown title summary []) = true →
               contains x (convert_to_markdown title summary steps) = true) as Hhead.
  { intros x Hx. rewrite <- (app_nil_l steps), convert_to_markdown_app.
    by apply contains_app_l. }
  split; [| split].
  - apply Hhead. unfold convert_to_markdown. cbn [fold_left]. find_in.
  - apply Hhead. unfold convert_to_markdown. cbn [fold_left]. find_in.
  - intros st Hst. apply list_elem_of_lookup in Hst as [i Hi].
    rewrite (convert_to_markdown_at title summary steps i st Hi).
    apply contains_app_r, contains_app_l, contains_refl.
Qed.

(** ** Saving, and the main block *)

Lemma append_inj_r (p a b : string) : p +:+ a = p +:+ b → a = b.
Proof.
  induction p as [|x p IH]; [done |].
  change (String x (p +:+ a) = String x (p +:+ b) → a = b).
  intros [= H]. by apply IH.
Qed.

(** The Markdown file is never one of the two JSON files. *)
Lemma markdown_name_fresh (file_prefix : string) :
  file_prefix +:+ "-RevisedPlan.md" ≠ "RevisedPlan.json" ∧
  file_prefix +:+ "-RevisedPlan.md" ≠ file_prefix +:+ ".json".
Proof.
  split.
  - intros H. pose proof (f_equal String.length H) as Hlen.
    rewrite append_length in Hlen. simpl in Hlen.
    destruct file_prefix as [|c [|c' p]]; simpl in Hlen; try lia.
    discriminate H.
  - intros H. apply append_inj_r in H. discriminate H.
Qed.

Section Saving.

Variable writable : string → bool.
Variable encodable : string → bool.
Variable json_dump : list Step → string.
Variables title overall_summary : string.

Local Abbreviation save :=
  (save_revised_plan writable encodable json_dump title overall_summary).

(** A save whose three files can be opened, and whose Markdown text can be
    encoded, is three writes in a row. *)
Lemma save_revised_plan_run (steps : list Step) (file_prefix : string) (fs : gmap string string) :
  writable "RevisedPlan.json" = true →
  writable (file_prefix +:+ ".json") = true →
  writable (file_prefix +:+ "-RevisedPlan.md") = true →
  encodable (convert_to_markdown title overall_summary steps) = true →
  save steps file_prefix fs =
    (Val tt,
     <[file_prefix +:+ "-RevisedPlan.md" := convert_to_markdown title overall_summary steps]>
       (<[file_prefix +:+ ".json" := json_dump steps]>
          (<["RevisedPlan.json" := json_dump steps]> fs))).
Proof.
  intros H1 H2 H3 H4. unfold save_revised_plan, write_file. cbv beta zeta.
  by rewrite H1, H2, H3, H4.
Qed.

(** What the three names hold after the three writes. *)
Lemma three_writes_lookup (file_prefix dump md : string) (fs : gmap string string) :
  let fs' := <[file_prefix +:+ "-RevisedPlan.md" := md]>
               (<[file_prefix +:+ ".json" := dump]> (<["RevisedPlan.json" := dump]> fs)) in
  fs' !! "RevisedPlan.json" = Some dump ∧
  fs' !! (file_prefix +:+ ".json") = Some dump ∧
  fs' !! (file_prefix +:+ "-RevisedPlan.md") = Some md.
Proof.
  destruct (markdown_name_fresh file_prefix) as [Hm1 Hm2]. cbv zeta. split; [| split].
  - rewrite lookup_insert_ne by done. rewrite lookup_insert.
    case_decide; [done |]. by rewrite lookup_insert_eq.
  - rewrite lookup_insert_ne by done. by rewrite lookup_insert_eq.
  - by rewrite lookup_insert_eq.
Qed.

(** X17.  When the three files can be opened and the Markdown text can be
    encoded, [save_revised_plan] returns and leaves the JSON dump under
    [RevisedPlan.json] and under the dated name, the Markdown document under
    its name, and every other file as it was, for every file prefix: the
    Markdown file never overwrites a JSON file. *)
Theorem saved_files (steps : list Step) (file_prefix : string) (fs : gmap string string) :
  writable "RevisedPlan.json" = true →
  writable (file_prefix +:+ ".json") = true →
  writable (file_prefix +:+ "-RevisedPlan.md") = true →
  encodable (convert_to_markdown title overall_summary steps) = true →
  ∃ fs',
    save steps file_prefix fs = (Val tt, fs') ∧
    fs' !! "RevisedPlan.json" = Some (json_dump steps) ∧
    fs' !! (file_prefix +:+ ".json") = Some (json_dump steps) ∧
    fs' !! (file_prefix +:+ "-RevisedPlan.md") =
      Some (convert_to_markdown title overall_summary steps) ∧
    ∀ f, f ≠ "RevisedPlan.json" → f ≠ file_prefix +:+ ".json" →
         f ≠ file_prefix +:+ "-RevisedPlan.md" → fs' !! f = fs !! f.
Proof.
  intros H1 H2 H3 H4. rewrite (save_revised_plan_run steps file_prefix fs H1 H2 H3 H4).
  eexists. split; [reflexivity |].
  destruct (three_writes_lookup file_prefix (json_dump steps)
              (convert_to_markdown title overall_summary steps) fs) as (Hf1 & Hf2 & Hf3).
  do 3 (split; [done |]).
  intros f Hn1 Hn2 Hn3. by rewrite !lookup_insert_ne.
Qed.

(** X18.  A failed save is not rolled back: if the first file cannot be
    opened nothing is written; if the second cannot, [RevisedPlan.json] has
    already been replaced; if the Markdown file cannot, both JSON files have
    been written and the Markdown file is as it was. *)
Theorem failed_save_is_not_rolled_back (steps : list Step) (file_prefix : string)
    (fs : gmap string string) :
  (writable "RevisedPlan.json" = false →
     save steps file_prefix fs = (Exc "OSError", fs)) ∧
  (writable "RevisedPlan.json" = true →
   writable (file_prefix +:+ ".json") = false →
     save steps file_prefix fs =
       (Exc "OSError", <["RevisedPlan.json" := json_dump steps]> fs)) ∧
  (writable "RevisedPlan.json" = true →
   writable (file_prefix +:+ ".json") = true →
   writable (file_prefix +:+ "-RevisedPlan.md") = false →
     ∃ fs',
       save steps file_prefix fs = (Exc "OSError", fs') ∧
       fs' !! "RevisedPlan.json" = Some (json_dump steps) ∧
       fs' !! (file_prefix +:+ ".json") = Some (json_dump steps) ∧
       fs' !! (file_prefix +:+ "-RevisedPlan.md") =
         fs !! (file_prefix +:+ "-RevisedPlan.md")).
Proof.
  destruct (markdown_name_fresh file_prefix) as [Hm1 Hm2].
  unfold save_revised_plan, write_file. cbv beta zeta. split; [| split].
  - by intros ->.
  - by intros -> ->.
  - intros -> -> ->. eexists. split; [reflexivity |]. split; [| split].
    + rewrite lookup_insert. case_decide; [done |]. by rewrite lookup_insert_eq.
    + by rewrite lookup_insert_eq.
    + by rewrite !lookup_insert_ne.
Qed.

(** X20.  A Markdown text that cannot be encoded costs the Markdown file its
    content: when the three files can be opened and the text cannot be
    written, [save_revised_plan] raises after both JSON files have been
    written, and the Markdown file, emptied when it was opened, is left
    empty whatever it held before. *)
Theorem unencodable_markdown_empties_the_file (steps : list Step) (file_prefix : string)
    (fs : gmap string string) :
  writable "RevisedPlan.json" = true →
  writable (file_prefix +:+ ".json") = true →
  writable (file_prefix +:+ "-RevisedPlan.md") = true →
  encodable (convert_to_markdown title overall_summary steps) = false →
  ∃ fs',
    save steps file_prefix fs = (Exc "UnicodeEncodeError", fs') ∧
    fs' !! "RevisedPlan.json" = Some (json_dump steps) ∧
    fs' !! (file_prefix +:+ ".json") = Some (json_dump steps) ∧
    fs' !! (file_prefix +:+ "-RevisedPlan.md") = Some "".
Proof.
  intros H1 H2 H3 H4. unfold save_revised_plan, write_file. cbv beta zeta.
  rewrite H1, H2, H3, H4. eexists. split; [reflexivity |].
  apply (three_writes_lookup file_prefix (json_dump steps) "" fs).
Qed.

(** A save either goes through or raises. *)
Lemma save_revised_plan_cases (steps : list Step) (file_prefix : string)
    (fs : gmap string string) :
  (writable "RevisedPlan.json" = true ∧
   writable (file_prefix +:+ ".json") = true ∧
   writable (file_prefix +:+ "-RevisedPlan.md") = true ∧
   encodable (convert_to_markdown title overall_summary steps) = true) ∨
  ∃ e fs', save steps file_prefix fs = (Exc e, fs').
Proof.
  unfold save_revised_plan, write_file. cbv beta zeta.
  destruct (writable "RevisedPlan.json"); [| right; by eexists _, _].
  destruct (writable (file_prefix +:+ ".json")); [| right; by eexists _, _].
  destruct (writable (file_prefix +:+ "-RevisedPlan.md")); [| right; by eexists _, _].
  destruct (encodable _); [by left | right; by eexists _, _].
Qed.

End Saving.

Section Main.

Variable MAX_ITERATIONS : Z.
Variable anthropic_client : AnthropicClient.
Variable gemini_model : GenerativeModel.
Variable rr : gmap string string.
Variable writable : string → bool.
Variable encodable : string → bool.
Variable json_dump : list Step → string.
Variables title overall_summary file_prefix : string.

Local Abbreviation main_block :=
  (main MAX_ITERATIONS anthropic_client gemini_model rr writable encodable json_dump
     title overall_summary file_prefix).


End Main.

(** ** Instances of the further properties *)

Lemma gemini_history_is_the_transcript_witness :
  ∃ o w',
    revise_step_with_llms 3 Scenario.always_no Scenario.reviser 1
      "add more detail" Scenario.plan = (Val o, w') ∧
    heap w' !! gemini_history (context o) =
      Some (dialogue "user" "model"
              [("Expand the second paragraph.", "Body, second draft");
               ("Expand the second paragraph.", "Body, second draft");
               ("Expand the second paragraph.", "Body, second draft")]).
Proof.
  destruct (gemini_history_is_the_transcript 3 Scenario.always_no Scenario.reviser
              Scenario.plan 1 Scenario.body "add more detail" eq_refl)
    as (o & w' & Hrun & Hh).
  exists o, w'. split; [exact Hrun |]. rewrite Hh.
  vm_compute in Hrun. by injection Hrun as <- _.
Defined.

Lemma revision_call_budget_witness :
  ∃ o w',
    revise_step_with_llms 3 Scenario.always_no Scenario.reviser 1
      "add more detail" Scenario.plan = (Val o, w') ∧
    claude_calls w' = 6 ∧ gemini_calls w' = 3.
Proof.
  destruct (revision_call_budget 3 Scenario.always_no Scenario.reviser
              Scenario.plan 1 Scenario.body "add more detail" eq_refl)
    as (o & w' & Hrun & _ & _ & Hexact).
  exists o, w'. split; [exact Hrun |].
  assert (exit o = Exhausted ∧ length (transcript o) = 3) as [He Hlen]
    by (vm_compute in Hrun; by injection Hrun as <- _).
  destruct (Hexact ltac:(by rewrite He)) as (Hc & Hg & _).
  rewrite Hc, Hg, Hlen. split; reflexivity.
Defined.

Lemma returned_plan_means_no_error_witness :
  ∃ o w' evs,
    revise_step_with_llms 3 Scenario.yes_approved Scenario.reviser 1
      "add more detail" Scenario.plan = (Val o, w') ∧
    log w' = log Scenario.plan ++ evs ∧ Forall (λ e, is_error e = false) evs.
Proof.
  destruct (returned_plan_means_no_error 3 Scenario.yes_approved Scenario.reviser
              Scenario.plan 1 Scenario.body "add more detail" eq_refl)
    as (o & w' & evs & Hrun & Hlog & Hq).
  exists o, w', evs. do 2 (split; [done |]). apply Hq.
  vm_compute in Hrun. by injection Hrun as <- _.
Defined.

(** An accepted first round, and an exhausted run with a budget of three
    and with a negative one. *)
Lemma context_snapshot_and_counter_witness :
  (∃ o w',
     revise_step_with_llms 3 Scenario.yes_approved Scenario.reviser 1
       "add more detail" Scenario.plan = (Val o, w') ∧
     outline w' !! 1 = Some (mkStep "Body" "Body, second draft") ∧
     original_content (context o) = "Body, first draft" ∧
     current_iteration (context o) = 1%Z) ∧
  (∃ o w',
     revise_step_with_llms 3 Scenario.always_no Scenario.reviser 1
       "add more detail" Scenario.plan = (Val o, w') ∧
     exit o = Exhausted ∧ current_iteration (context o) = 4%Z) ∧
  (∃ o w',
     revise_step_with_llms (-1) Scenario.always_no Scenario.reviser 1
       "add more detail" Scenario.plan = (Val o, w') ∧
     exit o = Exhausted ∧ current_iteration (context o) = 1%Z).
Proof.
  split; [| split].
  - destruct (context_snapshot_and_counter 3 Scenario.yes_approved Scenario.reviser
                Scenario.plan 1 Scenario.body "add more detail" eq_refl)
      as (o & w' & Hrun & _ & Hoc & _ & _ & Hacc & _).
    exists o, w'. split; [exact Hrun |].
    assert (exit o = Accepted ∧ length (transcript o) = 1 ∧
            outline w' !! 1 = Some (mkStep "Body" "Body, second draft"))
      as (He & Hlen & Hout)
      by (vm_compute in Hrun; by injection Hrun as <- <-).
    split; [done |]. split; [done |]. rewrite (Hacc He), Hlen. reflexivity.
  - destruct (context_snapshot_and_counter 3 Scenario.always_no Scenario.reviser
                Scenario.plan 1 Scenario.body "add more detail" eq_refl)
      as (o & w' & Hrun & _ & _ & _ & _ & _ & Hexh).
    exists o, w'. split; [exact Hrun |].
    assert (exit o = Exhausted) as He by (vm_compute in Hrun; by injection Hrun as <- _).
    split; [done |]. by rewrite (Hexh He).
  - destruct (context_snapshot_and_counter (-1) Scenario.always_no Scenario.reviser
                Scenario.plan 1 Scenario.body "add more detail" eq_refl)
      as (o & w' & Hrun & _ & _ & _ & _ & _ & Hexh).
    exists o, w'. split; [exact Hrun |].
    assert (exit o = Exhausted) as He by (vm_compute in Hrun; by injection Hrun as <- _).
    split; [done |]. by rewrite (Hexh He).
Defined.

Lemma no_round_without_budget_witness :
  ∃ o w',
    revise_step_with_llms 0 Scenario.yes_approved Scenario.reviser 1
      "add more detail" Scenario.plan = (Val o, w') ∧
    exit o = Exhausted ∧ returned_plan o = Some plan_ref ∧
    outline w' = outline Scenario.plan ∧
    claude_calls w' = 0 ∧ gemini_calls w' = 0.
Proof.
  destruct (no_round_without_budget 0 Scenario.yes_approved Scenario.reviser
              Scenario.plan 1 Scenario.body "add more detail")
    as (o & w' & Hrun & He & _ & Hplan & Hout & Hc & Hg & _); [lia | reflexivity |].
  by exists o, w'.
Defined.

(** A request for [Appendix], which is no step of the plan, is passed over. *)
Lemma contexts_only_for_requested_steps_witness :
  ∃ r ctxs w',
    further_revise_plan 3 Scenario.yes_approved Scenario.reviser
      {["Body" := "add more detail"; "Appendix" := "cut"]} Scenario.plan =
      (Val (r, ctxs), w') ∧
    ctxs !! "Appendix" = None ∧ ctxs !! "Intro" = None.
Proof.
  destruct (contexts_only_for_requested_steps 3 Scenario.yes_approved Scenario.reviser
              {["Body" := "add more detail"; "Appendix" := "cut"]} Scenario.plan)
    as (r & ctxs & w' & Hrun & Hkeys).
  exists r, ctxs, w'. split; [exact Hrun |]. split.
  - destruct (ctxs !! "Appendix") as [c|] eqn:Hc; [| done].
    destruct (Hkeys "Appendix" ltac:(by rewrite Hc)) as [_ Hin].
    by vm_compute in Hin; repeat (apply elem_of_cons in Hin as [Hin | Hin]; [done |]);
      apply elem_of_nil in Hin.
  - destruct (ctxs !! "Intro") as [c|] eqn:Hc; [| done].
    destruct (Hkeys "Intro" ltac:(by rewrite Hc)) as [[x Hx] _].
    by vm_compute in Hx.
Defined.

Lemma successful_batch_witness :
  ∃ r ctxs w' evs,
    further_revise_plan 3 Scenario.yes_approved Scenario.reviser
      Scenario.both_requests Scenario.plan = (Val (r, ctxs), w') ∧
    log w' = log Scenario.plan ++ evs ∧
    Forall (λ e, is_error e = false) evs ∧
    is_Some (ctxs !! "Intro") ∧ is_Some (ctxs !! "Body").
Proof.
  destruct (successful_batch 3 Scenario.yes_approved Scenario.reviser
              Scenario.both_requests Scenario.plan)
    as (r & ctxs & w' & evs & Hrun & Hlog & Hsucc).
  exists r, ctxs, w', evs. do 2 (split; [done |]).
  destruct Hsucc as [Hq Hkeys].
  { pose proof (f_equal (λ x, match x.1 with Val (r, _) => r | _ => None end) Hrun) as H.
    vm_compute in H. by rewrite <- H. }
  split; [done |]. split; apply Hkeys.
  - split; [by eexists | apply elem_of_cons; by left].
  - split; [by eexists | apply elem_of_cons; right; apply elem_of_cons; by left].
Defined.

Lemma no_request_no_effect_witness :
  further_revise_plan 3 Scenario.yes_approved Scenario.reviser ∅ Scenario.plan =
    (Val (Some plan_ref, ∅), Scenario.plan).
Proof.
  apply no_request_no_effect. intros s _. apply lookup_empty.
Defined.


Lemma format_revision_history_numbers_witness :
  _format_revision_history
    (dialogue "user" "model" [("make it longer", "draft 2"); ("shorter", "draft 3")]) =
  join (nl +:+ nl) [revision_block 1 "draft 2"; revision_block 2 "draft 3"].
Proof.
  by apply (format_revision_history_numbers
              [("make it longer", "draft 2"); ("shorter", "draft 3")]).
Defined.


Lemma markdown_of_revised_step_witness :
  convert_to_markdown "Plan" "Summary"
    (<[1 := mkStep "Body" "Body, second draft"]> (outline Scenario.plan)) =
  convert_to_markdown "Plan" "Summary" [mkStep "Intro" "Introduction, first draft"]
    +:+ step_section (mkStep "Body" "Body, second draft") +:+ outline_sections [].
Proof.
  by destruct (markdown_of_revised_step "Plan" "Summary" (outline Scenario.plan) 1
                 Scenario.body "Body, second draft" eq_refl) as [_ H].
Defined.

Lemma markdown_has_every_step_witness :
  contains (step_section Scenario.body)
    (convert_to_markdown "Plan" "Summary" (outline Scenario.plan)) = true.
Proof.
  destruct (markdown_has_every_step "Plan" "Summary" (outline Scenario.plan))
    as (_ & _ & Hall).
  apply Hall. apply elem_of_cons. right. apply elem_of_cons. by left.
Defined.

Lemma saved_files_witness :
  ∃ fs',
    save_revised_plan (λ _, true) (λ _, true) (λ _, "{}") "Plan" "Summary"
      (outline Scenario.plan) "run-1" ∅ = (Val tt, fs') ∧
    fs' !! "RevisedPlan.json" = Some "{}" ∧
    fs' !! "run-1.json" = Some "{}" ∧
    fs' !! "run-1-RevisedPlan.md" =
      Some (convert_to_markdown "Plan" "Summary" (outline Scenario.plan)) ∧
    fs' !! "project_plan.json" = None.
Proof.
  destruct (saved_files (λ _, true) (λ _, true) (λ _, "{}") "Plan" "Summary"
              (outline Scenario.plan) "run-1" ∅ eq_refl eq_refl eq_refl eq_refl)
    as (fs' & Hrun & H1 & H2 & H3 & Hother).
  exists fs'. do 4 (split; [done |]). by rewrite Hother.
Defined.

Lemma failed_save_is_not_rolled_back_witness :
  save_revised_plan (λ f, bool_decide (f = "RevisedPlan.json")) (λ _, true) (λ _, "{}")
    "Plan" "Summary" (outline Scenario.plan) "run-1" ∅ =
  (Exc "OSError", {["RevisedPlan.json" := "{}"]}).
Proof.
  destruct (failed_save_is_not_rolled_back
              (λ f, bool_decide (f = "RevisedPlan.json")) (λ _, true) (λ _, "{}")
              "Plan" "Summary" (outline Scenario.plan) "run-1" ∅) as (_ & H & _).
  by apply H.
Defined.

(** An earlier Markdown file of the same name is lost when the new text
    cannot be encoded. *)
Lemma unencodable_markdown_empties_the_file_witness :
  ∃ fs',
    save_revised_plan (λ _, true) (λ _, false) (λ _, "{}") "Plan" "Summary"
      (outline Scenario.plan) "run-1" {["run-1-RevisedPlan.md" := "# Plan"]} =
      (Exc "UnicodeEncodeError", fs') ∧
    fs' !! "RevisedPlan.json" = Some "{}" ∧
    fs' !! "run-1.json" = Some "{}" ∧
    fs' !! "run-1-RevisedPlan.md" = Some "".
Proof.
  exact (unencodable_markdown_empties_the_file (λ _, true) (λ _, false) (λ _, "{}")
           "Plan" "Summary" (outline Scenario.plan) "run-1"
           {["run-1-RevisedPlan.md" := "# Plan"]} eq_refl eq_refl eq_refl eq_refl).
Defined.

